(** * Wallet balance tracker

    A shallow embedding of the reconciliation-and-resolution pipeline of the
    wallet balance tracker (src/utils.ts, src/rate-limiter.ts,
    src/database.ts, src/wallet-tracker.ts, src/constants.ts, src/types.ts,
    and the column helpers of src/ui/terminal/index.tsx)
    and the properties of its block resolution, freshness rule, rate-limited
    execution, multicall decoding and persistence.

    Conventions of the embedding:
    - a [bigint] is a [Z]; a [number] that holds an integer (network ids,
      counts, millisecond time values) is a [Z] as well.  The source passes
      second-resolution timestamps through [Number(...)]; these conversions
      are exact below 2^53 and are written as the identity;
    - a [Date] is its time value, the milliseconds since the Unix epoch;
    - an [async] function is a state transformer over a [World] that holds
      what the process can observe or change: the two database tables and
      the trace of observable events (RPC requests, timers, transactions,
      emitted events); calls to the logger are left out;
    - [throw] and rejected promises are the [Threw] outcome of a computation,
      a promise that has not settled within the modelled horizon is
      [Pending];
    - the SQL statements are modelled by their effect on the tables, the
      [limiter] package by how each token acquisition settles, and viem's
      client by the answers of the endpoint. *)

From Stdlib Require Import ZArith Lia Bool Ascii String.
From stdpp Require Import base option list strings pretty gmap.

Local Open Scope string_scope.
Local Open Scope Z_scope.

(** ** JavaScript values *)

(** What a [throw] statement or a rejected promise carries. *)
Inductive Thrown : Type :=
| ErrorObj (message : string)    (* an instance of [Error] with its message *)
| ThrownValue (text : string).   (* any other thrown value *)

(** [String(error)], as template literals compute it. *)
Definition thrownToString (e : Thrown) : string :=
  match e with
  | ErrorObj message => "Error: " +:+ message
  | ThrownValue text => text
  end.

Inductive Outcome (A : Type) : Type :=
| Returned (a : A)
| Threw (e : Thrown)
| Pending.
Arguments Returned {A} a.
Arguments Threw {A} e.
Arguments Pending {A}.

(** [String.prototype.toLowerCase] on ASCII text; SQLite's [LOWER] is the
    same function. *)
Definition lowerAscii (c : ascii) : ascii :=
  let n := nat_of_ascii c in
  if ((65 <=? n) && (n <=? 90))%nat then ascii_of_nat (n + 32) else c.

Fixpoint toLowerCase (s : string) : string :=
  match s with
  | EmptyString => EmptyString
  | String c rest => String (lowerAscii c) (toLowerCase rest)
  end.

(** *** Strings

    A string is the sequence of its code units. *)

(** [String.prototype.slice(start, end)] on the code units of [s]; [end_]
    is [None] when the argument is left out. *)
Definition slice (s : string) (start : Z) (end_ : option Z) : string :=
  let len := Z.of_nat (String.length s) in
  let from := if start <? 0 then Z.max (len + start) 0 else Z.min start len in
  let to := match end_ with
            | None => len
            | Some e => if e <? 0 then Z.max (len + e) 0 else Z.min e len
            end in
  substring (Z.to_nat from) (Z.to_nat (Z.max (to - from) 0)) s.

Fixpoint spaces (n : nat) : string :=
  match n with
  | O => ""
  | S n => String " " (spaces n)
  end.

(** [String.prototype.padEnd(maxLength, ' ')] *)
Definition padEnd (s : string) (maxLength : Z) : string :=
  s +:+ spaces (Z.to_nat (maxLength - Z.of_nat (String.length s))).

(** *** Dates *)

Definition MS_PER_DAY : Z := 86400000.

(** [Date.prototype.setUTCHours(h, m, s, ms)]: same UTC day, new time of day. *)
Definition setUTCHours (t h m s ms : Z) : Z :=
  (t / MS_PER_DAY) * MS_PER_DAY + (((h * 60 + m) * 60 + s) * 1000 + ms).

(** Days since the epoch of a proleptic Gregorian date ([month] from 1). *)
Definition daysFromCivil (year month day : Z) : Z :=
  let y := if month <=? 2 then year - 1 else year in
  let era := y / 400 in
  let yoe := y - era * 400 in
  let mp := if month >? 2 then month - 3 else month + 9 in
  let doy := (153 * mp + 2) / 5 + day - 1 in
  let doe := yoe * 365 + yoe / 4 - yoe / 100 + doy in
  era * 146097 + doe - 719468.

(** The time value of [YYYY-MM-DDTHH:MM:SS.sssZ]. *)
Definition utcTime (year month day h m s ms : Z) : Z :=
  setUTCHours (daysFromCivil year month day * MS_PER_DAY) h m s ms.

(** The proleptic Gregorian date of a day number. *)
Definition civilFromDays (days : Z) : Z * Z * Z :=
  let z := days + 719468 in
  let era := z / 146097 in
  let doe := z - era * 146097 in
  let yoe := (doe - doe / 1460 + doe / 36524 - doe / 146096) / 365 in
  let doy := doe - (365 * yoe + yoe / 4 - yoe / 100) in
  let mp := (5 * doy + 2) / 153 in
  let d := doy - (153 * mp + 2) / 5 + 1 in
  let m := if mp <? 10 then mp + 3 else mp - 9 in
  let y := yoe + era * 400 in
  (if m <=? 2 then y + 1 else y, m, d).

Definition digitChar (d : Z) : ascii := ascii_of_nat (48 + Z.to_nat (d mod 10)).

(** [n] written with [width] decimal digits, zero padded. *)
Fixpoint padDigits (width : nat) (n : Z) (acc : string) : string :=
  match width with
  | O => acc
  | S w => padDigits w (n / 10) (String (digitChar n) acc)
  end.

(** The year of an ISO-8601 date: four digits, or a sign and six digits
    outside 0..9999. *)
Definition isoYear (y : Z) : string :=
  if (0 <=? y) && (y <=? 9999) then padDigits 4 y ""
  else (if y <? 0 then "-" else "+") +:+ padDigits 6 (Z.abs y) "".

(** [Date.prototype.getUTCDate()]: the day of the month. *)
Definition getUTCDate (t : Z) : Z :=
  let '(_, _, d) := civilFromDays (t / MS_PER_DAY) in d.

(** [Date.prototype.setUTCDate(dt)]: the day [dt] of the month of [t],
    counted from the first of the month, so that zero and negative values
    reach into the months before; the time within the day is kept. *)
Definition setUTCDate (t dt : Z) : Z :=
  let '(y, m, _) := civilFromDays (t / MS_PER_DAY) in
  (daysFromCivil y m 1 + dt - 1) * MS_PER_DAY + t mod MS_PER_DAY.

(** ** src/constants.ts *)

(** [NETWORK_BLOCK_TIMES[networkId]], a lookup in an object literal. *)
Definition NETWORK_BLOCK_TIMES (networkId : Z) : option Z :=
  if networkId =? 1 then Some 12000
  else if networkId =? 137 then Some 2000
  else if networkId =? 42161 then Some 250
  else if networkId =? 8453 then Some 2000
  else if networkId =? 10 then Some 2000
  else None.

Definition NETWORK_RATE_LIMITS (networkId : Z) : option Z :=
  if networkId =? 1 then Some 10
  else if networkId =? 137 then Some 20
  else if networkId =? 42161 then Some 30
  else if networkId =? 8453 then Some 20
  else if networkId =? 10 then Some 20
  else None.

Definition DEFAULT_BLOCK_TIME : Z := 12000.
Definition DEFAULT_RATE_LIMIT : Z := 10.
Definition NATIVE_TOKEN_ADDRESS : string := "0xeeeeeeeeeeeeeeeeeeeeeeeeeeeeeeeeeeeeeeee".
Definition MULTICALL3_ADDRESS : string := "0xcA11bde05977b3631167028862bE2a173976CA11".
Definition DEFAULT_RETRY_DELAY : Z := 1000.
Definition DEFAULT_RETRY_TIMEOUT : Z := 30000.
Definition WALLET_BALANCE_BATCH_SIZE : nat := 5.

(** ** src/types.ts *)

Record Token : Type := mkToken {
  token_address : string;
  token_symbol : string;
  token_decimals : Z;
}.

Record NativeToken : Type := mkNativeToken {
  native_symbol : string;
  native_decimals : Z;
}.

Record Network : Type := mkNetwork {
  network_id_of : Z;
  network_name : string;
  rpc_url : string;
  native_token : NativeToken;
  tokens : list Token;
}.

Record Wallet : Type := mkWallet {
  wallet_address : string;
  wallet_label : option string;
}.

Record Config : Type := mkConfig {
  update_interval : Z;
  history_days : Z;
  wallets_file : string;
  wallets : option (list Wallet);
  networks : list Network;
}.

Record TokenBalance : Type := mkTokenBalance {
  tb_address : string;
  tb_symbol : string;
  tb_balance : string;
  tb_decimals : Z;
}.

Record WalletBalance : Type := mkWalletBalance {
  wb_address : string;
  wb_label : option string;
  wb_network : string;
  wb_network_id : Z;
  wb_native_balance : string;
  wb_tokens : list TokenBalance;
  wb_date : string;
}.

(** The [DisplayWalletBalance] of src/types.ts. *)
Record DisplayWalletBalance : Type := mkDisplayWalletBalance {
  dwb_address : string;
  dwb_label : option string;
  dwb_network : string;
  dwb_network_id : Z;
  dwb_tokens : list TokenBalance;
  dwb_date : string;
}.

(** ** The world of a running tracker *)

Inductive Abi : Type := MULTICALL3_ABI | ERC20_ABI.

(** One entry of the [contracts] list of a multicall. *)
Record Call : Type := mkCall {
  call_address : string;
  call_abi : Abi;
  call_functionName : string;
  call_args : list string;
}.

(** A row of the [balances] table.  The [timestamp] column holds the ISO
    text of a time value and is kept as that time value. *)
Record BalanceRow : Type := mkBalanceRow {
  row_wallet_address : string;
  row_network_id : Z;
  row_token_address : string;
  row_symbol : string;
  row_balance : string;
  row_block_number : Z;
  row_timestamp : Z;
  row_date : string;
}.

Inductive Event : Type :=
| RpcBlockNumber (chain : Z)
| RpcGetBlock (chain : Z) (blockNumber : Z)
| RpcMulticall (chain : Z) (contracts : list Call) (blockNumber : Z)
| TimerElapsed (ms : Z)
| OperationInvoked (operationName : string)
| TransactionCommitted
| TransactionRolledBack
| Emitted (event : string).

(** The two tables and the trace.  [balances] is the list of rows in
    insertion order; [block_mapping] maps its primary key (network id, date)
    to the block number and timestamp, which the table keeps as decimal
    text; [events] is the trace, most recent event first. *)
Record World : Type := mkWorld {
  balances : list BalanceRow;
  block_mapping : gmap (Z * string) (Z * Z);
  events : list Event;
}.

Definition record (e : Event) (w : World) : World :=
  mkWorld (balances w) (block_mapping w) (e :: events w).

(** Asynchronous computations: state passing over the world, with the three
    ways a promise can stand. *)
Definition M (A : Type) : Type := World → Outcome A * World.

#[global] Instance M_ret : MRet M := λ A a w, (Returned a, w).

#[global] Instance M_bind : MBind M := λ A B f m w,
  match m w with
  | (Returned a, w') => f a w'
  | (Threw e, w') => (Threw e, w')
  | (Pending, w') => (Pending, w')
  end.

Definition throw {A} (e : Thrown) : M A := λ w, (Threw e, w).
Definition pending {A} : M A := λ w, (Pending, w).
Definition emit (e : Event) : M unit := λ w, (Returned tt, record e w).

(** [try { body } catch (error) { handler error }] *)
Definition tryCatch {A} (body : M A) (handler : Thrown → M A) : M A := λ w,
  match body w with
  | (Threw e, w') => handler e w'
  | r => r
  end.

(** [array[index]] followed by a property read: a [TypeError] when the
    element is [undefined]. *)
Definition element {A} (array : list A) (index : nat) (property : string) : M A :=
  match array !! index with
  | Some x => mret x
  | None => throw (ErrorObj ("Cannot read properties of undefined (reading '" +:+ property +:+ "')"))
  end.

(** *** The chain client (viem's public client)

    The answers of the RPC endpoint: the latest block number, the timestamp
    of a block, and the per-call results of a multicall, [None] where a call
    reverted. *)
Record Client : Type := mkClient {
  client_chain : Z;
  client_getBlockNumber : Outcome Z;
  client_getBlock : Z → Outcome Z;
  client_multicall : list Call → Z → Outcome (list (option Z));
}.

Definition settle {A} (o : Outcome A) : M A := λ w, (o, w).

Definition getBlockNumber (client : Client) : M Z :=
  emit (RpcBlockNumber (client_chain client));; settle (client_getBlockNumber client).

Definition getBlock (client : Client) (blockNumber : Z) : M Z :=
  emit (RpcGetBlock (client_chain client) blockNumber);;
  settle (client_getBlock client blockNumber).

Definition multicall (client : Client) (contracts : list Call) (blockNumber : Z)
  : M (list (option Z)) :=
  emit (RpcMulticall (client_chain client) contracts blockNumber);;
  settle (client_multicall client contracts blockNumber).

(** viem's address check, which includes the EIP-55 checksum. *)
Class Viem : Type := { isAddress : string → bool }.

(** ** src/utils.ts *)

Definition ONE_HOUR_MS : Z := 60 * 60 * 1000.

Definition standardizeAddress `{Viem} (address : string) : M string :=
  if isAddress address then mret (toLowerCase address)
  else throw (ErrorObj ("Invalid Ethereum address: " +:+ address)).

Definition isWithinDuration (timestamp targetTime durationMs : Z) : bool :=
  let diff := Z.abs (targetTime - timestamp) in
  diff <=? durationMs.

Definition getEndOfDay (date : Z) : Z := setUTCHours date 23 59 59 999.

Definition toISODateString (date : Z) : string :=
  let '(y, m, d) := civilFromDays (date / MS_PER_DAY) in
  isoYear y +:+ "-" +:+ padDigits 2 m "" +:+ "-" +:+ padDigits 2 d "".

(** [now] is the value of [new Date()] in the body; a caller that leaves
    [startDate] out passes the same instant.  [Array.from({ length: days })]
    has no element for a [days] that is not positive. *)
Definition getLastNDays (now : Z) (days : Z) (startDate : Z) : list Z :=
  let today := setUTCHours now 0 0 0 0 in
  let effectiveStartDate := if startDate >? today then today else startDate in
  let effectiveStartDate := setUTCHours effectiveStartDate 0 0 0 0 in
  (λ i : nat,
     let date := effectiveStartDate in
     setUTCDate date (getUTCDate effectiveStartDate - Z.of_nat i)) <$> seq 0 (Z.to_nat days).

Definition isToday (now : Z) (date : Z) : bool :=
  let today := now in
  bool_decide (toISODateString date = toISODateString today).

(** [now] is the value of [new Date()] at the call. *)
Definition isBalanceTimestampValid (now : Z) (timestamp : option Z) (date : Z)
    (isCurrentDay : bool) : bool :=
  match timestamp with
  | None => false
  | Some timestamp =>
      let isValid :=
        if isCurrentDay then isWithinDuration timestamp now ONE_HOUR_MS
        else isWithinDuration timestamp (getEndOfDay date) (3 * ONE_HOUR_MS) in
      isValid
  end.

Record ResolvedBlock : Type := mkResolvedBlock {
  blockNumber : Z;
  blockTimestamp : Z;
}.

(** The loop [while (blockData.timestamp > targetTimestamp && blockNumber > 0n)].
    [fuel] bounds the iterations; [Z.to_nat blockNumber] is always enough. *)
Fixpoint walkBackwards (client : Client) (targetTimestamp : Z) (fuel : nat)
    (blockNumber blockDataTimestamp : Z) : M ResolvedBlock :=
  if (blockDataTimestamp >? targetTimestamp) && (blockNumber >? 0) then
    match fuel with
    | O => pending
    | S fuel' =>
        let blockNumber := blockNumber - 1 in
        blockDataTimestamp ← getBlock client blockNumber;
        walkBackwards client targetTimestamp fuel' blockNumber blockDataTimestamp
    end
  else mret (mkResolvedBlock blockNumber blockDataTimestamp).

(** The variables of the linear search. *)
Record Search : Type := mkSearch {
  currentBlockNumber : Z;
  closestBlock : Z;
  closestDiff : Z;
  lastBlockBeforeOrAtTarget : Z;
  lastBlockBeforeOrAtTargetTimestamp : Z;
}.

Definition oneHour : Z := 3600.

(** The loop [for (let i = 0; i < 100; i++)], [steps] iterations left. *)
Fixpoint linearSearch (client : Client) (targetTimestamp direction : Z) (steps : nat)
    (s : Search) : M Search :=
  match steps with
  | O => mret s
  | S steps' =>
      let currentBlockNumber := currentBlockNumber s + direction in
      blockDataTimestamp ← getBlock client currentBlockNumber;
      let diff := blockDataTimestamp - targetTimestamp in
      let '(lastBlock, lastTimestamp) :=
        if blockDataTimestamp <=? targetTimestamp
        then (currentBlockNumber, blockDataTimestamp)
        else (lastBlockBeforeOrAtTarget s, lastBlockBeforeOrAtTargetTimestamp s) in
      if Z.abs diff <? Z.abs (closestDiff s) then
        let s' := mkSearch currentBlockNumber currentBlockNumber diff lastBlock lastTimestamp in
        if Z.abs diff <=? oneHour then mret s'
        else linearSearch client targetTimestamp direction steps' s'
      else
        mret (mkSearch currentBlockNumber (closestBlock s) (closestDiff s) lastBlock lastTimestamp)
  end.

Definition blockTimeOf (networkId : Z) : Z :=
  default DEFAULT_BLOCK_TIME (NETWORK_BLOCK_TIMES networkId).

Definition estimateBlock (currentBlock currentTimestamp targetTimestamp networkId : Z) : Z :=
  let blockTimeMs := blockTimeOf networkId in
  let timeDiffMs := (currentTimestamp - targetTimestamp) * 1000 in
  let estimatedBlocksAgo := timeDiffMs / blockTimeMs in
  currentBlock - estimatedBlocksAgo.

Definition findBlockNumberForTimestamp (client : Client) (targetTimestamp networkId : Z)
  : M ResolvedBlock :=
  currentBlock ← getBlockNumber client;
  currentTimestamp ← getBlock client currentBlock;
  if targetTimestamp >? currentTimestamp then
    mret (mkResolvedBlock currentBlock currentTimestamp)
  else
    let estimatedBlock := estimateBlock currentBlock currentTimestamp targetTimestamp networkId in
    estimatedTimestamp ← getBlock client estimatedBlock;
    if estimatedTimestamp >? targetTimestamp then
      walkBackwards client targetTimestamp (Z.to_nat estimatedBlock) estimatedBlock estimatedTimestamp
    else if Z.abs (estimatedTimestamp - targetTimestamp) <=? oneHour then
      mret (mkResolvedBlock estimatedBlock estimatedTimestamp)
    else
      let direction := if estimatedTimestamp >? targetTimestamp then -1 else 1 in
      s ← linearSearch client targetTimestamp direction 100
            (mkSearch estimatedBlock estimatedBlock (estimatedTimestamp - targetTimestamp)
                      estimatedBlock estimatedTimestamp);
      let finalBlock := closestBlock s in
      finalBlockTimestamp ← getBlock client finalBlock;
      if finalBlockTimestamp >? targetTimestamp then
        mret (mkResolvedBlock (lastBlockBeforeOrAtTarget s) (lastBlockBeforeOrAtTargetTimestamp s))
      else
        mret (mkResolvedBlock finalBlock finalBlockTimestamp).

(** [value?.toString() || '0'] on an optional [bigint]. *)
Definition balanceText (result : option Z) : string :=
  match pretty <$> result with
  | Some text => if bool_decide (text = "") then "0" else text
  | None => "0"
  end.

Definition nativeBalanceCall (wallet : Wallet) : Call :=
  mkCall MULTICALL3_ADDRESS MULTICALL3_ABI "getEthBalance" [wallet_address wallet].

Definition tokenBalanceCall (token : Token) (wallet : Wallet) : Call :=
  mkCall (token_address token) ERC20_ABI "balanceOf" [wallet_address wallet].

Definition allCalls (standardizedWallets : list Wallet) (network : Network) : list Call :=
  (nativeBalanceCall <$> standardizedWallets)
  ++ (token ← tokens network; tokenBalanceCall token <$> standardizedWallets).

Definition standardizeWallet `{Viem} (wallet : Wallet) : M Wallet :=
  address ← standardizeAddress (wallet_address wallet);
  mret (mkWallet address (wallet_label wallet)).

(** The callback of the final [standardizedWallets.map]. *)
Definition walletBalanceOf (network : Network) (walletsPerToken : nat)
    (nativeBalanceResults tokenBalanceResults : list (option Z))
    (walletIndex : nat) (wallet : Wallet) : M WalletBalance :=
  nativeResult ← element nativeBalanceResults walletIndex "result";
  let nativeBalance := balanceText nativeResult in
  walletTokenBalances ← mapM (λ '(tokenIndex, token),
      let balanceIndex := (tokenIndex * walletsPerToken + walletIndex)%nat in
      result ← element tokenBalanceResults balanceIndex "result";
      let balance := balanceText result in
      mret (mkTokenBalance (token_address token) (token_symbol token) balance
                           (token_decimals token)))
    (imap pair (tokens network));
  mret (mkWalletBalance (wallet_address wallet) (wallet_label wallet) (network_name network)
                        (network_id_of network) nativeBalance walletTokenBalances "").

Definition getWalletsBalances `{Viem} (client : Client) (wallets : list Wallet)
    (network : Network) (blockNumber : Z) : M (list WalletBalance) :=
  standardizedWallets ← mapM standardizeWallet wallets;
  let allCalls := allCalls standardizedWallets network in
  results ← multicall client allCalls blockNumber;
  let walletsPerToken := length standardizedWallets in
  let nativeBalanceResults := take (length standardizedWallets) results in
  let tokenBalanceResults := drop (length standardizedWallets) results in
  mapM (λ '(walletIndex, wallet),
      walletBalanceOf network walletsPerToken nativeBalanceResults tokenBalanceResults
                      walletIndex wallet)
    (imap pair standardizedWallets).

(** A JavaScript [Map], or an object used as one through keys that are not
    array indices: its entries in insertion order, one per key. *)
Definition mapHas {K V} `{EqDecision K} (key : K) (m : list (K * V)) : bool :=
  existsb (λ entry, bool_decide (entry.1 = key)) m.

Definition mapGet {K V} `{EqDecision K} (key : K) (m : list (K * V)) : option V :=
  snd <$> List.find (λ entry, bool_decide (entry.1 = key)) m.

(** [set] keeps the position of a key that is present and adds a new key at
    the end. *)
Fixpoint mapSet {K V} `{EqDecision K} (key : K) (value : V) (m : list (K * V)) : list (K * V) :=
  match m with
  | [] => [(key, value)]
  | (k, v) :: rest =>
      if bool_decide (k = key) then (k, value) :: rest else (k, v) :: mapSet key value rest
  end.

(** The [MissingData] of src/types.ts. *)
Record MissingData : Type := mkMissingData {
  md_wallet : Wallet;
  md_network : Network;
  md_isNative : bool;
  md_tokenAddress : option string;
  md_date : Z;
}.

(** The template literal [`${item.wallet.address}-${item.network.id}`]. *)
Definition groupKey (item : MissingData) : string :=
  wallet_address (md_wallet item) +:+ "-" +:+ pretty (network_id_of (md_network item)).

(** The body of the [forEach] of [groupMissingData].  [get(key)!.push(item)]
    finds the array that the [set] before it guarantees. *)
Definition groupStep (groupedData : list (string * list MissingData)) (item : MissingData)
  : list (string * list MissingData) :=
  let key := groupKey item in
  let groupedData :=
    if negb (mapHas key groupedData) then mapSet key [] groupedData else groupedData in
  mapSet key (default [] (mapGet key groupedData) ++ [item])%list groupedData.

Definition groupMissingData (missingData : list MissingData)
  : list (string * list MissingData) :=
  foldl groupStep [] missingData.

(** ** src/rate-limiter.ts *)

Module RateLimiterManager.

(** The options a limiter of the [limiter] package is built with. *)
Record RateLimiter : Type := mkRateLimiter {
  tokensPerInterval : Z;
  interval : string;
  fireImmediately : bool;
}.

(** [constructor(networkIds)]: the [limiters] object it fills. *)
Definition create (networkIds : list Z) : gmap Z RateLimiter :=
  foldl (λ limiters networkId,
           let limit := default DEFAULT_RATE_LIMIT (NETWORK_RATE_LIMITS networkId) in
           <[networkId := mkRateLimiter limit "second" true]> limiters)
        ∅ networkIds.

(** How the race between [limiter.removeTokens(1)] and the timeout timer
    settles: the limiter resolves first (with a number, of which only the
    truthiness is read), the timer fires first, or the limiter rejects. *)
Inductive Acquisition : Type :=
| TokenRemoved (truthy : bool)
| TimedOut
| AcquisitionFailed (e : Thrown).

Definition isRateLimitTimeout (error : Thrown) : bool :=
  match error with
  | ErrorObj message => bool_decide (message = "Rate limit timeout")
  | ThrownValue _ => false
  end.

(** The [try] block of [execute] for one settled race. *)
Definition attempt {A} (request : M A) (operationName : string) (acquisition : Acquisition)
  : M A :=
  match acquisition with
  | TimedOut =>
      emit (TimerElapsed DEFAULT_RETRY_TIMEOUT);; throw (ErrorObj "Rate limit timeout")
  | AcquisitionFailed e => throw e
  | TokenRemoved false => throw (ErrorObj "Failed to acquire rate limit token")
  | TokenRemoved true => emit (OperationInvoked operationName);; request
  end.

(** [execute(networkId, request, operationName)].  [acquisitions] lists how
    the successive token acquisitions of this limiter settle; the remaining
    ones are returned.  The recursion of the source is the recursion on this
    list: when it is exhausted the call is still waiting. *)
Fixpoint execute {A} (limiters : gmap Z RateLimiter) (networkId : Z) (request : M A)
    (operationName : string) (acquisitions : list Acquisition) (w : World)
  : Outcome A * World * list Acquisition :=
  match limiters !! networkId with
  | None =>
      (Threw (ErrorObj ("No rate limiter found for network " +:+ pretty networkId)), w,
       acquisitions)
  | Some limiter =>
      match acquisitions with
      | [] => (Pending, w, [])
      | acquisition :: rest =>
          match attempt request operationName acquisition w with
          | (Threw error, w') =>
              if isRateLimitTimeout error then
                execute limiters networkId request operationName rest
                        (record (TimerElapsed DEFAULT_RETRY_DELAY) w')
              else (Threw error, w', rest)
          | (outcome, w') => (outcome, w', rest)
          end
      end
  end.

Definition getRateLimit (networkId : Z) : Z :=
  default DEFAULT_RATE_LIMIT (NETWORK_RATE_LIMITS networkId).

End RateLimiterManager.

(** ** src/database.ts *)

Module BalanceDatabase.

(** The columns of the unique index [idx_balances_unique_lower], which is the
    conflict target of the upsert. *)
Definition indexKey (r : BalanceRow) : string * Z * string * string :=
  (toLowerCase (row_wallet_address r), row_network_id r,
   toLowerCase (row_token_address r), row_date r).

(** [INSERT ... ON CONFLICT(...) DO UPDATE SET symbol, balance, block_number,
    timestamp]: the conflicting row keeps its key columns. *)
Fixpoint upsert (new : BalanceRow) (table : list BalanceRow) : list BalanceRow :=
  match table with
  | [] => [new]
  | r :: rest =>
      if bool_decide (indexKey r = indexKey new) then
        mkBalanceRow (row_wallet_address r) (row_network_id r) (row_token_address r)
                     (row_symbol new) (row_balance new) (row_block_number new)
                     (row_timestamp new) (row_date r) :: rest
      else r :: upsert new rest
  end.

(** [stmt.run(...)] *)
Definition run (row : BalanceRow) : M unit := λ w,
  (Returned tt, mkWorld (upsert row (balances w)) (block_mapping w) (events w)).

(** [this.db.transaction(body)()]: the tables are restored when [body]
    throws. *)
Definition transaction (body : M unit) : M unit := λ w,
  match body w with
  | (Returned _, w') => (Returned tt, record TransactionCommitted w')
  | (Threw e, w') =>
      (Threw e, record TransactionRolledBack (mkWorld (balances w) (block_mapping w) (events w')))
  | (Pending, w') => (Pending, w')
  end.

Definition saveBalances `{Viem} (config : Config) (walletBalance : WalletBalance)
    (blockNumber : Z) (dateStr : string) (timestamp : Z) : M unit :=
  match find (λ n, bool_decide (network_name n = wb_network walletBalance)) (networks config) with
  | None => mret tt
  | Some network =>
      standardizedAddress ← standardizeAddress (wb_address walletBalance);
      let timestampStr := timestamp in
      let body : M unit :=
        tryCatch
          (run (mkBalanceRow standardizedAddress (network_id_of network) NATIVE_TOKEN_ADDRESS
                             (native_symbol (native_token network))
                             (wb_native_balance walletBalance) blockNumber timestampStr dateStr);;
           mapM (λ token,
                   tokenAddress ← standardizeAddress (tb_address token);
                   run (mkBalanceRow standardizedAddress (network_id_of network) tokenAddress
                                     (tb_symbol token) (tb_balance token) blockNumber
                                     timestampStr dateStr))
                (wb_tokens walletBalance);;
           mret tt)
          (λ error, emit (Emitted "DB saveBalances error");; throw error) in
      tryCatch
        (transaction body;; emit (Emitted "balancesChanged"))
        (λ error, emit (Emitted "DB saveBalances TX error");; throw error)
  end.

Definition getBlockNumberForDate (networkId : Z) (date : string) : M (option Z) := λ w,
  (Returned (fst <$> block_mapping w !! (networkId, date)), w).

(** [INSERT OR REPLACE INTO block_mapping] *)
Definition saveBlockMapping (networkId : Z) (date : string) (blockNumber timestamp : Z)
  : M unit := λ w,
  (Returned tt,
   record (Emitted "blockMappingChanged")
     (mkWorld (balances w) (<[(networkId, date) := (blockNumber, timestamp)]> (block_mapping w))
              (events w))).

(** The [WHERE] clause of the single-row reads: [LOWER(wallet_address) =
    LOWER(?) AND network_id = ? AND LOWER(token_address) = LOWER(?) AND
    date = ?]. *)
Definition matchesKey (walletAddress : string) (networkId : Z) (tokenAddress date : string)
    (r : BalanceRow) : bool :=
  bool_decide (toLowerCase (row_wallet_address r) = toLowerCase walletAddress)
  && (row_network_id r =? networkId)
  && bool_decide (toLowerCase (row_token_address r) = toLowerCase tokenAddress)
  && bool_decide (row_date r = date).

(** [stmt.get(...)] of a [SELECT ... LIMIT 1]: the first matching row, which
    is the only one under the unique index. *)
Definition selectFirst (walletAddress : string) (networkId : Z) (tokenAddress date : string)
  : M (option BalanceRow) := λ w,
  (Returned (head (List.filter (matchesKey walletAddress networkId tokenAddress date)
                               (balances w))), w).

Definition hasBalanceForDate `{Viem} (walletAddress : string) (networkId : Z)
    (tokenAddress date : string) : M bool :=
  standardizedWalletAddress ← standardizeAddress walletAddress;
  standardizedTokenAddress ← standardizeAddress tokenAddress;
  result ← selectFirst standardizedWalletAddress networkId standardizedTokenAddress date;
  mret (match result with Some _ => true | None => false end).

Definition getBalanceForDate `{Viem} (walletAddress : string) (networkId : Z)
    (tokenAddress date : string) : M (option string) :=
  standardizedWalletAddress ← standardizeAddress walletAddress;
  standardizedTokenAddress ← standardizeAddress tokenAddress;
  result ← selectFirst standardizedWalletAddress networkId standardizedTokenAddress date;
  mret (row_balance <$> result).

Definition getBalanceTimestampForDate `{Viem} (walletAddress : string) (networkId : Z)
    (tokenAddress date : string) : M (option Z) :=
  standardizedWalletAddress ← standardizeAddress walletAddress;
  standardizedTokenAddress ← standardizeAddress tokenAddress;
  result ← selectFirst standardizedWalletAddress networkId standardizedTokenAddress date;
  mret (row_timestamp <$> result).

(** The [networkNames] map of [processBalanceRows]. *)
Definition networkNames (config : Config) : list (Z * string) :=
  foldl (λ names net, mapSet (network_id_of net) (network_name net) names) [] (networks config).

(** [networkNames.get(row.network_id) || `Chain ID ${row.network_id}`] *)
Definition networkNameOf (config : Config) (networkId : Z) : string :=
  match mapGet networkId (networkNames config) with
  | Some name => if bool_decide (name = "") then "Chain ID " +:+ pretty networkId else name
  | None => "Chain ID " +:+ pretty networkId
  end.

(** The predicate of [history[row.timestamp].find(...)]. *)
Definition isWalletOf (row : BalanceRow) (b : DisplayWalletBalance) : bool :=
  bool_decide (dwb_address b = row_wallet_address row) && (dwb_network_id b =? row_network_id row).

(** [walletBalance.tokens.push(token)]: [walletBalance] is the element of
    the group that [find] returned, or the one just pushed, so the first
    matching element of the group changes in place. *)
Fixpoint pushToken (row : BalanceRow) (token : TokenBalance) (group : list DisplayWalletBalance)
  : list DisplayWalletBalance :=
  match group with
  | [] => []
  | b :: rest =>
      if isWalletOf row b then
        mkDisplayWalletBalance (dwb_address b) (dwb_label b) (dwb_network b) (dwb_network_id b)
                               (dwb_tokens b ++ [token]) (dwb_date b) :: rest
      else b :: pushToken row token rest
  end.

(** The body of the [forEach] of [processBalanceRows]; a row comes with the
    [decimals] that [getBalanceHistory] added to it.  The [timestamp] keys
    of [history] are ISO texts, kept as their time values. *)
Definition historyStep (config : Config) (history : list (Z * list DisplayWalletBalance))
    (entry : BalanceRow * Z) : list (Z * list DisplayWalletBalance) :=
  let '(row, decimals) := entry in
  let history :=
    if negb (mapHas (row_timestamp row) history) then mapSet (row_timestamp row) [] history
    else history in
  let group := default [] (mapGet (row_timestamp row) history) in
  let group :=
    match List.find (isWalletOf row) group with
    | Some _ => group
    | None =>
        let networkName := networkNameOf config (row_network_id row) in
        (group ++ [mkDisplayWalletBalance (row_wallet_address row) None networkName
                                          (row_network_id row) [] (row_date row)])%list
    end in
  mapSet (row_timestamp row)
         (pushToken row (mkTokenBalance (row_token_address row) (row_symbol row)
                                        (row_balance row) decimals) group)
         history.

(** [now] is the value of [new Date()] at the return. *)
Definition processBalanceRows (config : Config) (now : Z) (rows : list (BalanceRow * Z))
  : Z * list DisplayWalletBalance :=
  (now, concat (snd <$> foldl (historyStep config) [] rows)).

End BalanceDatabase.

(** ** src/wallet-tracker.ts *)

Module WalletTracker.

Record Tracker : Type := mkTracker {
  config : Config;
  clients : gmap Z Client;
  rateLimiter : gmap Z RateLimiterManager.RateLimiter;
}.

(** [this.clients[networkId].method(...)]: a [TypeError] when the network has
    no client. *)
Definition withClient {A} (tracker : Tracker) (networkId : Z) (method : string)
    (call : Client → M A) : M A :=
  match clients tracker !! networkId with
  | Some client => call client
  | None => throw (ErrorObj ("Cannot read properties of undefined (reading '" +:+ method +:+ "')"))
  end.

(** The truthiness test [if (existingBlock)] on a [bigint | null]. *)
Definition truthyBlock (existingBlock : option Z) : bool :=
  match existingBlock with
  | Some b => negb (b =? 0)
  | None => false
  end.

Definition getBlockNumberForDate (tracker : Tracker) (date : Z) (networkId : Z) : M Z :=
  let dateStr := toISODateString date in
  existingBlock ← BalanceDatabase.getBlockNumberForDate networkId dateStr;
  if truthyBlock existingBlock then mret (default 0 existingBlock)
  else
    tryCatch
      (let endOfDay := setUTCHours date 23 59 59 999 in
       let targetTimestamp := endOfDay / 1000 in
       r ← withClient tracker networkId "getBlockNumber"
             (λ client, findBlockNumberForTimestamp client targetTimestamp networkId);
       BalanceDatabase.saveBlockMapping networkId dateStr (blockNumber r) (blockTimestamp r);;
       mret (blockNumber r))
      (λ error, withClient tracker networkId "getBlockNumber" getBlockNumber).

(** [() => getWalletsBalances(this.clients[network.id], walletBatch, network,
    blockNumber)]: without a client the call fails at [client.multicall],
    after the addresses were standardized. *)
Definition fetchBatch `{Viem} (tracker : Tracker) (walletBatch : list Wallet)
    (network : Network) (blockNumber : Z) : M (list WalletBalance) :=
  match clients tracker !! network_id_of network with
  | Some client => getWalletsBalances client walletBatch network blockNumber
  | None =>
      mapM standardizeWallet walletBatch;;
      throw (ErrorObj "Cannot read properties of undefined (reading 'multicall')")
  end.

(** The loop of [fetchAndSaveWalletBatches], from index [i]; [fuel] bounds
    the iterations and [length wallets] is always enough. *)
Fixpoint batchLoop `{Viem} (tracker : Tracker) (wallets : list Wallet) (network : Network)
    (blockNumber : Z) (dateStr : string) (blockTimestampDate : Z) (fuel i : nat)
    (acquisitions : list RateLimiterManager.Acquisition) (w : World)
  : Outcome unit * World * list RateLimiterManager.Acquisition :=
  if (i <? length wallets)%nat then
    match fuel with
    | O => (Pending, w, acquisitions)
    | S fuel' =>
        let walletBatch := take WALLET_BALANCE_BATCH_SIZE (drop i wallets) in
        match RateLimiterManager.execute (rateLimiter tracker) (network_id_of network)
                (fetchBatch tracker walletBatch network blockNumber)
                "getWalletsBalances" acquisitions w with
        | (Returned balances, w', acquisitions') =>
            match mapM (λ balance,
                          BalanceDatabase.saveBalances (config tracker) balance blockNumber
                                                       dateStr blockTimestampDate)
                       balances w' with
            | (Returned _, w'') =>
                batchLoop tracker wallets network blockNumber dateStr blockTimestampDate
                          fuel' (i + WALLET_BALANCE_BATCH_SIZE)%nat acquisitions' w''
            | (Threw e, w'') => (Threw e, w'', acquisitions')
            | (Pending, w'') => (Pending, w'', acquisitions')
            end
        | (Threw e, w', acquisitions') => (Threw e, w', acquisitions')
        | (Pending, w', acquisitions') => (Pending, w', acquisitions')
        end
    end
  else (Returned tt, w, acquisitions).

Definition fetchAndSaveWalletBatches `{Viem} (tracker : Tracker) (wallets : list Wallet)
    (network : Network) (blockNumber : Z) (dateStr : string) (blockTimestampDate : Z)
    (acquisitions : list RateLimiterManager.Acquisition) (w : World)
  : Outcome unit * World * list RateLimiterManager.Acquisition :=
  batchLoop tracker wallets network blockNumber dateStr blockTimestampDate
            (length wallets) 0%nat acquisitions w.

End WalletTracker.

(** ** src/ui/terminal/index.tsx *)

Definition pad (str : option string) (len : Z) : string :=
  if Z.of_nat (String.length (default "" str)) >? len
  then slice (default "" str) 0 (Some (len - 3)) +:+ "..."
  else padEnd (default "" str) len.

Definition shortenAddress (addr : string) : string :=
  if Z.of_nat (String.length addr) >? 10
  then slice addr 0 (Some 6) +:+ "..." +:+ slice addr (-4) None
  else addr.

(** * Vocabulary of the statements *)

(** ** Block resolution *)

(** A client that answers every block request. *)
Definition answersEveryBlock (client : Client) : Prop :=
  ∀ b, ∃ t, client_getBlock client b = Returned t.

(** The invariant of the linear search: the last block at or before the
    target is a block of the chain with a timestamp at or before the
    target. *)
Definition lastBlockInv (client : Client) (T : Z) (s : Search) : Prop :=
  client_getBlock client (lastBlockBeforeOrAtTarget s)
    = Returned (lastBlockBeforeOrAtTargetTimestamp s)
  ∧ lastBlockBeforeOrAtTargetTimestamp s ≤ T.

(** The blocks the corrective search can visit from the estimated block:
    down to block 0 when the estimate is after the target, the estimate and
    the next 100 blocks otherwise. *)
Definition searchWindow (client : Client) (T estimatedBlock b : Z) : Prop :=
  match client_getBlock client estimatedBlock with
  | Returned estimatedTimestamp =>
      if estimatedTimestamp >? T then 0 ≤ b ≤ estimatedBlock
      else estimatedBlock ≤ b ≤ estimatedBlock + 100
  | _ => False
  end.

(** ** Measures read off the trace *)

(** The number of RPC requests. *)
Definition isChainCall (e : Event) : bool :=
  match e with
  | RpcBlockNumber _ | RpcGetBlock _ _ | RpcMulticall _ _ _ => true
  | _ => false
  end.

Definition chainCalls (w : World) : nat := length (List.filter isChainCall (events w)).

(** The number of times an operation was invoked. *)
Definition isInvocation (e : Event) : bool :=
  match e with OperationInvoked _ => true | _ => false end.

Definition invocations (w : World) : nat := length (List.filter isInvocation (events w)).

(** The persistence transactions, and the number of native-balance reads of
    each multicall, oldest first. *)
Definition isTransaction (e : Event) : bool :=
  match e with TransactionCommitted | TransactionRolledBack => true | _ => false end.

Definition transactionsOf (trace : list Event) : nat := length (List.filter isTransaction trace).

Definition transactions (w : World) : nat := transactionsOf (events w).

Definition nativeReads (contracts : list Call) : nat :=
  length (List.filter (λ c, bool_decide (call_functionName c = "getEthBalance")) contracts).

Definition batchOf (e : Event) : option nat :=
  match e with RpcMulticall _ contracts _ => Some (nativeReads contracts) | _ => None end.

Definition fetchBatches (w : World) : list nat := reverse (omap batchOf (events w)).

(** ** Rate limiting *)

(** The world after [n] acquisition timeouts, each followed by the backoff. *)
Fixpoint afterTimeouts (n : nat) (w : World) : World :=
  match n with
  | O => w
  | S n' =>
      afterTimeouts n' (record (TimerElapsed DEFAULT_RETRY_DELAY)
                          (record (TimerElapsed DEFAULT_RETRY_TIMEOUT) w))
  end.

(** ** Multicall batches *)

(** A wallet whose address passed [standardizeAddress]. *)
Definition standardized (wallet : Wallet) : Wallet :=
  mkWallet (toLowerCase (wallet_address wallet)) (wallet_label wallet).

Definition validWallet `{Viem} (wallet : Wallet) : Prop :=
  isAddress (wallet_address wallet) = true.

(** The result entry at an index, absent entries and absent results alike. *)
Definition resultAt (results : list (option Z)) (index : nat) : option Z :=
  default None (results !! index).

(** The balances decoded for the wallet at [walletIndex] of a batch of
    [n] wallets. *)
Definition decodedBalance (network : Network) (n : nat) (results : list (option Z))
    (walletIndex : nat) (wallet : Wallet) : WalletBalance :=
  mkWalletBalance (wallet_address wallet) (wallet_label wallet) (network_name network)
    (network_id_of network) (balanceText (resultAt results walletIndex))
    (imap (λ tokenIndex token,
             mkTokenBalance (token_address token) (token_symbol token)
               (balanceText (resultAt results (n + tokenIndex * n + walletIndex)))
               (token_decimals token))
          (tokens network))
    "".

(** ** The balances table *)

(** The keys of a table, and the rows stored under a key. *)
Definition keysOf (table : list BalanceRow) : list (string * Z * string * string) :=
  BalanceDatabase.indexKey <$> table.

Definition uniqueKeys (table : list BalanceRow) : Prop := NoDup (keysOf table).

Definition rowsFor (key : string * Z * string * string) (table : list BalanceRow)
  : list BalanceRow :=
  List.filter (λ r, bool_decide (BalanceDatabase.indexKey r = key)) table.

(** The columns an upsert overwrites. *)
Definition sameValues (r new : BalanceRow) : Prop :=
  row_symbol r = row_symbol new ∧ row_balance r = row_balance new
  ∧ row_block_number r = row_block_number new ∧ row_timestamp r = row_timestamp new.

(** A table grows from [w] to [w']: uniqueness of keys is kept and no key
    disappears. *)
Definition keysExtend (w w' : World) : Prop :=
  (uniqueKeys (balances w) → uniqueKeys (balances w'))
  ∧ keysOf (balances w) ⊆ keysOf (balances w').

Definition preservesKeys {A} (m : M A) : Prop :=
  ∀ w o w', m w = (o, w') → keysExtend w w'.

(** The network [saveBalances] finds for a name. *)
Definition findNetwork (config : Config) (name : string) : option Network :=
  find (λ n, bool_decide (network_name n = name)) (networks config).

Definition validBalance `{Viem} (walletBalance : WalletBalance) : Prop :=
  isAddress (wb_address walletBalance) = true
  ∧ Forall (λ token, isAddress (tb_address token) = true) (wb_tokens walletBalance).

(** The statements [saveBalances] runs for a wallet balance whose addresses
    are valid, in order: the native row, then one row per token. *)
Definition writtenRows (network : Network) (walletBalance : WalletBalance)
    (blockNumber : Z) (dateStr : string) (timestamp : Z) : list BalanceRow :=
  let address := toLowerCase (wb_address walletBalance) in
  mkBalanceRow address (network_id_of network) NATIVE_TOKEN_ADDRESS
               (native_symbol (native_token network)) (wb_native_balance walletBalance)
               blockNumber timestamp dateStr
  :: ((λ token,
         mkBalanceRow address (network_id_of network) (toLowerCase (tb_address token))
                      (tb_symbol token) (tb_balance token) blockNumber timestamp dateStr)
        <$> wb_tokens walletBalance).

(** The last row of a statement list that carries a key. *)
Definition lastWithKey (key : string * Z * string * string) (rows : list BalanceRow)
  : option BalanceRow :=
  last (rowsFor key rows).

(** The table after a list of upserts, first statement first. *)
Definition applyRows (table rows : list BalanceRow) : list BalanceRow :=
  foldl (λ t r, BalanceDatabase.upsert r t) table rows.

(** ** Computations that only read the tables *)

Definition sameTables (w w' : World) : Prop :=
  balances w' = balances w ∧ block_mapping w' = block_mapping w.

Definition readOnly {A} (m : M A) : Prop :=
  ∀ w o w', m w = (o, w') → sameTables w w'.

(** ** Canonical rows *)

(** A row whose addresses are stored in lower case. *)
Definition canonicalRow (r : BalanceRow) : Prop :=
  toLowerCase (row_wallet_address r) = row_wallet_address r
  ∧ toLowerCase (row_token_address r) = row_token_address r.

(** ** Groups of missing data *)

(** The items of a list that belong to a group key, in their order. *)
Definition itemsOf (key : string) (missingData : list MissingData) : list MissingData :=
  List.filter (λ item, bool_decide (groupKey item = key)) missingData.

(** ** The history view *)

Definition tokenOfRow (entry : BalanceRow * Z) : TokenBalance :=
  mkTokenBalance (row_token_address entry.1) (row_symbol entry.1) (row_balance entry.1) entry.2.

Definition tokensOf (balances : list DisplayWalletBalance) : list TokenBalance :=
  concat (dwb_tokens <$> balances).

(** A wallet of the history view that holds at least one token, only tokens
    of rows of its own wallet and network, no label, and the configured name
    of its network. *)
Definition filedUnder (config : Config) (rows : list (BalanceRow * Z))
    (b : DisplayWalletBalance) : Prop :=
  dwb_tokens b ≠ []
  ∧ dwb_label b = None
  ∧ dwb_network b = BalanceDatabase.networkNameOf config (dwb_network_id b)
  ∧ Forall (λ token, ∃ entry, entry ∈ rows ∧ token = tokenOfRow entry
                              ∧ row_wallet_address entry.1 = dwb_address b
                              ∧ row_network_id entry.1 = dwb_network_id b)
           (dwb_tokens b).

(** * The address check of viem

    [isAddress] as [standardizeAddress] calls it, with the default
    [strict: true]: the pattern [0x] followed by 40 hexadecimal digits, and
    for an address that is not in lower case the EIP-55 checksum, which
    takes the Keccak-256 hash of the lower-case digits. *)

Definition isHexDigit (c : ascii) : bool :=
  let n := nat_of_ascii c in
  (((48 <=? n) && (n <=? 57)) || ((65 <=? n) && (n <=? 70)) || ((97 <=? n) && (n <=? 102)))%nat.

(** [/^0x[a-fA-F0-9]{40}$/] *)
Definition matchesAddressPattern (address : string) : bool :=
  match address with
  | String "0" (String "x" digits) =>
      (String.length digits =? 40)%nat && forallb isHexDigit (list_ascii_of_string digits)
  | _ => false
  end.

(** ** Keccak-256 *)

Definition rotl64 (v n : Z) : Z :=
  Z.lor (Z.land (Z.shiftl v n) 0xFFFFFFFFFFFFFFFF) (Z.shiftr v (64 - n)).

(** The rotation offsets of the lanes, at index [x + 5 * y]. *)
Definition rotationOffsets : list Z :=
  [ 0;  1; 62; 28; 27;
   36; 44;  6; 55; 20;
    3; 10; 43; 25; 39;
   41; 45; 15; 21;  8;
   18;  2; 61; 56; 14].

Definition roundConstants : list Z :=
  [0x0000000000000001; 0x0000000000008082; 0x800000000000808a; 0x8000000080008000;
   0x000000000000808b; 0x0000000080000001; 0x8000000080008081; 0x8000000000008009;
   0x000000000000008a; 0x0000000000000088; 0x0000000080008009; 0x000000008000000a;
   0x000000008000808b; 0x800000000000008b; 0x8000000000008089; 0x8000000000008003;
   0x8000000000008002; 0x8000000000000080; 0x000000000000800a; 0x800000008000000a;
   0x8000000080008081; 0x8000000000008080; 0x0000000080000001; 0x8000000080008008].

(** The lane at column [x] and row [y] of a state of 25 lanes. *)
Definition lane (state : list Z) (x y : nat) : Z := nth (x mod 5 + 5 * y) state 0.

Definition keccakRound (state : list Z) (roundConstant : Z) : list Z :=
  let C := (λ x, Z.lxor (lane state x 0) (Z.lxor (lane state x 1) (Z.lxor (lane state x 2)
                  (Z.lxor (lane state x 3) (lane state x 4))))) <$> seq 0 5 in
  let D := (λ x, Z.lxor (nth ((x + 4) mod 5) C 0) (rotl64 (nth ((x + 1) mod 5) C 0) 1))
             <$> seq 0 5 in
  let theta := imap (λ i a, Z.lxor a (nth (i mod 5) D 0)) state in
  let B := (λ i, let x := (i mod 5)%nat in let y := (i / 5)%nat in
                 let source := ((x + 3 * y) mod 5 + 5 * x)%nat in
                 rotl64 (nth source theta 0) (nth source rotationOffsets 0)) <$> seq 0 25 in
  let chi := (λ i, let x := (i mod 5)%nat in let y := (i / 5)%nat in
                   Z.lxor (lane B x y) (Z.ldiff (lane B (x + 2) y) (lane B (x + 1) y)))
               <$> seq 0 25 in
  match chi with
  | [] => []
  | first :: rest => Z.lxor first roundConstant :: rest
  end.

Definition keccakF (state : list Z) : list Z := foldl keccakRound state roundConstants.

Definition littleEndian (bytes : list Z) : Z := foldr (λ b acc, b + 256 * acc) 0 bytes.

Fixpoint lanesOf (count : nat) (bytes : list Z) : list Z :=
  match count with
  | O => []
  | S count => littleEndian (take 8 bytes) :: lanesOf count (drop 8 bytes)
  end.

Definition bytesOfLane (v : Z) : list Z :=
  (λ i : nat, Z.land (Z.shiftr v (8 * Z.of_nat i)) 255) <$> seq 0 8.

(** Padding to a multiple of the rate of 136 bytes. *)
Definition keccakPad (message : list Z) : list Z :=
  let missing := (136 - length message mod 136)%nat in
  if (missing =? 1)%nat then (message ++ [0x81])%list
  else (message ++ [0x01] ++ replicate (missing - 2) 0 ++ [0x80])%list.

Fixpoint absorb (blocks : nat) (state : list Z) (padded : list Z) : list Z :=
  match blocks with
  | O => state
  | S blocks =>
      let block := (lanesOf 17 (take 136 padded) ++ replicate 8 0)%list in
      absorb blocks (keccakF (zip_with Z.lxor state block)) (drop 136 padded)
  end.

(** The 32 bytes of the Keccak-256 hash of a list of bytes. *)
Definition keccak256 (message : list Z) : list Z :=
  let padded := keccakPad message in
  let state := absorb (length padded / 136) (replicate 25 0) padded in
  take 4 state ≫= bytesOfLane.

(** ** [isAddress] and [checksumAddress] *)

Definition upperAscii (c : ascii) : ascii :=
  let n := nat_of_ascii c in
  if ((97 <=? n) && (n <=? 122))%nat then ascii_of_nat (n - 32) else c.

Definition stringToBytes (s : string) : list Z :=
  (λ c, Z.of_nat (nat_of_ascii c)) <$> list_ascii_of_string s.

(** The hexadecimal digit at index [k] of a hash. *)
Definition nibble (hash : list Z) (k : nat) : Z :=
  let byte := nth (k / 2) hash 0 in
  if (k mod 2 =? 0)%nat then Z.shiftr byte 4 else Z.land byte 0x0f.

(** [checksumAddress(address)] without a chain id: the EIP-55 spelling. *)
Definition checksumAddress (address : string) : string :=
  let hexAddress := toLowerCase (substring 2 (String.length address - 2) address) in
  let hash := keccak256 (stringToBytes hexAddress) in
  "0x" +:+ string_of_list_ascii
             (imap (λ k c, if (k <? 40)%nat && (8 <=? nibble hash k) then upperAscii c else c)
                   (list_ascii_of_string hexAddress)).

(** [isAddress(address)] with its default [strict: true]. *)
Definition viemIsAddress (address : string) : bool :=
  if negb (matchesAddressPattern address) then false
  else if bool_decide (toLowerCase address = address) then true
  else bool_decide (checksumAddress address = address).

Definition strictViem : Viem := {| isAddress := viemIsAddress |}.

(** * Fixtures *)

Definition emptyWorld : World := mkWorld [] ∅ [].

(** A regular chain: blocks 12 seconds apart from a genesis at 1000, latest
    block 1000 at 13000. *)
Definition fixtureClient : Client :=
  mkClient 1 (Returned 1000) (λ b, Returned (1000 + 12 * b)) (λ _ _, Returned []).

(** A chain that is faster than its nominal block time: one block per
    second, latest block 1000 at 2000. *)
Definition briskClient : Client :=
  mkClient 1 (Returned 1000) (λ b, Returned (1000 + b)) (λ _ _, Returned []).

(** A chain that is slower than its nominal block time: one block every 100
    seconds, latest block 1000 at 200000. *)
Definition sluggishClient : Client :=
  mkClient 1 (Returned 1000) (λ b, Returned (100000 + 100 * b)) (λ _ _, Returned []).

(** A young chain: genesis ten seconds before the end of 2024-01-01
    (1704153599), blocks 12 seconds apart, latest block 3. *)
Definition youngClient : Client :=
  mkClient 1 (Returned 3) (λ b, Returned (1704153589 + 12 * b)) (λ _ _, Returned []).

(** [() => { throw new Error('Rate limit timeout') }] *)
Definition failingRequest : M Z := throw (ErrorObj "Rate limit timeout").

Definition walletA : Wallet := mkWallet "0x00000000000000000000000000000000000000AA" (Some "main").
Definition walletB : Wallet := mkWallet "0x00000000000000000000000000000000000000bb" None.

Definition usdc : Token := mkToken "0xA0b86991c6218b36c1d19D4a2e9Eb0cE3606eB48" "USDC" 6.

Definition ethereum : Network :=
  mkNetwork 1 "Ethereum" "https://rpc.example" (mkNativeToken "ETH" 18) [usdc].

Definition demoConfig : Config := mkConfig 300 7 "example-wallets.json" None [ethereum].

(** An endpoint whose multicall answers four calls; the second and the
    fourth reverted. *)
Definition batchClient : Client :=
  mkClient 1 (Returned 1000) (λ b, Returned (1000 + 12 * b))
           (λ _ _, Returned [Some 5; None; Some 7; None]).

(** An endpoint that answers every call of a multicall with the value 42. *)
Definition answeringClient : Client :=
  mkClient 1 (Returned 1000) (λ b, Returned (1000 + 12 * b))
           (λ contracts _, Returned ((λ _, Some 42) <$> contracts)).

(** Two writes of the same wallet, network, tokens and date with different
    values; the second spells the addresses in another letter case. *)
Definition firstWrite : WalletBalance :=
  mkWalletBalance "0x00000000000000000000000000000000000000aa" (Some "main") "Ethereum" 1
    "5" [mkTokenBalance "0xA0b86991c6218b36c1d19D4a2e9Eb0cE3606eB48" "USDC" "7" 6] "".

Definition secondWrite : WalletBalance :=
  mkWalletBalance "0x00000000000000000000000000000000000000AA" (Some "main") "Ethereum" 1
    "9" [mkTokenBalance "0xa0b86991c6218b36c1d19d4a2e9eb0ce3606eb48" "USDC" "11" 6] "".

Definition twelveWallets : list Wallet :=
  (λ address, mkWallet address None) <$>
    ["0x0000000000000000000000000000000000000001";
     "0x0000000000000000000000000000000000000002";
     "0x0000000000000000000000000000000000000003";
     "0x0000000000000000000000000000000000000004";
     "0x0000000000000000000000000000000000000005";
     "0x0000000000000000000000000000000000000006";
     "0x0000000000000000000000000000000000000007";
     "0x0000000000000000000000000000000000000008";
     "0x0000000000000000000000000000000000000009";
     "0x000000000000000000000000000000000000000A";
     "0x000000000000000000000000000000000000000b";
     "0x000000000000000000000000000000000000000C"].

(** Seven wallets: more than one batch, the last one not full. *)
Definition sevenWallets : list Wallet := walletA :: walletB :: take 5 twelveWallets.

Definition demoTracker : WalletTracker.Tracker :=
  WalletTracker.mkTracker demoConfig {[1 := answeringClient]} (RateLimiterManager.create [1]).

(** A tracker on the regular chain, whose latest block is long before the
    end of 2024-01-01. *)
Definition fixtureTracker : WalletTracker.Tracker :=
  WalletTracker.mkTracker demoConfig {[1 := fixtureClient]} (RateLimiterManager.create [1]).

(** The same endpoint once the chain has grown to block 2000. *)
Definition laterTracker : WalletTracker.Tracker :=
  WalletTracker.mkTracker demoConfig
    {[1 := mkClient 1 (Returned 2000) (λ b, Returned (1000 + 12 * b)) (λ _ _, Returned [])]}
    (RateLimiterManager.create [1]).

Definition youngTracker : WalletTracker.Tracker :=
  WalletTracker.mkTracker demoConfig {[1 := youngClient]} (RateLimiterManager.create [1]).

(** A chain of one-second blocks whose endpoint only knows blocks 0 to
    1000; the latest block 1000 has timestamp 100000. *)
Definition shortClient : Client :=
  mkClient 1 (Returned 1000)
           (λ b, if (0 <=? b) && (b <=? 1000) then Returned (99000 + b)
                 else Threw (ErrorObj "block not found"))
           (λ _ _, Returned []).

Definition shortTracker : WalletTracker.Tracker :=
  WalletTracker.mkTracker demoConfig {[1 := shortClient]} (RateLimiterManager.create [1]).

(** A write whose second token has a malformed address. *)
Definition brokenWrite : WalletBalance :=
  mkWalletBalance "0x00000000000000000000000000000000000000aa" (Some "main") "Ethereum" 1
    "9" [mkTokenBalance "0xa0b86991c6218b36c1d19d4a2e9eb0ce3606eb48" "USDC" "11" 6;
         mkTokenBalance "0xnot-an-address" "BAD" "1" 18] "".

(** * Properties *)

(** ** Reasoning about computations *)

Lemma bind_unfold {A B} (m : M A) (f : A → M B) (w : World) :
  (m ≫= f) w =
  match m w with
  | (Returned a, w') => f a w'
  | (Threw e, w') => (Threw e, w')
  | (Pending, w') => (Pending, w')
  end.
Proof. reflexivity. Qed.

Lemma bind_Returned {A B} (m : M A) (f : A → M B) (w w' : World) (b : B) :
  (m ≫= f) w = (Returned b, w') →
  ∃ a w1, m w = (Returned a, w1) ∧ f a w1 = (Returned b, w').
Proof.
  rewrite bind_unfold. destruct (m w) as [[a | e |] w1]; intros E; try discriminate.
  exists a, w1. split; [reflexivity | exact E].
Qed.

Lemma bind_step {A B} (m : M A) (f : A → M B) (w w1 : World) (a : A) :
  m w = (Returned a, w1) → (m ≫= f) w = f a w1.
Proof. intros E. rewrite bind_unfold, E. reflexivity. Qed.

Lemma getBlock_unfold (client : Client) (b : Z) (w : World) :
  getBlock client b w = (client_getBlock client b, record (RpcGetBlock (client_chain client) b) w).
Proof. reflexivity. Qed.

Lemma getBlockNumber_unfold (client : Client) (w : World) :
  getBlockNumber client w = (client_getBlockNumber client, record (RpcBlockNumber (client_chain client)) w).
Proof. reflexivity. Qed.

Lemma getBlock_Returned (client : Client) (b t : Z) (w w' : World) :
  getBlock client b w = (Returned t, w') →
  client_getBlock client b = Returned t ∧ w' = record (RpcGetBlock (client_chain client) b) w.
Proof. rewrite getBlock_unfold. intros E. injection E as E1 E2. auto. Qed.

(** ** Block resolution *)

Section BlockResolution.
Variable client : Client.
Variable T : Z.

Lemma walkBackwards_sound (fuel : nat) :
  ∀ (bn ts : Z) (w w' : World) (r : ResolvedBlock),
    client_getBlock client bn = Returned ts →
    walkBackwards client T fuel bn ts w = (Returned r, w') →
    client_getBlock client (blockNumber r) = Returned (blockTimestamp r)
    ∧ (T < blockTimestamp r →
       ∀ b t, 0 ≤ b ≤ bn → client_getBlock client b = Returned t → T < t).
Proof.
  induction fuel as [| fuel IH]; intros bn ts w w' r Hts; cbn [walkBackwards];
    destruct ((ts >? T) && (bn >? 0)) eqn:Hc.
  - discriminate.
  - intros E. injection E as <- _. cbn. split; [exact Hts |].
    intros Hgt b t Hb Hbt. apply andb_false_iff in Hc as [Hc | Hc]; [lia |].
    assert (b = bn) as -> by lia. congruence.
  - intros E. apply bind_Returned in E as (ts' & w1 & E1 & E2).
    apply getBlock_Returned in E1 as [E1 _].
    apply andb_true_iff in Hc as [Hc1 Hc2].
    destruct (IH _ _ _ _ _ E1 E2) as [IH1 IH2]. split; [exact IH1 |].
    intros Hgt b t Hb Hbt. destruct (decide (b = bn)) as [-> | Hne].
    + rewrite Hts in Hbt. injection Hbt as <-. lia.
    + apply (IH2 Hgt b t); [lia | exact Hbt].
  - intros E. injection E as <- _. cbn. split; [exact Hts |].
    intros Hgt b t Hb Hbt. apply andb_false_iff in Hc as [Hc | Hc]; [lia |].
    assert (b = bn) as -> by lia. congruence.
Qed.

Lemma walkBackwards_returns (fuel : nat) :
  answersEveryBlock client →
  ∀ (bn ts : Z) (w : World),
    (Z.to_nat bn ≤ fuel)%nat →
    ∃ r w', walkBackwards client T fuel bn ts w = (Returned r, w').
Proof.
  intros Hall. induction fuel as [| fuel IH]; intros bn ts w Hfuel; cbn [walkBackwards];
    destruct ((ts >? T) && (bn >? 0)) eqn:Hc; try (eexists _, _; reflexivity).
  - apply andb_true_iff in Hc as [_ Hc]. lia.
  - destruct (Hall (bn - 1)) as [t Ht].
    rewrite (bind_step _ _ _ _ _ (eq_trans (getBlock_unfold _ _ _) (f_equal (λ o, (o, _)) Ht))).
    apply IH. apply andb_true_iff in Hc as [_ Hc]. lia.
Qed.

Lemma linearSearch_sound (direction : Z) (steps : nat) :
  ∀ (s s' : Search) (w w' : World),
    lastBlockInv client T s →
    linearSearch client T direction steps s w = (Returned s', w') →
    lastBlockInv client T s'.
Proof.
  induction steps as [| steps IH]; intros s s' w w' Hinv; cbn [linearSearch].
  - intros E. injection E as <- _. exact Hinv.
  - intros E. apply bind_Returned in E as (ts & w1 & E1 & E2).
    apply getBlock_Returned in E1 as [E1 _].
    assert (Hnew : ∀ cb cd,
      lastBlockInv client T (mkSearch (currentBlockNumber s + direction) cb cd
        (if ts <=? T then currentBlockNumber s + direction else lastBlockBeforeOrAtTarget s)
        (if ts <=? T then ts else lastBlockBeforeOrAtTargetTimestamp s))).
    { intros cb cd. unfold lastBlockInv. cbn. destruct (ts <=? T) eqn:Hle.
      - split; [exact E1 | lia].
      - exact Hinv. }
    destruct (ts <=? T) eqn:Hle; cbn in E2;
      destruct (Z.abs (ts - T) <? Z.abs (closestDiff s));
      try destruct (Z.abs (ts - T) <=? oneHour);
      try (injection E2 as <- _; apply Hnew);
      try (eapply IH; [apply Hnew | exact E2]).
Qed.

Lemma linearSearch_returns (direction : Z) (steps : nat) :
  answersEveryBlock client →
  ∀ (s : Search) (w : World), ∃ s' w', linearSearch client T direction steps s w = (Returned s', w').
Proof.
  intros Hall. induction steps as [| steps IH]; intros s w; cbn [linearSearch].
  - eexists _, _; reflexivity.
  - destruct (Hall (currentBlockNumber s + direction)) as [t Ht].
    rewrite (bind_step _ _ _ _ _ (eq_trans (getBlock_unfold _ _ _) (f_equal (λ o, (o, _)) Ht))).
    destruct (t <=? T); cbn;
      destruct (Z.abs (t - T) <? Z.abs (closestDiff s));
      try destruct (Z.abs (t - T) <=? oneHour);
      try (eexists _, _; reflexivity); apply IH.
Qed.

End BlockResolution.

(** C1. Monotonic block resolution.  With a target [T] at or before the
    timestamp of the latest block, whatever [findBlockNumberForTimestamp]
    returns is a block of the chain with its timestamp, and that timestamp is
    at most [T] as soon as some block of the search window has a timestamp at
    most [T]; on a client that answers every block request the function does
    return. *)
Theorem findBlockNumberForTimestamp_monotonic
    (client : Client) (T networkId currentBlock currentTimestamp : Z) (w : World) :
  client_getBlockNumber client = Returned currentBlock →
  client_getBlock client currentBlock = Returned currentTimestamp →
  T ≤ currentTimestamp →
  (∀ r w', findBlockNumberForTimestamp client T networkId w = (Returned r, w') →
     client_getBlock client (blockNumber r) = Returned (blockTimestamp r)
     ∧ ((∃ b t, searchWindow client T (estimateBlock currentBlock currentTimestamp T networkId) b
                ∧ client_getBlock client b = Returned t ∧ t ≤ T) →
        blockTimestamp r ≤ T))
  ∧ (answersEveryBlock client →
     ∃ r w', findBlockNumberForTimestamp client T networkId w = (Returned r, w')).
Proof.
  intros Hcur HcurTs HT.
  assert (Hgt : (T >? currentTimestamp) = false) by lia.
  unfold findBlockNumberForTimestamp.
  rewrite (bind_step _ _ _ _ _ (eq_trans (getBlockNumber_unfold _ _) (f_equal (λ o, (o, _)) Hcur))).
  rewrite (bind_step _ _ _ _ _ (eq_trans (getBlock_unfold _ _ _) (f_equal (λ o, (o, _)) HcurTs))).
  rewrite Hgt.
  set (est := estimateBlock currentBlock currentTimestamp T networkId).
  set (w0 := record _ (record _ w)).
  split.
  - intros r w' E. apply bind_Returned in E as (estTs & w1 & E1 & E2).
    apply getBlock_Returned in E1 as [E1 _].
    unfold searchWindow. rewrite E1.
    destruct (estTs >? T) eqn:Hest.
    + destruct (walkBackwards_sound client T _ _ _ _ _ _ E1 E2) as [Hr Hwin].
      split; [exact Hr |]. intros (b & t & Hb & Hbt & Hle).
      destruct (Z_le_gt_dec (blockTimestamp r) T) as [? | Hlt]; [assumption |].
      specialize (Hwin ltac:(lia) b t Hb Hbt). lia.
    + destruct (Z.abs (estTs - T) <=? oneHour).
      * injection E2 as <- _. cbn. split; [exact E1 |]. intros _. lia.
      * apply bind_Returned in E2 as (s & w2 & E2 & E3).
        apply linearSearch_sound in E2 as [Hs1 Hs2]; [| split; cbn; [exact E1 | lia]].
        apply bind_Returned in E3 as (ft & w3 & E3 & E4).
        apply getBlock_Returned in E3 as [E3 _].
        destruct (ft >? T) eqn:Hft; injection E4 as <- _; cbn.
        -- split; [exact Hs1 |]. intros _. exact Hs2.
        -- split; [exact E3 |]. intros _. lia.
  - intros Hall. destruct (Hall est) as [estTs HestTs].
    rewrite (bind_step _ _ _ _ _ (eq_trans (getBlock_unfold _ _ _) (f_equal (λ o, (o, _)) HestTs))).
    destruct (estTs >? T).
    + apply walkBackwards_returns; [exact Hall | lia].
    + destruct (Z.abs (estTs - T) <=? oneHour); [eexists _, _; reflexivity |].
      destruct (linearSearch_returns client T 1 100 Hall
                  (mkSearch est est (estTs - T) est estTs)
                  (record (RpcGetBlock (client_chain client) est) w0)) as (s & w2 & Hs).
      rewrite (bind_step _ _ _ _ _ Hs).
      destruct (Hall (closestBlock s)) as [ft Hft].
      rewrite (bind_step _ _ _ _ _ (eq_trans (getBlock_unfold _ _ _) (f_equal (λ o, (o, _)) Hft))).
      destruct (ft >? T); eexists _, _; reflexivity.
Qed.

Lemma findBlockNumberForTimestamp_monotonic_witness :
  (∀ r w', findBlockNumberForTimestamp fixtureClient 9400 1 emptyWorld = (Returned r, w') →
     client_getBlock fixtureClient (blockNumber r) = Returned (blockTimestamp r)
     ∧ ((∃ b t, searchWindow fixtureClient 9400 (estimateBlock 1000 13000 9400 1) b
                ∧ client_getBlock fixtureClient b = Returned t ∧ t ≤ 9400) →
        blockTimestamp r ≤ 9400))
  ∧ (answersEveryBlock fixtureClient →
     ∃ r w', findBlockNumberForTimestamp fixtureClient 9400 1 emptyWorld = (Returned r, w')).
Proof.
  apply (findBlockNumberForTimestamp_monotonic fixtureClient 9400 1 1000 13000 emptyWorld);
    [reflexivity | reflexivity | lia].
Defined.

(** The end-to-end scenario of the fixture chain: current block 1000 at
    13000, target one hour earlier, 12 s blocks: block 700 is resolved. *)
Example findBlockNumberForTimestamp_fixture :
  fst (findBlockNumberForTimestamp fixtureClient 9400 1 emptyWorld)
  = Returned (mkResolvedBlock 700 9400).
Proof. reflexivity. Qed.

(** On the brisk chain the estimate for target 1500 is block 959, after the
    target; the walk goes back to block 500, the last block at or before the
    target. *)
Example findBlockNumberForTimestamp_walks_back :
  fst (findBlockNumberForTimestamp briskClient 1500 1 emptyWorld)
  = Returned (mkResolvedBlock 500 1500).
Proof. vm_compute. reflexivity. Qed.

(** On the sluggish chain the estimate for target 190000 is block 167, far
    before the target; the 100 steps of the linear search end at block 267,
    still before the target (block 900 is the last one at or before it). *)
Example findBlockNumberForTimestamp_bounded_search :
  fst (findBlockNumberForTimestamp sluggishClient 190000 1 emptyWorld)
  = Returned (mkResolvedBlock 267 126700).
Proof. vm_compute. reflexivity. Qed.

(** ** Freshness *)

Lemma getEndOfDay_utcTime (year month day : Z) :
  getEndOfDay (utcTime year month day 0 0 0 0) = utcTime year month day 23 59 59 999.
Proof.
  unfold getEndOfDay, utcTime, setUTCHours, MS_PER_DAY.
  rewrite Z.div_mul by lia. replace ((((0 * 60 + 0) * 60 + 0) * 1000 + 0)) with 0 by lia.
  rewrite Z.add_0_r, Z.div_mul by lia. reflexivity.
Qed.

(** C3. Freshness rule.  A stored timestamp is valid for a historical date
    exactly when it lies within 3 hours, bounds included, of 23:59:59.999 UTC
    of that date, and for today exactly when it lies within 1 hour, bounds
    included, of the current instant; an absent timestamp is never valid.
    For 2024-01-01, 2024-01-02T02:00:00Z is valid and 2024-01-02T03:01:00Z
    is not; for today a timestamp 59 minutes old is valid and one 61 minutes
    old is not. *)
Theorem isBalanceTimestampValid_freshness :
  (∀ now timestamp date,
     isBalanceTimestampValid now (Some timestamp) date false = true
     ↔ Z.abs (getEndOfDay date - timestamp) ≤ 3 * (60 * 60 * 1000))
  ∧ (∀ date, getEndOfDay date = date / 86400000 * 86400000 + 86399999)
  ∧ (∀ year month day,
       getEndOfDay (utcTime year month day 0 0 0 0) = utcTime year month day 23 59 59 999)
  ∧ (∀ now timestamp date,
       isBalanceTimestampValid now (Some timestamp) date true = true
       ↔ Z.abs (now - timestamp) ≤ 60 * 60 * 1000)
  ∧ (∀ now date isCurrentDay, isBalanceTimestampValid now None date isCurrentDay = false)
  ∧ (∀ now,
       isBalanceTimestampValid now (Some (utcTime 2024 1 2 2 0 0 0))
                               (utcTime 2024 1 1 0 0 0 0) false = true
       ∧ isBalanceTimestampValid now (Some (utcTime 2024 1 2 3 1 0 0))
                                 (utcTime 2024 1 1 0 0 0 0) false = false)
  ∧ (∀ now date,
       isBalanceTimestampValid now (Some (now - 59 * 60 * 1000)) date true = true
       ∧ isBalanceTimestampValid now (Some (now - 61 * 60 * 1000)) date true = false).
Proof.
  repeat split.
  - unfold isBalanceTimestampValid, isWithinDuration, ONE_HOUR_MS. intros H.
    apply Z.leb_le in H. exact H.
  - unfold isBalanceTimestampValid, isWithinDuration, ONE_HOUR_MS. intros H.
    apply Z.leb_le. exact H.
  - apply getEndOfDay_utcTime.
  - unfold isBalanceTimestampValid, isWithinDuration, ONE_HOUR_MS. intros H.
    apply Z.leb_le in H. exact H.
  - unfold isBalanceTimestampValid, isWithinDuration, ONE_HOUR_MS. intros H.
    apply Z.leb_le. exact H.
  - unfold isBalanceTimestampValid, isWithinDuration, ONE_HOUR_MS.
    apply Z.leb_le. lia.
  - unfold isBalanceTimestampValid, isWithinDuration, ONE_HOUR_MS.
    apply Z.leb_gt. lia.
Qed.

(** ** Rate-limited execution *)

Lemma create_lookup_None (networkIds : list Z) (networkId : Z) :
  RateLimiterManager.create networkIds !! networkId = None ↔ networkId ∉ networkIds.
Proof.
  unfold RateLimiterManager.create.
  enough (G : ∀ m : gmap Z RateLimiterManager.RateLimiter,
             foldl (λ limiters id,
                      <[id := RateLimiterManager.mkRateLimiter
                                (default DEFAULT_RATE_LIMIT (NETWORK_RATE_LIMITS id))
                                "second" true]> limiters) m networkIds !! networkId = None
             ↔ m !! networkId = None ∧ networkId ∉ networkIds).
  { rewrite G, lookup_empty. tauto. }
  induction networkIds as [| id ids IH]; intros m; cbn [foldl].
  - rewrite elem_of_nil. tauto.
  - rewrite IH, not_elem_of_cons, lookup_insert_None. intuition congruence.
Qed.

Lemma execute_timeouts {A} (limiters : gmap Z RateLimiterManager.RateLimiter)
    (networkId : Z) (limiter : RateLimiterManager.RateLimiter) (request : M A)
    (operationName : string) (n : nat) :
  limiters !! networkId = Some limiter →
  ∀ (script : list RateLimiterManager.Acquisition) (w : World),
    RateLimiterManager.execute limiters networkId request operationName
      (repeat RateLimiterManager.TimedOut n ++ script) w
    = RateLimiterManager.execute limiters networkId request operationName script
        (afterTimeouts n w).
Proof.
  intros Hl. induction n as [| n IH]; intros script w; [reflexivity |].
  cbn [repeat app afterTimeouts]. rewrite <- IH.
  cbn [RateLimiterManager.execute]. rewrite Hl. reflexivity.
Qed.

(** C6, as the code has it.  Once the limiter of the network exists, [n]
    acquisition timeouts are each followed by the 1000 ms backoff and a new
    acquisition, for every [n]; after the first successful acquisition the
    operation is invoked once and its outcome, a value or an error whose
    message is not that of the acquisition timeout, is the outcome of
    [execute]: no further acquisition, backoff or invocation takes place. *)
Theorem execute_retry_discipline {A} (limiters : gmap Z RateLimiterManager.RateLimiter)
    (networkId : Z) (limiter : RateLimiterManager.RateLimiter) (request : M A)
    (operationName : string) (n : nat) (rest : list RateLimiterManager.Acquisition)
    (w w' : World) (outcome : Outcome A) :
  limiters !! networkId = Some limiter →
  request (record (OperationInvoked operationName) (afterTimeouts n w)) = (outcome, w') →
  (∀ e, outcome = Threw e → RateLimiterManager.isRateLimitTimeout e = false) →
  RateLimiterManager.execute limiters networkId request operationName
    (repeat RateLimiterManager.TimedOut n ++ RateLimiterManager.TokenRemoved true :: rest) w
  = (outcome, w', rest).
Proof.
  intros Hl Hreq Hne. rewrite (execute_timeouts _ _ _ _ _ _ Hl).
  cbn [RateLimiterManager.execute]. rewrite Hl.
  unfold RateLimiterManager.attempt. rewrite bind_unfold. cbn [emit]. rewrite Hreq.
  destruct outcome as [a | e |]; try reflexivity.
  rewrite (Hne e eq_refl). reflexivity.
Qed.

Lemma execute_retry_discipline_witness :
  RateLimiterManager.execute (RateLimiterManager.create [1; 137]) 137
    (throw (ErrorObj "execution reverted") : M Z) "request"
    (repeat RateLimiterManager.TimedOut 2 ++ RateLimiterManager.TokenRemoved true :: []) emptyWorld
  = (Threw (ErrorObj "execution reverted"),
     record (OperationInvoked "request") (afterTimeouts 2 emptyWorld), []).
Proof.
  apply (execute_retry_discipline (RateLimiterManager.create [1; 137]) 137
           (RateLimiterManager.mkRateLimiter 20 "second" true)).
  - reflexivity.
  - reflexivity.
  - intros e E. injection E as <-. reflexivity.
Defined.

(** C6 as stated fails: an operation that throws an [Error] whose message is
    that of the acquisition timeout is invoked again after the backoff, once
    per acquisition, and its error never reaches the caller: with two
    acquisitions the operation has run twice and the call is still waiting
    for a third. *)
Lemma execute_retries_operation_error :
  fst (failingRequest (record (OperationInvoked "request") emptyWorld))
    = Threw (ErrorObj "Rate limit timeout")
  ∧ RateLimiterManager.execute (RateLimiterManager.create [1]) 1 failingRequest "request"
      [RateLimiterManager.TokenRemoved true; RateLimiterManager.TokenRemoved true] emptyWorld
    = (Pending,
       mkWorld [] ∅ [TimerElapsed 1000; OperationInvoked "request";
                     TimerElapsed 1000; OperationInvoked "request"],
       [])
  ∧ invocations (snd (fst (RateLimiterManager.execute (RateLimiterManager.create [1]) 1
                             failingRequest "request"
                             [RateLimiterManager.TokenRemoved true;
                              RateLimiterManager.TokenRemoved true] emptyWorld))) = 2%nat.
Proof. repeat split. Qed.

(** C10. A network id that was not passed to the constructor has no limiter:
    [execute] throws, whatever the operation is, and nothing else happens:
    the world, its trace included, and the acquisitions are untouched, so
    the operation is not invoked. *)
Theorem execute_unknown_network {A} (networkIds : list Z) (networkId : Z) (request : M A)
    (operationName : string) (acquisitions : list RateLimiterManager.Acquisition) (w : World) :
  networkId ∉ networkIds →
  RateLimiterManager.execute (RateLimiterManager.create networkIds) networkId request
    operationName acquisitions w
  = (Threw (ErrorObj ("No rate limiter found for network " +:+ pretty networkId)), w,
     acquisitions).
Proof.
  intros Hnot. apply create_lookup_None in Hnot.
  destruct acquisitions; cbn [RateLimiterManager.execute]; rewrite Hnot; reflexivity.
Qed.

Lemma execute_unknown_network_witness :
  RateLimiterManager.execute (RateLimiterManager.create [1; 137]) 10
    (mret 5 : M Z) "request" [RateLimiterManager.TokenRemoved true] emptyWorld
  = (Threw (ErrorObj "No rate limiter found for network 10"), emptyWorld,
     [RateLimiterManager.TokenRemoved true]).
Proof.
  apply (execute_unknown_network [1; 137] 10 (mret 5 : M Z) "request"
           [RateLimiterManager.TokenRemoved true] emptyWorld).
  vm_compute. intros H. inversion H; subst. inversion H2; subst. inversion H3.
Defined.

(** ** Multicall batches *)

Lemma mapM_pure {A B} (f : A → M B) (g : A → B) (l : list A) (w : World) :
  (∀ x, x ∈ l → f x w = (Returned (g x), w)) →
  mapM f l w = (Returned (g <$> l), w).
Proof.
  induction l as [| x l IH]; intros Hf; [reflexivity |].
  cbn [mapM]. rewrite (bind_step _ _ _ _ _ (Hf x ltac:(left))).
  rewrite (bind_step _ _ _ _ _ (IH (λ y Hy, Hf y ltac:(right; exact Hy)))).
  reflexivity.
Qed.

Lemma lookup_bind_uniform {A B} (f : A → list B) (n : nat) (l : list A) :
  (∀ y, length (f y) = n) →
  ∀ (j i : nat) (x : A),
    l !! j = Some x → (i < n)%nat → (l ≫= f) !! (j * n + i)%nat = f x !! i.
Proof.
  intros Hlen. induction l as [| y l IH]; intros j i x Hj Hi; [discriminate |].
  cbn [mbind list_bind]. destruct j as [| j]; cbn in Hj.
  - injection Hj as ->. apply lookup_app_l. rewrite Hlen. lia.
  - rewrite lookup_app_r by (rewrite Hlen; lia). rewrite Hlen.
    replace (S j * n + i - n)%nat with (j * n + i)%nat by lia.
    apply IH; assumption.
Qed.

Lemma length_bind_uniform {A B} (f : A → list B) (n : nat) (l : list A) :
  (∀ y, length (f y) = n) → length (l ≫= f) = (length l * n)%nat.
Proof.
  intros Hlen. induction l as [| y l IH]; [reflexivity |].
  cbn [mbind list_bind]. rewrite length_app, Hlen. cbn [length].
  cbn [mbind] in IH. lia.
Qed.

Lemma pretty_N_go_length (x : N) :
  ∀ s, (String.length s ≤ String.length (pretty_N_go x s))%nat.
Proof.
  induction (N.lt_wf_0 x) as [x _ IH]; intros s.
  destruct (decide (x = 0)%N) as [-> | Hne]; [rewrite pretty_N_go_0; lia |].
  rewrite pretty_N_go_step by lia.
  etrans; [| apply IH; apply N.div_lt; lia]. cbn [String.length]. lia.
Qed.

Lemma pretty_Z_nonempty (x : Z) : pretty x ≠ "".
Proof.
  destruct x as [| p | p]; [discriminate | | discriminate].
  unfold pretty, pretty_Z, pretty, pretty_positive, pretty, pretty_N.
  destruct (decide (N.pos p = 0)%N); [discriminate |].
  rewrite pretty_N_go_step by lia. intros E.
  pose proof (pretty_N_go_length (N.pos p `div` 10)
                (String (pretty_N_char (N.pos p `mod` 10)) "")) as Hlen.
  rewrite E in Hlen. cbn [String.length] in Hlen. lia.
Qed.

Lemma balanceText_Some (value : Z) : balanceText (Some value) = pretty value.
Proof.
  unfold balanceText. cbn [fmap option_fmap option_map].
  rewrite bool_decide_eq_false_2 by apply pretty_Z_nonempty. reflexivity.
Qed.

(** The text decoded from a result entry: the decimal text of a value, "0"
    for an absent one. *)
Lemma balanceText_decoded (result : option Z) :
  balanceText result = match result with Some value => pretty value | None => "0" end.
Proof. destruct result as [value |]; [apply balanceText_Some | reflexivity]. Qed.

Section Multicall.
Context `{Viem}.

Lemma standardizeWallets_run (wallets : list Wallet) (w : World) :
  Forall validWallet wallets →
  mapM standardizeWallet wallets w = (Returned (standardized <$> wallets), w).
Proof.
  intros Hvalid. apply mapM_pure. intros wallet Hin.
  rewrite Forall_forall in Hvalid. specialize (Hvalid wallet Hin).
  unfold standardizeWallet, standardizeAddress, validWallet in *.
  rewrite Hvalid. reflexivity.
Qed.

Lemma element_lookup {A} (array : list A) (index : nat) (property : string) (x : A)
    (w : World) :
  array !! index = Some x → element array index property w = (Returned x, w).
Proof. intros E. unfold element. rewrite E. reflexivity. Qed.

Lemma walletBalanceOf_run (network : Network) (n : nat) (results : list (option Z))
    (walletIndex : nat) (wallet : Wallet) (w : World) :
  (walletIndex < n)%nat →
  (n + length (tokens network) * n ≤ length results)%nat →
  walletBalanceOf network n (take n results) (drop n results) walletIndex wallet w
  = (Returned (decodedBalance network n results walletIndex wallet), w).
Proof.
  intros Hi Hlen. unfold walletBalanceOf, decodedBalance, resultAt.
  destruct (lookup_lt_is_Some_2 results walletIndex ltac:(lia)) as [r Hr].
  rewrite (bind_step _ _ _ _ _
             (element_lookup _ _ _ _ _ (eq_trans (lookup_take_lt _ _ _ Hi) Hr))).
  rewrite Hr. cbn [default].
  erewrite bind_step; cycle 1.
  { apply (mapM_pure _ (λ '(tokenIndex, token),
        mkTokenBalance (token_address token) (token_symbol token)
          (balanceText (default None (results !! (n + tokenIndex * n + walletIndex)%nat)))
          (token_decimals token))).
    intros [j token] Hin. apply elem_of_lookup_imap_1 in Hin as (j' & token' & E & Hj).
    injection E as -> ->. apply lookup_lt_Some in Hj.
    assert (Hidx : (n + (j' * n + walletIndex) < length results)%nat) by nia.
    destruct (lookup_lt_is_Some_2 results _ Hidx) as [r' Hr'].
    rewrite (bind_step _ _ _ _ _
               (element_lookup _ _ _ _ _ (eq_trans (lookup_drop _ _ _) Hr'))).
    rewrite Nat.add_assoc in Hr'. rewrite Hr'. reflexivity. }
  rewrite fmap_imap. reflexivity.
Qed.

(** What a batch fetch does when every address is valid and the endpoint
    returns a result entry for every call. *)
Lemma getWalletsBalances_run (client : Client) (wallets : list Wallet) (network : Network)
    (blockNumber : Z) (results : list (option Z)) (w : World) :
  Forall validWallet wallets →
  client_multicall client (allCalls (standardized <$> wallets) network) blockNumber
    = Returned results →
  (length wallets + length (tokens network) * length wallets ≤ length results)%nat →
  getWalletsBalances client wallets network blockNumber w
  = (Returned (imap (decodedBalance network (length wallets) results) (standardized <$> wallets)),
     record (RpcMulticall (client_chain client) (allCalls (standardized <$> wallets) network)
                          blockNumber) w).
Proof.
  intros Hvalid Hcall Hlen. unfold getWalletsBalances.
  rewrite (bind_step _ _ _ _ _ (standardizeWallets_run wallets w Hvalid)).
  rewrite length_fmap.
  assert (Hm : multicall client (allCalls (standardized <$> wallets) network) blockNumber w
               = (Returned results,
                  record (RpcMulticall (client_chain client)
                            (allCalls (standardized <$> wallets) network) blockNumber) w)).
  { unfold multicall. rewrite bind_unfold. cbn [emit]. unfold settle. rewrite Hcall. reflexivity. }
  rewrite (bind_step _ _ _ _ _ Hm).
  rewrite (mapM_pure _ (λ '(walletIndex, wallet),
             decodedBalance network (length wallets) results walletIndex wallet)).
  - rewrite fmap_imap. reflexivity.
  - intros [i wallet] Hin. apply elem_of_lookup_imap_1 in Hin as (i' & wallet' & E & Hi).
    injection E as -> ->. apply lookup_lt_Some in Hi. rewrite length_fmap in Hi.
    apply walletBalanceOf_run; assumption.
Qed.

Lemma allCalls_length (wallets : list Wallet) (network : Network) :
  length (allCalls wallets network)
  = (length wallets + length (tokens network) * length wallets)%nat.
Proof.
  unfold allCalls. rewrite length_app, length_fmap.
  rewrite (length_bind_uniform _ (length wallets)); [reflexivity |].
  intros token. apply length_fmap.
Qed.

Lemma allCalls_native (wallets : list Wallet) (network : Network) (i : nat) (wallet : Wallet) :
  wallets !! i = Some wallet →
  allCalls wallets network !! i = Some (nativeBalanceCall wallet).
Proof.
  intros Hi. unfold allCalls. rewrite lookup_app_l.
  - rewrite list_lookup_fmap, Hi. reflexivity.
  - rewrite length_fmap. eapply lookup_lt_Some, Hi.
Qed.

Lemma allCalls_token (wallets : list Wallet) (network : Network) (i j : nat)
    (wallet : Wallet) (token : Token) :
  wallets !! i = Some wallet →
  tokens network !! j = Some token →
  allCalls wallets network !! (length wallets + j * length wallets + i)%nat
  = Some (tokenBalanceCall token wallet).
Proof.
  intros Hi Hj. unfold allCalls. rewrite lookup_app_r by (rewrite length_fmap; lia).
  rewrite length_fmap.
  replace (length wallets + j * length wallets + i - length wallets)%nat
    with (j * length wallets + i)%nat by lia.
  rewrite (lookup_bind_uniform _ (length wallets) _ (λ token, length_fmap _ _) j i token Hj).
  - rewrite list_lookup_fmap, Hi. reflexivity.
  - eapply lookup_lt_Some, Hi.
Qed.

Lemma decodedBalance_lookup (network : Network) (n : nat) (results : list (option Z))
    (wallets : list Wallet) (i : nat) (wallet : Wallet) :
  wallets !! i = Some wallet →
  imap (decodedBalance network n results) (standardized <$> wallets) !! i
  = Some (decodedBalance network n results i (standardized wallet)).
Proof.
  intros Hi. rewrite list_lookup_imap, list_lookup_fmap, Hi. reflexivity.
Qed.

Lemma resultAt_lookup (results : list (option Z)) (index : nat) :
  (index < length results)%nat → results !! index = Some (resultAt results index).
Proof.
  intros Hlt. unfold resultAt.
  destruct (lookup_lt_is_Some_2 results index Hlt) as [r ->]. reflexivity.
Qed.

(** C7. Multicall request ordering and result alignment.  A batch whose
    addresses are valid issues one multicall.  Its call list holds, for the
    wallet at index [i], the native-balance read at index [i] and, for the
    token at index [j], the token-balance read at index
    [|wallets| + j * |wallets| + i], and nothing else.  When the endpoint
    returns one result per call, the balance of wallet [i] is decoded from
    the results at exactly these indices: it is the decimal text of the
    value found there, or "0" where the result is absent. *)
Theorem getWalletsBalances_alignment (client : Client) (wallets : list Wallet)
    (network : Network) (blockNumber : Z) (results : list (option Z)) (w : World) :
  Forall validWallet wallets →
  client_multicall client (allCalls (standardized <$> wallets) network) blockNumber
    = Returned results →
  length results = length (allCalls (standardized <$> wallets) network) →
  ∃ balances,
    getWalletsBalances client wallets network blockNumber w
    = (Returned balances,
       record (RpcMulticall (client_chain client) (allCalls (standardized <$> wallets) network)
                            blockNumber) w)
    ∧ length (allCalls (standardized <$> wallets) network)
      = (length wallets + length (tokens network) * length wallets)%nat
    ∧ length balances = length wallets
    ∧ ∀ i wallet, wallets !! i = Some wallet →
        allCalls (standardized <$> wallets) network !! i
        = Some (mkCall MULTICALL3_ADDRESS MULTICALL3_ABI "getEthBalance"
                       [toLowerCase (wallet_address wallet)])
        ∧ ∃ balance r,
            balances !! i = Some balance
            ∧ results !! i = Some r
            ∧ wb_address balance = toLowerCase (wallet_address wallet)
            ∧ wb_native_balance balance
              = match r with Some value => pretty value | None => "0" end
            ∧ length (wb_tokens balance) = length (tokens network)
            ∧ ∀ j token, tokens network !! j = Some token →
                allCalls (standardized <$> wallets) network
                  !! (length wallets + j * length wallets + i)%nat
                = Some (mkCall (token_address token) ERC20_ABI "balanceOf"
                               [toLowerCase (wallet_address wallet)])
                ∧ ∃ tokenBalance r',
                    wb_tokens balance !! j = Some tokenBalance
                    ∧ results !! (length wallets + j * length wallets + i)%nat = Some r'
                    ∧ tb_address tokenBalance = token_address token
                    ∧ tb_symbol tokenBalance = token_symbol token
                    ∧ tb_decimals tokenBalance = token_decimals token
                    ∧ tb_balance tokenBalance
                      = match r' with Some value => pretty value | None => "0" end.
Proof.
  intros Hvalid Hcall Hlen.
  pose proof (allCalls_length (standardized <$> wallets) network) as Hcalls.
  rewrite length_fmap in Hcalls. rewrite Hcalls in Hlen.
  eexists. split; [apply (getWalletsBalances_run _ _ _ _ results); [assumption .. | lia] |].
  split; [exact Hcalls |]. split; [rewrite length_imap, length_fmap; reflexivity |].
  intros i wallet Hi. pose proof (lookup_lt_Some _ _ _ Hi) as Hilt.
  assert (Hsi : (standardized <$> wallets) !! i = Some (standardized wallet))
    by (rewrite list_lookup_fmap, Hi; reflexivity).
  split; [apply (allCalls_native _ _ _ _ Hsi) |].
  exists (decodedBalance network (length wallets) results i (standardized wallet)),
         (resultAt results i).
  split; [apply decodedBalance_lookup, Hi |].
  split; [apply resultAt_lookup; lia |].
  split; [reflexivity |]. split; [apply balanceText_decoded |].
  split; [cbn; apply length_imap |].
  intros j token Hj. pose proof (lookup_lt_Some _ _ _ Hj) as Hjlt.
  split.
  - pose proof (allCalls_token _ network i j _ token Hsi Hj) as Ht.
    rewrite length_fmap in Ht. exact Ht.
  - eexists _, (resultAt results (length wallets + j * length wallets + i)).
    split; [cbn; rewrite list_lookup_imap, Hj; reflexivity |].
    split; [apply resultAt_lookup; nia |]. split; [reflexivity |].
    split; [reflexivity |]. split; [reflexivity |]. apply balanceText_decoded.
Qed.

(** C8. Missing-result defaulting.  Under the same conditions the batch
    fetch returns normally, and wherever the result at the index of a native
    or token balance is absent the balance recorded is the text "0". *)
Theorem getWalletsBalances_missing_result (client : Client) (wallets : list Wallet)
    (network : Network) (blockNumber : Z) (results : list (option Z)) (w : World) :
  Forall validWallet wallets →
  client_multicall client (allCalls (standardized <$> wallets) network) blockNumber
    = Returned results →
  length results = length (allCalls (standardized <$> wallets) network) →
  ∃ balances w',
    getWalletsBalances client wallets network blockNumber w = (Returned balances, w')
    ∧ ∀ i wallet, wallets !! i = Some wallet →
        ∃ balance,
          balances !! i = Some balance
          ∧ (results !! i = Some None → wb_native_balance balance = "0")
          ∧ ∀ j token, tokens network !! j = Some token →
              results !! (length wallets + j * length wallets + i)%nat = Some None →
              ∃ tokenBalance,
                wb_tokens balance !! j = Some tokenBalance
                ∧ tb_address tokenBalance = token_address token
                ∧ tb_balance tokenBalance = "0".
Proof.
  intros Hvalid Hcall Hlen.
  pose proof (allCalls_length (standardized <$> wallets) network) as Hcalls.
  rewrite length_fmap in Hcalls. rewrite Hcalls in Hlen.
  eexists _, _. split; [apply (getWalletsBalances_run _ _ _ _ results); [assumption .. | lia] |].
  intros i wallet Hi.
  exists (decodedBalance network (length wallets) results i (standardized wallet)).
  split; [apply decodedBalance_lookup, Hi |]. split.
  - intros Hnone. cbn. unfold resultAt. rewrite Hnone. reflexivity.
  - intros j token Hj Hnone. eexists.
    split; [cbn; rewrite list_lookup_imap, Hj; reflexivity |].
    split; [reflexivity |]. cbn. unfold resultAt. rewrite Hnone. reflexivity.
Qed.

End Multicall.

Lemma getWalletsBalances_alignment_witness :
  ∃ balances,
    @getWalletsBalances strictViem batchClient [walletA; walletB] ethereum 1000 emptyWorld
    = (Returned balances,
       record (RpcMulticall 1 (allCalls (standardized <$> [walletA; walletB]) ethereum) 1000)
              emptyWorld)
    ∧ length balances = 2%nat
    ∧ allCalls (standardized <$> [walletA; walletB]) ethereum !! 0%nat
      = Some (mkCall MULTICALL3_ADDRESS MULTICALL3_ABI "getEthBalance"
                     ["0x00000000000000000000000000000000000000aa"])
    ∧ allCalls (standardized <$> [walletA; walletB]) ethereum !! 2%nat
      = Some (mkCall "0xA0b86991c6218b36c1d19D4a2e9Eb0cE3606eB48" ERC20_ABI "balanceOf"
                     ["0x00000000000000000000000000000000000000aa"])
    ∧ ∃ balance tokenBalance,
        balances !! 0%nat = Some balance
        ∧ wb_address balance = "0x00000000000000000000000000000000000000aa"
        ∧ wb_native_balance balance = "5"
        ∧ wb_tokens balance !! 0%nat = Some tokenBalance
        ∧ tb_balance tokenBalance = "7".
Proof.
  destruct (@getWalletsBalances_alignment strictViem batchClient [walletA; walletB] ethereum
              1000 [Some 5; None; Some 7; None] emptyWorld)
    as (balances & Hrun & _ & Hlen & Haligned).
  - repeat constructor.
  - reflexivity.
  - reflexivity.
  - exists balances. split; [exact Hrun |]. split; [exact Hlen |].
    destruct (Haligned 0%nat walletA eq_refl)
      as (Hnative & balance & r & Hb & Hr & Haddress & Hvalue & _ & Htokens).
    destruct (Htokens 0%nat usdc eq_refl)
      as (Htoken & tokenBalance & r' & Ht & Hr' & _ & _ & _ & Hvalue').
    injection Hr as <-. injection Hr' as <-.
    split; [exact Hnative |]. split; [exact Htoken |].
    exists balance, tokenBalance. auto.
Defined.

Lemma getWalletsBalances_missing_result_witness :
  ∃ balances w',
    @getWalletsBalances strictViem batchClient [walletA; walletB] ethereum 1000 emptyWorld
    = (Returned balances, w')
    ∧ ∃ balance tokenBalance,
        balances !! 1%nat = Some balance
        ∧ wb_native_balance balance = "0"
        ∧ wb_tokens balance !! 0%nat = Some tokenBalance
        ∧ tb_balance tokenBalance = "0".
Proof.
  destruct (@getWalletsBalances_missing_result strictViem batchClient [walletA; walletB]
              ethereum 1000 [Some 5; None; Some 7; None] emptyWorld)
    as (balances & w' & Hrun & Hzero).
  - repeat constructor.
  - reflexivity.
  - reflexivity.
  - exists balances, w'. split; [exact Hrun |].
    destruct (Hzero 1%nat walletB eq_refl) as (balance & Hb & Hnative & Htok).
    destruct (Htok 0%nat usdc eq_refl eq_refl) as (tokenBalance & Ht & _ & Hz).
    exists balance, tokenBalance. auto.
Defined.

(** The batch of the examples, evaluated. *)
Example getWalletsBalances_batch :
  fst (@getWalletsBalances strictViem batchClient [walletA; walletB] ethereum 1000 emptyWorld)
  = Returned
      [mkWalletBalance "0x00000000000000000000000000000000000000aa" (Some "main") "Ethereum" 1
         "5" [mkTokenBalance "0xA0b86991c6218b36c1d19D4a2e9Eb0cE3606eB48" "USDC" "7" 6] "";
       mkWalletBalance "0x00000000000000000000000000000000000000bb" None "Ethereum" 1
         "0" [mkTokenBalance "0xA0b86991c6218b36c1d19D4a2e9Eb0cE3606eB48" "USDC" "0" 6] ""].
Proof. reflexivity. Qed.

(** ** Persistence of balances *)

Lemma upsert_keys (new : BalanceRow) (table : list BalanceRow) :
  keysOf (BalanceDatabase.upsert new table)
  = if bool_decide (BalanceDatabase.indexKey new ∈ keysOf table) then keysOf table
    else (keysOf table ++ [BalanceDatabase.indexKey new])%list.
Proof.
  unfold keysOf. induction table as [| r rest IH]; [reflexivity |].
  cbn [BalanceDatabase.upsert]. destruct (decide (BalanceDatabase.indexKey r = BalanceDatabase.indexKey new)) as [E | N].
  - rewrite (bool_decide_eq_true_2 _ E).
    rewrite bool_decide_eq_true_2 by (rewrite fmap_cons, E; left). reflexivity.
  - rewrite (bool_decide_eq_false_2 _ N). rewrite !fmap_cons, IH.
    destruct (decide (BalanceDatabase.indexKey new ∈ BalanceDatabase.indexKey <$> rest)) as [I | I].
    + rewrite (bool_decide_eq_true_2 _ I).
      rewrite bool_decide_eq_true_2 by (right; exact I). reflexivity.
    + rewrite (bool_decide_eq_false_2 _ I).
      rewrite bool_decide_eq_false_2; [reflexivity |].
      rewrite elem_of_cons. intros [? | ?]; [congruence | contradiction].
Qed.

Lemma upsert_uniqueKeys (new : BalanceRow) (table : list BalanceRow) :
  uniqueKeys table → uniqueKeys (BalanceDatabase.upsert new table).
Proof.
  unfold uniqueKeys. intros Hu. rewrite upsert_keys. case_bool_decide as Hin; [exact Hu |].
  apply NoDup_app. split; [exact Hu |]. split; [| apply NoDup_singleton].
  intros k Hk Hk'. apply list_elem_of_singleton in Hk'. subst k. contradiction.
Qed.

Lemma upsert_keys_subseteq (new : BalanceRow) (table : list BalanceRow) :
  keysOf table ⊆ keysOf (BalanceDatabase.upsert new table).
Proof.
  rewrite upsert_keys. case_bool_decide; [reflexivity |].
  intros k Hk. apply elem_of_app. left. exact Hk.
Qed.

Lemma rowsFor_cons (key : string * Z * string * string) (r : BalanceRow)
    (table : list BalanceRow) :
  rowsFor key (r :: table)
  = if bool_decide (BalanceDatabase.indexKey r = key) then r :: rowsFor key table
    else rowsFor key table.
Proof. reflexivity. Qed.

Lemma rowsFor_absent (key : string * Z * string * string) (table : list BalanceRow) :
  key ∉ keysOf table → rowsFor key table = [].
Proof.
  unfold keysOf. induction table as [| r rest IH]; intros Hnot; [reflexivity |].
  rewrite fmap_cons, not_elem_of_cons in Hnot. destruct Hnot as [Hne Hnot].
  rewrite rowsFor_cons, bool_decide_eq_false_2 by congruence. apply IH, Hnot.
Qed.

Lemma upsert_rowsFor_same (new : BalanceRow) (table : list BalanceRow) :
  uniqueKeys table →
  ∃ r, rowsFor (BalanceDatabase.indexKey new) (BalanceDatabase.upsert new table) = [r]
       ∧ sameValues r new.
Proof.
  unfold uniqueKeys, keysOf. induction table as [| r rest IH]; intros Hu.
  - exists new. cbn [BalanceDatabase.upsert].
    rewrite rowsFor_cons, bool_decide_eq_true_2 by reflexivity.
    split; [reflexivity | repeat split].
  - rewrite fmap_cons in Hu. apply NoDup_cons in Hu as [Hr Hu].
    cbn [BalanceDatabase.upsert]. case_bool_decide as E.
    + eexists. rewrite rowsFor_cons, bool_decide_eq_true_2 by exact E.
      rewrite <- E. rewrite (rowsFor_absent _ rest Hr).
      split; [reflexivity | repeat split].
    + rewrite rowsFor_cons, bool_decide_eq_false_2 by exact E. apply IH, Hu.
Qed.

Lemma upsert_rowsFor_other (key : string * Z * string * string) (new : BalanceRow)
    (table : list BalanceRow) :
  BalanceDatabase.indexKey new ≠ key →
  rowsFor key (BalanceDatabase.upsert new table) = rowsFor key table.
Proof.
  intros Hne. induction table as [| r rest IH].
  - cbn [BalanceDatabase.upsert]. rewrite rowsFor_cons, bool_decide_eq_false_2 by exact Hne.
    reflexivity.
  - cbn [BalanceDatabase.upsert]. case_bool_decide as E.
    + rewrite !rowsFor_cons, !bool_decide_eq_false_2; [reflexivity | congruence |].
      change (BalanceDatabase.indexKey r ≠ key). congruence.
    + rewrite !rowsFor_cons, IH. reflexivity.
Qed.

Lemma applyRows_snoc (table rows : list BalanceRow) (x : BalanceRow) :
  applyRows table (rows ++ [x]) = BalanceDatabase.upsert x (applyRows table rows).
Proof. unfold applyRows. rewrite foldl_snoc. reflexivity. Qed.

Lemma applyRows_uniqueKeys (table rows : list BalanceRow) :
  uniqueKeys table → uniqueKeys (applyRows table rows).
Proof.
  intros Hu. induction rows as [| x rows IH] using rev_ind; [exact Hu |].
  rewrite applyRows_snoc. apply upsert_uniqueKeys, IH.
Qed.

Lemma applyRows_keys_subseteq (table rows : list BalanceRow) :
  keysOf table ⊆ keysOf (applyRows table rows).
Proof.
  induction rows as [| x rows IH] using rev_ind; [reflexivity |].
  rewrite applyRows_snoc. etrans; [exact IH | apply upsert_keys_subseteq].
Qed.

Lemma applyRows_rowsFor (key : string * Z * string * string) (table rows : list BalanceRow)
    (new : BalanceRow) :
  uniqueKeys table →
  lastWithKey key rows = Some new →
  ∃ r, rowsFor key (applyRows table rows) = [r] ∧ sameValues r new.
Proof.
  unfold lastWithKey. intros Hu.
  induction rows as [| x rows IH] using rev_ind; [discriminate |].
  replace (rowsFor key (rows ++ [x])) with (rowsFor key rows ++ rowsFor key [x])%list
    by (symmetry; apply List.filter_app).
  rewrite rowsFor_cons. change (rowsFor key []) with (@nil BalanceRow).
  rewrite applyRows_snoc. case_bool_decide as E.
  - rewrite last_snoc. intros [= <-]. subst key.
    apply upsert_rowsFor_same, applyRows_uniqueKeys, Hu.
  - rewrite app_nil_r. intros Hlast. rewrite upsert_rowsFor_other by exact E.
    apply IH, Hlast.
Qed.

Lemma keysExtend_refl (w : World) : keysExtend w w.
Proof. split; [tauto | reflexivity]. Qed.

Lemma keysExtend_trans (w1 w2 w3 : World) :
  keysExtend w1 w2 → keysExtend w2 w3 → keysExtend w1 w3.
Proof. intros [U1 S1] [U2 S2]. split; [tauto | etrans; eassumption]. Qed.

Lemma keysExtend_same_table (w w' : World) : balances w' = balances w → keysExtend w w'.
Proof. intros E. unfold keysExtend. rewrite E. split; [tauto | reflexivity]. Qed.

Lemma preservesKeys_mret {A} (a : A) : preservesKeys (mret a : M A).
Proof. intros w o w' [= _ <-]. apply keysExtend_refl. Qed.

Lemma preservesKeys_throw {A} (e : Thrown) : preservesKeys (throw e : M A).
Proof. intros w o w' [= _ <-]. apply keysExtend_refl. Qed.

Lemma preservesKeys_emit (e : Event) : preservesKeys (emit e).
Proof. intros w o w' [= _ <-]. apply keysExtend_same_table. reflexivity. Qed.

Lemma preservesKeys_bind {A B} (m : M A) (f : A → M B) :
  preservesKeys m → (∀ a, preservesKeys (f a)) → preservesKeys (m ≫= f).
Proof.
  intros Hm Hf w o w'. rewrite bind_unfold. destruct (m w) as [[a | e |] w1] eqn:E.
  - intros Ef. eapply keysExtend_trans; [eapply Hm, E | eapply Hf, Ef].
  - intros [= _ <-]. eapply Hm, E.
  - intros [= _ <-]. eapply Hm, E.
Qed.

Lemma preservesKeys_tryCatch {A} (body : M A) (handler : Thrown → M A) :
  preservesKeys body → (∀ e, preservesKeys (handler e)) → preservesKeys (tryCatch body handler).
Proof.
  intros Hb Hh w o w'. unfold tryCatch. destruct (body w) as [[a | e |] w1] eqn:E.
  - intros [= _ <-]. eapply Hb, E.
  - intros Eh. eapply keysExtend_trans; [eapply Hb, E | eapply Hh, Eh].
  - intros [= _ <-]. eapply Hb, E.
Qed.

Lemma preservesKeys_mapM {A B} (f : A → M B) (l : list A) :
  (∀ x, preservesKeys (f x)) → preservesKeys (mapM f l).
Proof.
  intros Hf. induction l as [| x l IH]; cbn [mapM]; [apply preservesKeys_mret |].
  apply preservesKeys_bind; [apply Hf |]. intros y.
  apply preservesKeys_bind; [exact IH |]. intros k. apply preservesKeys_mret.
Qed.

Lemma preservesKeys_run (row : BalanceRow) : preservesKeys (BalanceDatabase.run row).
Proof.
  intros w o w' [= _ <-]. split; cbn.
  - apply upsert_uniqueKeys.
  - apply upsert_keys_subseteq.
Qed.

Lemma preservesKeys_transaction (body : M unit) :
  preservesKeys body → preservesKeys (BalanceDatabase.transaction body).
Proof.
  intros Hb w o w'. unfold BalanceDatabase.transaction.
  destruct (body w) as [[a | e |] w1] eqn:E; intros [= _ <-].
  - eapply keysExtend_trans; [eapply Hb, E | apply keysExtend_same_table; reflexivity].
  - apply keysExtend_same_table. reflexivity.
  - eapply Hb, E.
Qed.

Section Persistence.
Context `{Viem}.

Lemma preservesKeys_standardizeAddress (address : string) :
  preservesKeys (standardizeAddress address).
Proof.
  unfold standardizeAddress. destruct (isAddress address);
    [apply preservesKeys_mret | apply preservesKeys_throw].
Qed.

(** Whatever its outcome, [saveBalances] keeps the keys of the table
    unique and deletes none. *)
Lemma saveBalances_preservesKeys (config : Config) (walletBalance : WalletBalance)
    (blockNumber : Z) (dateStr : string) (timestamp : Z) :
  preservesKeys (BalanceDatabase.saveBalances config walletBalance blockNumber dateStr timestamp).
Proof.
  unfold BalanceDatabase.saveBalances.
  destruct (find _ (networks config)) as [network |]; [| apply preservesKeys_mret].
  apply preservesKeys_bind; [apply preservesKeys_standardizeAddress |]. intros address.
  apply preservesKeys_tryCatch.
  - apply preservesKeys_bind; [| intros; apply preservesKeys_emit].
    apply preservesKeys_transaction, preservesKeys_tryCatch.
    + apply preservesKeys_bind; [apply preservesKeys_run |]. intros _.
      apply preservesKeys_bind; [| intros; apply preservesKeys_mret].
      apply preservesKeys_mapM. intros token.
      apply preservesKeys_bind; [apply preservesKeys_standardizeAddress |].
      intros; apply preservesKeys_run.
    + intros e. apply preservesKeys_bind; [apply preservesKeys_emit |].
      intros; apply preservesKeys_throw.
  - intros e. apply preservesKeys_bind; [apply preservesKeys_emit |].
    intros; apply preservesKeys_throw.
Qed.

Lemma saveTokens_run (address : string) (networkId blockNumber timestamp : Z)
    (dateStr : string) (tokenBalances : list TokenBalance) :
  Forall (λ token, isAddress (tb_address token) = true) tokenBalances →
  ∀ w, ∃ done,
    mapM (λ token,
            tokenAddress ← standardizeAddress (tb_address token);
            BalanceDatabase.run
              (mkBalanceRow address networkId tokenAddress (tb_symbol token) (tb_balance token)
                            blockNumber timestamp dateStr))
         tokenBalances w
    = (Returned done,
       mkWorld (applyRows (balances w)
                  ((λ token,
                      mkBalanceRow address networkId (toLowerCase (tb_address token))
                                   (tb_symbol token) (tb_balance token) blockNumber timestamp
                                   dateStr) <$> tokenBalances))
               (block_mapping w) (events w)).
Proof.
  induction 1 as [| token rest Hvalid _ IH]; intros w.
  - exists []. destruct w; reflexivity.
  - cbn [mapM]. rewrite bind_unfold, bind_unfold. unfold standardizeAddress at 1.
    rewrite Hvalid. cbn [mret M_ret BalanceDatabase.run].
    destruct (IH (mkWorld (BalanceDatabase.upsert
                             (mkBalanceRow address networkId (toLowerCase (tb_address token))
                                (tb_symbol token) (tb_balance token) blockNumber timestamp
                                dateStr) (balances w))
                          (block_mapping w) (events w))) as [done Hdone].
    rewrite (bind_step _ _ _ _ _ Hdone). eexists. reflexivity.
Qed.

(** What [saveBalances] does for a configured network and valid addresses:
    one committed transaction that runs the statements in order, then the
    change notification. *)
Lemma saveBalances_run (config : Config) (network : Network) (walletBalance : WalletBalance)
    (blockNumber : Z) (dateStr : string) (timestamp : Z) (w : World) :
  findNetwork config (wb_network walletBalance) = Some network →
  validBalance walletBalance →
  BalanceDatabase.saveBalances config walletBalance blockNumber dateStr timestamp w
  = (Returned tt,
     mkWorld (applyRows (balances w)
                (writtenRows network walletBalance blockNumber dateStr timestamp))
             (block_mapping w)
             (Emitted "balancesChanged" :: TransactionCommitted :: events w)).
Proof.
  intros Hfind [Haddr Htokens]. unfold BalanceDatabase.saveBalances.
  unfold findNetwork in Hfind. rewrite Hfind.
  rewrite bind_unfold. unfold standardizeAddress at 1. rewrite Haddr. cbn [mret M_ret].
  unfold tryCatch at 1. rewrite bind_unfold. unfold BalanceDatabase.transaction.
  unfold tryCatch at 1. rewrite bind_unfold. cbn [BalanceDatabase.run].
  rewrite bind_unfold.
  destruct (saveTokens_run (toLowerCase (wb_address walletBalance)) (network_id_of network)
              blockNumber timestamp dateStr (wb_tokens walletBalance) Htokens
              (mkWorld (BalanceDatabase.upsert
                          (mkBalanceRow (toLowerCase (wb_address walletBalance))
                             (network_id_of network) NATIVE_TOKEN_ADDRESS
                             (native_symbol (native_token network))
                             (wb_native_balance walletBalance) blockNumber timestamp dateStr)
                          (balances w))
                       (block_mapping w) (events w))) as [done Hdone].
  rewrite Hdone. reflexivity.
Qed.

Lemma lastWithKey_elem_of (key : string * Z * string * string) (rows : list BalanceRow)
    (new : BalanceRow) :
  lastWithKey key rows = Some new → new ∈ rows.
Proof.
  unfold lastWithKey, rowsFor. intros Hlast. apply last_Some in Hlast as [l' Hl'].
  apply list_elem_of_In. eapply (proj1 (List.filter_In _ _ _)). rewrite Hl'.
  apply List.in_or_app. right. left. reflexivity.
Qed.

Lemma writtenRows_stamp (network : Network) (walletBalance : WalletBalance)
    (blockNumber : Z) (dateStr : string) (timestamp : Z) (row : BalanceRow) :
  row ∈ writtenRows network walletBalance blockNumber dateStr timestamp →
  row_block_number row = blockNumber ∧ row_timestamp row = timestamp
  ∧ row_date row = dateStr ∧ row_network_id row = network_id_of network
  ∧ row_wallet_address row = toLowerCase (wb_address walletBalance).
Proof.
  unfold writtenRows. rewrite elem_of_cons, list_elem_of_fmap.
  intros [-> | (token & -> & _)]; repeat split.
Qed.

(** C4. Upsert last-write-wins.  On a table with at most one row per key,
    two successive writes of wallet balances (of a configured network, with
    valid addresses) both commit.  After each of them the table still has at
    most one row per key and every earlier key is still present.  For every
    key the second write stores, whatever was stored under it before, the
    first write's values included, exactly one row carries the key, and it
    holds the symbol, balance, block number and timestamp of the second
    write. *)
Theorem saveBalances_last_write_wins (config : Config) (network1 network2 : Network)
    (write1 write2 : WalletBalance) (blockNumber1 blockNumber2 : Z)
    (dateStr1 dateStr2 : string) (timestamp1 timestamp2 : Z) (w : World) :
  uniqueKeys (balances w) →
  findNetwork config (wb_network write1) = Some network1 →
  validBalance write1 →
  findNetwork config (wb_network write2) = Some network2 →
  validBalance write2 →
  ∃ w1 w2,
    BalanceDatabase.saveBalances config write1 blockNumber1 dateStr1 timestamp1 w
      = (Returned tt, w1)
    ∧ BalanceDatabase.saveBalances config write2 blockNumber2 dateStr2 timestamp2 w1
      = (Returned tt, w2)
    ∧ uniqueKeys (balances w1) ∧ uniqueKeys (balances w2)
    ∧ keysOf (balances w) ⊆ keysOf (balances w1)
    ∧ keysOf (balances w1) ⊆ keysOf (balances w2)
    ∧ ∀ key new,
        lastWithKey key (writtenRows network2 write2 blockNumber2 dateStr2 timestamp2)
          = Some new →
        ∃ r, rowsFor key (balances w2) = [r]
             ∧ BalanceDatabase.indexKey r = key
             ∧ row_symbol r = row_symbol new
             ∧ row_balance r = row_balance new
             ∧ row_block_number r = blockNumber2
             ∧ row_timestamp r = timestamp2.
Proof.
  intros Hu Hf1 Hv1 Hf2 Hv2. eexists _, _.
  split; [apply (saveBalances_run _ _ _ _ _ _ _ Hf1 Hv1) |].
  split; [apply (saveBalances_run _ _ _ _ _ _ _ Hf2 Hv2) |].
  cbn [balances].
  pose proof (applyRows_uniqueKeys _ (writtenRows network1 write1 blockNumber1 dateStr1 timestamp1) Hu)
    as Hu1.
  split; [exact Hu1 |]. split; [apply applyRows_uniqueKeys, Hu1 |].
  split; [apply applyRows_keys_subseteq |]. split; [apply applyRows_keys_subseteq |].
  intros key new Hlast.
  destruct (applyRows_rowsFor key _ _ new Hu1 Hlast) as (r & Hr & Hs & Hb & Hn & Ht).
  exists r. split; [exact Hr |].
  apply lastWithKey_elem_of, writtenRows_stamp in Hlast as (Hbn & Hts & _).
  split.
  - assert (Hin : List.In r (rowsFor key (applyRows
                     (applyRows (balances w)
                        (writtenRows network1 write1 blockNumber1 dateStr1 timestamp1))
                     (writtenRows network2 write2 blockNumber2 dateStr2 timestamp2))))
      by (rewrite Hr; left; reflexivity).
    apply List.filter_In in Hin as [_ Hk]. apply bool_decide_eq_true_1 in Hk. exact Hk.
  - repeat split; congruence.
Qed.

End Persistence.

Lemma saveBalances_last_write_wins_witness :
  ∃ w1 w2,
    @BalanceDatabase.saveBalances strictViem demoConfig firstWrite 100 "2024-01-01"
      1704153540000 emptyWorld = (Returned tt, w1)
    ∧ @BalanceDatabase.saveBalances strictViem demoConfig secondWrite 200 "2024-01-01"
        1704153590000 w1 = (Returned tt, w2)
    ∧ length (balances w1) = 2%nat
    ∧ ∃ r, rowsFor ("0x00000000000000000000000000000000000000aa", 1,
                    "0xa0b86991c6218b36c1d19d4a2e9eb0ce3606eb48", "2024-01-01") (balances w2)
           = [r]
           ∧ row_symbol r = "USDC" ∧ row_balance r = "11"
           ∧ row_block_number r = 200 ∧ row_timestamp r = 1704153590000.
Proof.
  destruct (@saveBalances_last_write_wins strictViem demoConfig ethereum ethereum
              firstWrite secondWrite 100 200 "2024-01-01" "2024-01-01"
              1704153540000 1704153590000 emptyWorld)
    as (w1 & w2 & H1 & H2 & _ & _ & _ & _ & Hrow).
  - apply NoDup_nil_2.
  - reflexivity.
  - split; [reflexivity | repeat constructor].
  - reflexivity.
  - split; [reflexivity | repeat constructor].
  - exists w1, w2. split; [exact H1 |]. split; [exact H2 |].
    split.
    { pose proof (f_equal snd H1) as Hw1. change (snd (Returned tt, w1)) with w1 in Hw1.
      rewrite <- Hw1. vm_compute. reflexivity. }
    destruct (Hrow ("0x00000000000000000000000000000000000000aa", 1,
                    "0xa0b86991c6218b36c1d19d4a2e9eb0ce3606eb48", "2024-01-01")
                   (mkBalanceRow "0x00000000000000000000000000000000000000aa" 1
                      "0xa0b86991c6218b36c1d19d4a2e9eb0ce3606eb48" "USDC" "11" 200
                      1704153590000 "2024-01-01") eq_refl)
      as (r & Hr & _ & Hs & Hb & Hn & Ht).
    exists r. auto.
Defined.

(** ** Batched fetching *)

(** C2 as stated fails: twelve wallets are fetched in three batches of 5, 5
    and 2 wallets, but every wallet balance is saved in a transaction of its
    own, twelve in all. *)
Lemma fetchAndSaveWalletBatches_twelve_transactions :
  let '(outcome, w', rest) :=
    @WalletTracker.fetchAndSaveWalletBatches strictViem demoTracker twelveWallets ethereum
      1000 "2024-01-01" 13000000
      (replicate 3 (RateLimiterManager.TokenRemoved true)) emptyWorld in
  outcome = Returned tt ∧ rest = [] ∧ fetchBatches w' = [5; 5; 2]%nat
  ∧ transactions w' = 12%nat ∧ transactions w' ≠ 3%nat ∧ length (balances w') = 24%nat.
Proof. vm_compute. repeat split; discriminate. Qed.

Lemma nativeReads_allCalls (standardizedWallets : list Wallet) (network : Network) :
  nativeReads (allCalls standardizedWallets network) = length standardizedWallets.
Proof.
  unfold nativeReads, allCalls. rewrite List.filter_app, length_app.
  assert (Hnative : ∀ l : list Wallet,
            length (List.filter (λ c, bool_decide (call_functionName c = "getEthBalance"))
                      (nativeBalanceCall <$> l)) = length l).
  { induction l as [| x l IH]; [reflexivity |].
    rewrite fmap_cons. cbn [List.filter nativeBalanceCall call_functionName].
    rewrite bool_decide_eq_true_2 by reflexivity. cbn [length]. rewrite IH. reflexivity. }
  assert (Htoken : ∀ (token : Token) (l : list Wallet),
            List.filter (λ c, bool_decide (call_functionName c = "getEthBalance"))
              (tokenBalanceCall token <$> l) = []).
  { intros token. induction l as [| x l IH]; [reflexivity |].
    rewrite fmap_cons. cbn [List.filter tokenBalanceCall call_functionName].
    rewrite bool_decide_eq_false_2 by discriminate. exact IH. }
  rewrite Hnative.
  induction (tokens network) as [| token rest IH]; [cbn; lia |].
  cbn [mbind list_bind]. rewrite List.filter_app, Htoken. exact IH.
Qed.

Section Batches.
Context `{Viem}.
Variable tracker : WalletTracker.Tracker.
Variable network : Network.
Variables (blockNumber : Z) (dateStr : string) (blockTimestampDate : Z).
Variable limiter : RateLimiterManager.RateLimiter.
Variable client : Client.
Variable configured : Network.

(** viem accepts the lower-case form of every address it accepts. *)
Hypothesis lowerCaseAccepted : ∀ address, isAddress address = true → isAddress (toLowerCase address) = true.
Hypothesis limiterExists : WalletTracker.rateLimiter tracker !! network_id_of network = Some limiter.
Hypothesis clientExists : WalletTracker.clients tracker !! network_id_of network = Some client.
Hypothesis networkConfigured :
  findNetwork (WalletTracker.config tracker) (network_name network) = Some configured.
Hypothesis tokensValid : Forall (λ token, isAddress (token_address token) = true) (tokens network).
(** The endpoint returns one result entry per call. *)
Hypothesis endpointAnswers :
  ∀ contracts b, ∃ results,
    client_multicall client contracts b = Returned results ∧ length results = length contracts.

Lemma decodedBalance_valid (n : nat) (results : list (option Z)) (i : nat) (wallet : Wallet) :
  validWallet wallet →
  validBalance (decodedBalance network n results i (standardized wallet)).
Proof.
  intros Hvalid. split; [apply lowerCaseAccepted, Hvalid |]. cbn.
  apply Forall_forall. intros tokenBalance Hin.
  apply elem_of_lookup_imap_1 in Hin as (j & token & -> & Hj). cbn.
  rewrite Forall_forall in tokensValid. apply tokensValid.
  eapply list_elem_of_lookup_2, Hj.
Qed.

Lemma saveAll_run (walletBalances : list WalletBalance) :
  Forall (λ b, validBalance b ∧ wb_network b = network_name network) walletBalances →
  ∀ w, ∃ done w',
    mapM (λ balance,
            BalanceDatabase.saveBalances (WalletTracker.config tracker) balance blockNumber
                                         dateStr blockTimestampDate)
         walletBalances w = (Returned done, w')
    ∧ transactions w' = (transactions w + length walletBalances)%nat
    ∧ omap batchOf (events w') = omap batchOf (events w).
Proof.
  induction 1 as [| b rest [Hvalid Hname] _ IH]; intros w.
  - exists [], w. split; [reflexivity |]. split; [cbn [length]; lia | reflexivity].
  - cbn [mapM]. rewrite <- Hname in networkConfigured.
    rewrite (bind_step _ _ _ _ _ (saveBalances_run _ _ _ _ _ _ w networkConfigured Hvalid)).
    destruct (IH (mkWorld (applyRows (balances w)
                             (writtenRows configured b blockNumber dateStr blockTimestampDate))
                          (block_mapping w)
                          (Emitted "balancesChanged" :: TransactionCommitted :: events w)))
      as (done & w' & Hrun & Htx & Hbatches).
    rewrite (bind_step _ _ _ _ _ Hrun). eexists _, w'. split; [reflexivity |].
    rewrite Htx, Hbatches.
    split; [unfold transactions, transactionsOf;
            cbn [events List.filter isTransaction length]; lia | reflexivity].
Qed.

Lemma batchLoop_done (wallets : list Wallet) (fuel i : nat)
    (acquisitions : list RateLimiterManager.Acquisition) (w : World) :
  (length wallets ≤ i)%nat →
  WalletTracker.batchLoop tracker wallets network blockNumber dateStr blockTimestampDate
    fuel i acquisitions w = (Returned tt, w, acquisitions).
Proof.
  intros Hle. destruct fuel; cbn [WalletTracker.batchLoop];
    rewrite (proj2 (Nat.ltb_ge _ _) Hle); reflexivity.
Qed.

Lemma batchLoop_unfold (wallets : list Wallet) (fuel i : nat)
    (acquisitions : list RateLimiterManager.Acquisition) (w : World) :
  WalletTracker.batchLoop tracker wallets network blockNumber dateStr blockTimestampDate
    (S fuel) i acquisitions w
  = if (i <? length wallets)%nat then
      match RateLimiterManager.execute (WalletTracker.rateLimiter tracker)
              (network_id_of network)
              (WalletTracker.fetchBatch tracker
                 (take WALLET_BALANCE_BATCH_SIZE (drop i wallets)) network blockNumber)
              "getWalletsBalances" acquisitions w with
      | (Returned balances, w', acquisitions') =>
          match mapM (λ balance,
                        BalanceDatabase.saveBalances (WalletTracker.config tracker) balance
                          blockNumber dateStr blockTimestampDate)
                     balances w' with
          | (Returned _, w'') =>
              WalletTracker.batchLoop tracker wallets network blockNumber dateStr
                blockTimestampDate fuel (i + WALLET_BALANCE_BATCH_SIZE)%nat acquisitions' w''
          | (Threw e, w'') => (Threw e, w'', acquisitions')
          | (Pending, w'') => (Pending, w'', acquisitions')
          end
      | (Threw e, w', acquisitions') => (Threw e, w', acquisitions')
      | (Pending, w', acquisitions') => (Pending, w', acquisitions')
      end
    else (Returned tt, w, acquisitions).
Proof. reflexivity. Qed.

(** [length wallets - i] iterations are enough: more fuel changes nothing. *)
Lemma batchLoop_fuel (wallets : list Wallet) (fuel : nat) :
  ∀ (i : nat) (acquisitions : list RateLimiterManager.Acquisition) (w : World),
    (length wallets - i ≤ fuel)%nat →
    WalletTracker.batchLoop tracker wallets network blockNumber dateStr blockTimestampDate
      (S fuel) i acquisitions w
    = WalletTracker.batchLoop tracker wallets network blockNumber dateStr blockTimestampDate
        fuel i acquisitions w.
Proof.
  induction fuel as [| fuel IH]; intros i acquisitions w Hle.
  - rewrite !batchLoop_done by lia. reflexivity.
  - rewrite (batchLoop_unfold wallets (S fuel)), (batchLoop_unfold wallets fuel).
    destruct (i <? length wallets)%nat eqn:Hi; [| reflexivity].
    destruct (RateLimiterManager.execute _ _ _ _ _ _) as [[[balances | e |] w'] acquisitions'];
      try reflexivity.
    match goal with
    | |- context [match ?saved with _ => _ end] =>
        destruct saved as [[done | e |] w'']; try reflexivity
    end.
    apply IH. unfold WALLET_BALANCE_BATCH_SIZE. lia.
Qed.

(** One iteration of the loop: one acquisition, one multicall for the batch,
    one transaction per wallet of the batch. *)
Lemma batchLoop_step (wallets : list Wallet) (fuel i : nat)
    (rest : list RateLimiterManager.Acquisition) (w : World) :
  Forall validWallet wallets →
  (i < length wallets)%nat →
  ∃ w1,
    WalletTracker.batchLoop tracker wallets network blockNumber dateStr blockTimestampDate
      (S fuel) i (RateLimiterManager.TokenRemoved true :: rest) w
    = WalletTracker.batchLoop tracker wallets network blockNumber dateStr blockTimestampDate
        fuel (i + WALLET_BALANCE_BATCH_SIZE)%nat rest w1
    ∧ transactions w1
      = (transactions w + length (take WALLET_BALANCE_BATCH_SIZE (drop i wallets)))%nat
    ∧ fetchBatches w1
      = (fetchBatches w ++ [length (take WALLET_BALANCE_BATCH_SIZE (drop i wallets))])%list.
Proof.
  intros Hvalid Hi. cbn [WalletTracker.batchLoop].
  rewrite (proj2 (Nat.ltb_lt _ _) Hi).
  set (batch := take WALLET_BALANCE_BATCH_SIZE (drop i wallets)).
  assert (Hbatch : Forall validWallet batch).
  { apply Forall_take, Forall_drop, Hvalid. }
  destruct (endpointAnswers (allCalls (standardized <$> batch) network) blockNumber)
    as (results & Hresults & Hlen).
  rewrite allCalls_length, length_fmap in Hlen.
  pose proof (getWalletsBalances_run client batch network blockNumber results
                (record (OperationInvoked "getWalletsBalances") w) Hbatch Hresults
                ltac:(lia)) as Hfetch.
  cbn [RateLimiterManager.execute]. rewrite limiterExists.
  unfold RateLimiterManager.attempt. rewrite bind_unfold. cbn [emit].
  unfold WalletTracker.fetchBatch. rewrite clientExists, Hfetch.
  destruct (saveAll_run (imap (decodedBalance network (length batch) results)
                              (standardized <$> batch))) with
    (w := record (RpcMulticall (client_chain client) (allCalls (standardized <$> batch) network)
                    blockNumber) (record (OperationInvoked "getWalletsBalances") w))
    as (done & w1 & Hsave & Htx & Hbatches).
  { apply Forall_forall. intros b Hb.
    apply elem_of_lookup_imap_1 in Hb as (j & wallet & -> & Hj).
    apply list_lookup_fmap_Some in Hj as (wallet0 & -> & Hj).
    split; [| reflexivity]. apply decodedBalance_valid.
    rewrite Forall_forall in Hbatch. eapply Hbatch, list_elem_of_lookup_2, Hj. }
  rewrite Hsave. exists w1. split; [reflexivity |]. split.
  - rewrite Htx, length_imap, length_fmap. unfold transactions. cbn. reflexivity.
  - unfold fetchBatches. rewrite Hbatches.
    change (omap batchOf (events (record (RpcMulticall (client_chain client)
                                            (allCalls (standardized <$> batch) network)
                                            blockNumber)
                                    (record (OperationInvoked "getWalletsBalances") w))))
      with (nativeReads (allCalls (standardized <$> batch) network)
              :: omap batchOf (events w)).
    rewrite nativeReads_allCalls, length_fmap. apply reverse_cons.
Qed.

(** C2, as the code has it.  Twelve wallets with valid addresses, on a
    network that has a limiter, a client, a configuration entry and valid
    token addresses, with three acquisitions that succeed and an endpoint
    that returns one result per call: the call returns after exactly three
    multicalls, for batches of 5, 5 and 2 wallets, and exactly twelve
    transactions, one per wallet. *)
Theorem fetchAndSaveWalletBatches_twelve (wallets : list Wallet)
    (rest : list RateLimiterManager.Acquisition) (w : World) :
  length wallets = 12%nat →
  Forall validWallet wallets →
  ∃ w',
    WalletTracker.fetchAndSaveWalletBatches tracker wallets network blockNumber dateStr
      blockTimestampDate (replicate 3 (RateLimiterManager.TokenRemoved true) ++ rest) w
    = (Returned tt, w', rest)
    ∧ fetchBatches w' = (fetchBatches w ++ [5; 5; 2]%nat)%list
    ∧ transactions w' = (transactions w + 12)%nat.
Proof.
  intros Hlen Hvalid. unfold WalletTracker.fetchAndSaveWalletBatches. rewrite Hlen.
  cbn [replicate app].
  destruct (batchLoop_step wallets 11 0 (RateLimiterManager.TokenRemoved true
              :: RateLimiterManager.TokenRemoved true :: rest) w Hvalid ltac:(lia))
    as (w1 & -> & Htx1 & Hb1).
  destruct (batchLoop_step wallets 10 (0 + WALLET_BALANCE_BATCH_SIZE)
              (RateLimiterManager.TokenRemoved true :: rest) w1 Hvalid
              ltac:(unfold WALLET_BALANCE_BATCH_SIZE; lia))
    as (w2 & -> & Htx2 & Hb2).
  destruct (batchLoop_step wallets 9 (0 + WALLET_BALANCE_BATCH_SIZE + WALLET_BALANCE_BATCH_SIZE)
              rest w2 Hvalid ltac:(unfold WALLET_BALANCE_BATCH_SIZE; lia))
    as (w3 & -> & Htx3 & Hb3).
  rewrite batchLoop_done by (unfold WALLET_BALANCE_BATCH_SIZE; lia).
  exists w3. split; [reflexivity |].
  rewrite length_take, length_drop, Hlen in Htx1, Htx2, Htx3, Hb1, Hb2, Hb3.
  unfold WALLET_BALANCE_BATCH_SIZE in *. cbn in Htx1, Htx2, Htx3, Hb1, Hb2, Hb3.
  split.
  - rewrite Hb3, Hb2, Hb1, <- !app_assoc. reflexivity.
  - lia.
Qed.

End Batches.

Lemma isHexDigit_lowerAscii (c : ascii) : isHexDigit c = true → isHexDigit (lowerAscii c) = true.
Proof.
  destruct c as [[] [] [] [] [] [] [] []]; intros Hc; try discriminate Hc; reflexivity.
Qed.

Lemma toLowerCase_length (s : string) : String.length (toLowerCase s) = String.length s.
Proof. induction s as [| c s IH]; [reflexivity |]. cbn. rewrite IH. reflexivity. Qed.

Lemma toLowerCase_hexDigits (s : string) :
  forallb isHexDigit (list_ascii_of_string s) = true →
  forallb isHexDigit (list_ascii_of_string (toLowerCase s)) = true.
Proof.
  induction s as [| c s IH]; [reflexivity |].
  cbn [toLowerCase list_ascii_of_string forallb]. intros Hs.
  apply andb_true_iff in Hs as [Hc Hs]. rewrite (isHexDigit_lowerAscii c Hc), (IH Hs).
  reflexivity.
Qed.

(** The pattern check accepts the lower-case form of what it accepts. *)
Lemma matchesAddressPattern_toLowerCase (address : string) :
  matchesAddressPattern address = true → matchesAddressPattern (toLowerCase address) = true.
Proof.
  destruct address as [| c0 [| c1 digits]]; try discriminate.
  - destruct c0 as [[] [] [] [] [] [] [] []]; discriminate.
  - destruct c0 as [[] [] [] [] [] [] [] []]; try discriminate.
    destruct c1 as [[] [] [] [] [] [] [] []]; try discriminate.
    cbn [toLowerCase]. change (lowerAscii "0") with "0"%char.
    change (lowerAscii "x") with "x"%char. cbn [matchesAddressPattern].
    intros Hd. apply andb_true_iff in Hd as [Hlen Hhex].
    rewrite toLowerCase_length, Hlen, (toLowerCase_hexDigits _ Hhex). reflexivity.
Qed.

Lemma lowerAscii_idempotent (c : ascii) : lowerAscii (lowerAscii c) = lowerAscii c.
Proof. destruct c as [[] [] [] [] [] [] [] []]; reflexivity. Qed.

Lemma toLowerCase_idempotent (s : string) : toLowerCase (toLowerCase s) = toLowerCase s.
Proof.
  induction s as [| c s IH]; [reflexivity |].
  cbn [toLowerCase]. rewrite lowerAscii_idempotent, IH. reflexivity.
Qed.

(** viem's check accepts the lower-case form of what it accepts, without
    consulting the checksum. *)
Lemma viemIsAddress_toLowerCase (address : string) :
  viemIsAddress address = true → viemIsAddress (toLowerCase address) = true.
Proof.
  unfold viemIsAddress. destruct (matchesAddressPattern address) eqn:Hpattern; [| discriminate].
  intros _. rewrite (matchesAddressPattern_toLowerCase address Hpattern). cbn [negb].
  rewrite bool_decide_eq_true_2 by apply toLowerCase_idempotent. reflexivity.
Qed.

Lemma fetchAndSaveWalletBatches_twelve_witness :
  ∃ w',
    @WalletTracker.fetchAndSaveWalletBatches strictViem demoTracker twelveWallets ethereum
      1000 "2024-01-01" 13000000
      (replicate 3 (RateLimiterManager.TokenRemoved true) ++ []) emptyWorld
    = (Returned tt, w', [])
    ∧ fetchBatches w' = [5; 5; 2]%nat
    ∧ transactions w' = 12%nat.
Proof.
  apply (@fetchAndSaveWalletBatches_twelve strictViem demoTracker ethereum 1000 "2024-01-01"
           13000000 (RateLimiterManager.mkRateLimiter 10 "second" true) answeringClient
           ethereum).
  - exact viemIsAddress_toLowerCase.
  - reflexivity.
  - reflexivity.
  - reflexivity.
  - repeat constructor.
  - intros contracts b. eexists. split; [reflexivity | apply length_fmap].
  - reflexivity.
  - repeat constructor.
Defined.

(** ** The block-mapping cache *)

(** A cached block other than block 0 is returned without touching the
    chain or the world. *)
Lemma getBlockNumberForDate_cached (tracker : WalletTracker.Tracker) (date networkId : Z)
    (cached timestamp : Z) (w : World) :
  block_mapping w !! (networkId, toISODateString date) = Some (cached, timestamp) →
  cached ≠ 0 →
  WalletTracker.getBlockNumberForDate tracker date networkId w = (Returned cached, w).
Proof.
  intros Hcached Hne. unfold WalletTracker.getBlockNumberForDate.
  rewrite bind_unfold. unfold BalanceDatabase.getBlockNumberForDate at 1.
  rewrite Hcached. cbn [fmap option_fmap option_map fst WalletTracker.truthyBlock].
  rewrite (proj2 (Z.eqb_neq _ _) Hne). reflexivity.
Qed.

(** A resolution that went to the chain and found a block other than block
    0 stores it; every later resolution of the date, on any state of the
    chain, returns the stored block and leaves the world, its trace
    included, as it is. *)
Lemma getBlockNumberForDate_idempotent (tracker later : WalletTracker.Tracker) (client : Client)
    (date networkId : Z) (r : ResolvedBlock) (w w1 : World) :
  WalletTracker.clients tracker !! networkId = Some client →
  WalletTracker.truthyBlock (fst <$> block_mapping w !! (networkId, toISODateString date))
    = false →
  findBlockNumberForTimestamp client (setUTCHours date 23 59 59 999 / 1000) networkId w
    = (Returned r, w1) →
  blockNumber r ≠ 0 →
  ∃ w2,
    WalletTracker.getBlockNumberForDate tracker date networkId w = (Returned (blockNumber r), w2)
    ∧ block_mapping w2 !! (networkId, toISODateString date)
      = Some (blockNumber r, blockTimestamp r)
    ∧ WalletTracker.getBlockNumberForDate later date networkId w2
      = (Returned (blockNumber r), w2).
Proof.
  intros Hclient Hmiss Hfind Hne. eexists. split; [| split].
  - unfold WalletTracker.getBlockNumberForDate. rewrite bind_unfold.
    unfold BalanceDatabase.getBlockNumberForDate at 1. rewrite Hmiss.
    unfold tryCatch, WalletTracker.withClient. rewrite Hclient, bind_unfold, Hfind.
    reflexivity.
  - cbn [block_mapping record]. apply lookup_insert_eq.
  - eapply getBlockNumberForDate_cached; [| exact Hne].
    cbn [block_mapping record]. apply lookup_insert_eq.
Qed.

(** C5, as the code has it.  When the end-of-day target is after the
    timestamp of the current block, [findBlockNumberForTimestamp] returns
    the current block with its timestamp after two chain calls, and
    [getBlockNumberForDate], unless a cached block other than 0 exists,
    returns that block number and stores the current block as the block
    mapping of the date. *)
Theorem future_date_resolution (tracker : WalletTracker.Tracker) (client : Client)
    (date networkId currentBlock currentTimestamp : Z) (w : World) :
  WalletTracker.clients tracker !! networkId = Some client →
  client_getBlockNumber client = Returned currentBlock →
  client_getBlock client currentBlock = Returned currentTimestamp →
  currentTimestamp < setUTCHours date 23 59 59 999 / 1000 →
  WalletTracker.truthyBlock (fst <$> block_mapping w !! (networkId, toISODateString date))
    = false →
  findBlockNumberForTimestamp client (setUTCHours date 23 59 59 999 / 1000) networkId w
  = (Returned (mkResolvedBlock currentBlock currentTimestamp),
     record (RpcGetBlock (client_chain client) currentBlock)
            (record (RpcBlockNumber (client_chain client)) w))
  ∧ WalletTracker.getBlockNumberForDate tracker date networkId w
    = (Returned currentBlock,
       mkWorld (balances w)
               (<[(networkId, toISODateString date) := (currentBlock, currentTimestamp)]>
                  (block_mapping w))
               (Emitted "blockMappingChanged"
                  :: RpcGetBlock (client_chain client) currentBlock
                  :: RpcBlockNumber (client_chain client) :: events w)).
Proof.
  intros Hclient Hcur HcurTs Hfuture Hmiss.
  assert (Hfind : ∀ w0,
    findBlockNumberForTimestamp client (setUTCHours date 23 59 59 999 / 1000) networkId w0
    = (Returned (mkResolvedBlock currentBlock currentTimestamp),
       record (RpcGetBlock (client_chain client) currentBlock)
              (record (RpcBlockNumber (client_chain client)) w0))).
  { intros w0. unfold findBlockNumberForTimestamp.
    rewrite (bind_step _ _ _ _ _
               (eq_trans (getBlockNumber_unfold _ _) (f_equal (λ o, (o, _)) Hcur))).
    rewrite (bind_step _ _ _ _ _
               (eq_trans (getBlock_unfold _ _ _) (f_equal (λ o, (o, _)) HcurTs))).
    rewrite (proj2 (Z.gtb_lt _ _) Hfuture). reflexivity. }
  split; [apply Hfind |].
  unfold WalletTracker.getBlockNumberForDate. rewrite bind_unfold.
  unfold BalanceDatabase.getBlockNumberForDate at 1. rewrite Hmiss.
  unfold tryCatch, WalletTracker.withClient. rewrite Hclient, bind_unfold, Hfind.
  reflexivity.
Qed.

Lemma future_date_resolution_witness :
  findBlockNumberForTimestamp fixtureClient
    (setUTCHours (utcTime 2024 1 1 0 0 0 0) 23 59 59 999 / 1000) 1 emptyWorld
  = (Returned (mkResolvedBlock 1000 13000),
     record (RpcGetBlock 1 1000) (record (RpcBlockNumber 1) emptyWorld))
  ∧ WalletTracker.getBlockNumberForDate fixtureTracker (utcTime 2024 1 1 0 0 0 0) 1 emptyWorld
    = (Returned 1000,
       mkWorld [] (<[(1, toISODateString (utcTime 2024 1 1 0 0 0 0)) := (1000, 13000)]> ∅)
               [Emitted "blockMappingChanged"; RpcGetBlock 1 1000; RpcBlockNumber 1]).
Proof.
  apply (future_date_resolution fixtureTracker fixtureClient (utcTime 2024 1 1 0 0 0 0) 1
           1000 13000 emptyWorld).
  - reflexivity.
  - reflexivity.
  - reflexivity.
  - vm_compute. reflexivity.
  - reflexivity.
Defined.

(** C5 as stated fails: resolving 2024-01-01 on a chain whose latest block
    is older than the end of that day stores the current block as the
    mapping of the date, and a later resolution, when the chain has grown,
    returns the stored block without a chain call. *)
Lemma future_date_mapping_is_persisted :
  let date := utcTime 2024 1 1 0 0 0 0 in
  let '(first, w1) := WalletTracker.getBlockNumberForDate fixtureTracker date 1 emptyWorld in
  let '(second, w2) := WalletTracker.getBlockNumberForDate laterTracker date 1 w1 in
  first = Returned 1000
  ∧ block_mapping w1 !! (1, "2024-01-01") = Some (1000, 13000)
  ∧ block_mapping w1 !! (1, "2024-01-01") ≠ None
  ∧ second = Returned 1000
  ∧ chainCalls w2 = chainCalls w1.
Proof. vm_compute. repeat split; discriminate. Qed.

(** C9 at the failing input: on the young chain 2024-01-01 resolves to block
    0, which is stored; the second resolution reads the stored block 0,
    takes it for absent, and walks the chain again with four more chain
    calls. *)
Lemma getBlockNumberForDate_block_zero_requeried :
  let date := utcTime 2024 1 1 0 0 0 0 in
  let '(first, w1) := WalletTracker.getBlockNumberForDate youngTracker date 1 emptyWorld in
  let '(second, w2) := WalletTracker.getBlockNumberForDate youngTracker date 1 w1 in
  first = Returned 0
  ∧ block_mapping w1 !! (1, "2024-01-01") = Some (0, 1704153589)
  ∧ BalanceDatabase.getBlockNumberForDate 1 "2024-01-01" w1 = (Returned (Some 0), w1)
  ∧ second = Returned 0
  ∧ chainCalls w1 = 4%nat
  ∧ chainCalls w2 = 8%nat.
Proof. vm_compute. repeat split. Qed.

(** * Further properties of the code *)

(** ** The cost and the exactness of block resolution *)

Lemma chainCalls_getBlock (client : Client) (b : Z) (w : World) :
  chainCalls (record (RpcGetBlock (client_chain client) b) w) = S (chainCalls w).
Proof. reflexivity. Qed.

Lemma chainCalls_getBlockNumber (client : Client) (w : World) :
  chainCalls (record (RpcBlockNumber (client_chain client)) w) = S (chainCalls w).
Proof. reflexivity. Qed.

Lemma walkBackwards_exact (client : Client) (T : Z) (fuel : nat) :
  ∀ (bn ts : Z) (w w' : World) (r : ResolvedBlock),
    client_getBlock client bn = Returned ts →
    walkBackwards client T fuel bn ts w = (Returned r, w') →
    blockNumber r ≤ bn
    ∧ (∀ b t, blockNumber r < b ≤ bn → client_getBlock client b = Returned t → T < t)
    ∧ (blockTimestamp r ≤ T ∨ blockNumber r ≤ 0)
    ∧ chainCalls w' = (chainCalls w + Z.to_nat (bn - blockNumber r))%nat.
Proof.
  induction fuel as [| fuel IH]; intros bn ts w w' r Hts; cbn [walkBackwards];
    destruct ((ts >? T) && (bn >? 0)) eqn:Hc; try discriminate.
  - intros [= <- <-]. cbn [blockNumber blockTimestamp]. apply andb_false_iff in Hc.
    repeat split; [lia | intros; lia | destruct Hc; lia | rewrite Z.sub_diag; cbn; lia].
  - intros E. apply bind_Returned in E as (ts' & w1 & E1 & E2).
    apply getBlock_Returned in E1 as [E1 ->].
    apply andb_true_iff in Hc as [Hc1 Hc2].
    destruct (IH _ _ _ _ _ E1 E2) as (Hle & Hafter & Hend & Hcalls).
    repeat split; [lia | | exact Hend |].
    + intros b t Hb Hbt. destruct (decide (b = bn)) as [-> | Hne].
      * rewrite Hts in Hbt. injection Hbt as <-. lia.
      * apply (Hafter b t); [lia | exact Hbt].
    + rewrite Hcalls, chainCalls_getBlock. lia.
  - intros [= <- <-]. cbn [blockNumber blockTimestamp]. apply andb_false_iff in Hc.
    repeat split; [lia | intros; lia | destruct Hc; lia | rewrite Z.sub_diag; cbn; lia].
Qed.

(** X1. When the estimated block is after the target, the block returned
    is the greatest block at or below the estimate whose timestamp is at or
    before the target (or block 0 or the estimate itself when the walk cannot
    go further), and the resolution costs three chain calls plus one per
    block walked. *)
Theorem findBlockNumberForTimestamp_walk_exact
    (client : Client) (T networkId currentBlock currentTimestamp estimatedTimestamp : Z)
    (w w' : World) (r : ResolvedBlock) :
  client_getBlockNumber client = Returned currentBlock →
  client_getBlock client currentBlock = Returned currentTimestamp →
  T ≤ currentTimestamp →
  client_getBlock client (estimateBlock currentBlock currentTimestamp T networkId)
    = Returned estimatedTimestamp →
  T < estimatedTimestamp →
  findBlockNumberForTimestamp client T networkId w = (Returned r, w') →
  blockNumber r ≤ estimateBlock currentBlock currentTimestamp T networkId
  ∧ (∀ b t, blockNumber r < b ≤ estimateBlock currentBlock currentTimestamp T networkId →
            client_getBlock client b = Returned t → T < t)
  ∧ (blockTimestamp r ≤ T ∨ blockNumber r ≤ 0)
  ∧ chainCalls w'
    = (chainCalls w + 3
       + Z.to_nat (estimateBlock currentBlock currentTimestamp T networkId - blockNumber r))%nat.
Proof.
  intros Hcur HcurTs HT Hest Hafter. unfold findBlockNumberForTimestamp.
  rewrite (bind_step _ _ _ _ _ (eq_trans (getBlockNumber_unfold _ _) (f_equal (λ o, (o, _)) Hcur))).
  rewrite (bind_step _ _ _ _ _ (eq_trans (getBlock_unfold _ _ _) (f_equal (λ o, (o, _)) HcurTs))).
  rewrite Z.gtb_ltb, (proj2 (Z.ltb_ge _ _) HT).
  rewrite (bind_step _ _ _ _ _ (eq_trans (getBlock_unfold _ _ _) (f_equal (λ o, (o, _)) Hest))).
  rewrite (proj2 (Z.gtb_lt _ _) Hafter).
  intros E. destruct (walkBackwards_exact _ _ _ _ _ _ _ _ Hest E) as (H1 & H2 & H3 & H4).
  repeat split; try assumption.
  rewrite H4, chainCalls_getBlock, chainCalls_getBlock, chainCalls_getBlockNumber. lia.
Qed.

Lemma findBlockNumberForTimestamp_walk_exact_witness :
  let w' := snd (findBlockNumberForTimestamp briskClient 1500 1 emptyWorld) in
  500 ≤ estimateBlock 1000 2000 1500 1
  ∧ (∀ b t, 500 < b ≤ estimateBlock 1000 2000 1500 1 →
            client_getBlock briskClient b = Returned t → 1500 < t)
  ∧ (1500 ≤ 1500 ∨ 500 ≤ 0)
  ∧ chainCalls w' = (chainCalls emptyWorld + 3 + Z.to_nat (estimateBlock 1000 2000 1500 1 - 500))%nat.
Proof.
  intros w'.
  apply (findBlockNumberForTimestamp_walk_exact briskClient 1500 1 1000 2000 1959 emptyWorld w'
           (mkResolvedBlock 500 1500)).
  - reflexivity.
  - reflexivity.
  - lia.
  - reflexivity.
  - lia.
  - vm_compute. reflexivity.
Defined.

Lemma linearSearch_calls (client : Client) (T direction : Z) (steps : nat) :
  ∀ (s : Search) (w w' : World) (o : Outcome Search),
    linearSearch client T direction steps s w = (o, w') →
    (chainCalls w ≤ chainCalls w' ≤ chainCalls w + steps)%nat.
Proof.
  induction steps as [| steps IH]; intros s w w' o; cbn [linearSearch].
  - intros [= _ <-]. lia.
  - rewrite bind_unfold, getBlock_unfold.
    destruct (client_getBlock client (currentBlockNumber s + direction)) as [ts | e |].
    + destruct (ts <=? T); cbn;
        destruct (Z.abs (ts - T) <? Z.abs (closestDiff s));
        try destruct (Z.abs (ts - T) <=? oneHour);
        try (intros [= _ <-]; rewrite chainCalls_getBlock; lia);
        intros E; apply IH in E; rewrite chainCalls_getBlock in E; lia.
    + intros [= _ <-]. rewrite chainCalls_getBlock. lia.
    + intros [= _ <-]. rewrite chainCalls_getBlock. lia.
Qed.

(** X2. When the estimated block is not after the target, the resolution
    is bounded whatever the chain looks like and whatever its outcome: at
    least 3 and at most 104 chain calls (latest block, its data, the
    estimate, at most 100 search steps, the final read).  An estimate within
    one hour of the target is returned as it is after exactly 3 calls. *)
Theorem findBlockNumberForTimestamp_bounded
    (client : Client) (T networkId currentBlock currentTimestamp estimatedTimestamp : Z)
    (w w' : World) (o : Outcome ResolvedBlock) :
  client_getBlockNumber client = Returned currentBlock →
  client_getBlock client currentBlock = Returned currentTimestamp →
  T ≤ currentTimestamp →
  client_getBlock client (estimateBlock currentBlock currentTimestamp T networkId)
    = Returned estimatedTimestamp →
  estimatedTimestamp ≤ T →
  findBlockNumberForTimestamp client T networkId w = (o, w') →
  (chainCalls w + 3 ≤ chainCalls w' ≤ chainCalls w + 104)%nat
  ∧ (T - estimatedTimestamp ≤ 3600 →
     o = Returned (mkResolvedBlock (estimateBlock currentBlock currentTimestamp T networkId)
                                   estimatedTimestamp)
     ∧ chainCalls w' = (chainCalls w + 3)%nat).
Proof.
  intros Hcur HcurTs HT Hest Hbefore. unfold findBlockNumberForTimestamp.
  rewrite (bind_step _ _ _ _ _ (eq_trans (getBlockNumber_unfold _ _) (f_equal (λ o, (o, _)) Hcur))).
  rewrite (bind_step _ _ _ _ _ (eq_trans (getBlock_unfold _ _ _) (f_equal (λ o, (o, _)) HcurTs))).
  rewrite Z.gtb_ltb, (proj2 (Z.ltb_ge _ _) HT).
  rewrite (bind_step _ _ _ _ _ (eq_trans (getBlock_unfold _ _ _) (f_equal (λ o, (o, _)) Hest))).
  rewrite Z.gtb_ltb, (proj2 (Z.ltb_ge _ _) Hbefore).
  set (est := estimateBlock currentBlock currentTimestamp T networkId).
  set (w3 := record (RpcGetBlock (client_chain client) est) _).
  assert (Hw3 : chainCalls w3 = (chainCalls w + 3)%nat).
  { unfold w3. rewrite !chainCalls_getBlock, chainCalls_getBlockNumber. lia. }
  destruct (Z.abs (estimatedTimestamp - T) <=? oneHour) eqn:Hclose.
  - intros [= <- <-]. rewrite Hw3. split; [lia | auto].
  - assert (Hfar : ¬ T - estimatedTimestamp ≤ 3600).
    { apply Z.leb_gt in Hclose. unfold oneHour in Hclose. lia. }
    intros E. split; [| intros; contradiction].
    rewrite bind_unfold in E.
    destruct (linearSearch client T 1 100 _ w3) as [[s | e |] w4] eqn:Hsearch;
      apply linearSearch_calls in Hsearch.
    + rewrite bind_unfold, getBlock_unfold in E.
      assert (Hw' : w' = record (RpcGetBlock (client_chain client) (closestBlock s)) w4).
      { destruct (client_getBlock client (closestBlock s)) as [ft | e |];
          [destruct (ft >? T) |..]; injection E as _ <-; reflexivity. }
      rewrite Hw', chainCalls_getBlock. lia.
    + injection E as _ <-. lia.
    + injection E as _ <-. lia.
Qed.

Lemma findBlockNumberForTimestamp_bounded_witness :
  let '(o, w') := findBlockNumberForTimestamp sluggishClient 190000 1 emptyWorld in
  (chainCalls emptyWorld + 3 ≤ chainCalls w' ≤ chainCalls emptyWorld + 104)%nat
  ∧ (190000 - 116700 ≤ 3600 →
     o = Returned (mkResolvedBlock (estimateBlock 1000 200000 190000 1) 116700)
     ∧ chainCalls w' = (chainCalls emptyWorld + 3)%nat).
Proof.
  destruct (findBlockNumberForTimestamp sluggishClient 190000 1 emptyWorld) as [o w'] eqn:E.
  apply (findBlockNumberForTimestamp_bounded sluggishClient 190000 1 1000 200000 116700
           emptyWorld w' o).
  - reflexivity.
  - reflexivity.
  - lia.
  - reflexivity.
  - lia.
  - exact E.
Defined.

(** ** Resolution failures *)

Lemma sameTables_refl (w : World) : sameTables w w.
Proof. split; reflexivity. Qed.

Lemma sameTables_trans (w1 w2 w3 : World) :
  sameTables w1 w2 → sameTables w2 w3 → sameTables w1 w3.
Proof. intros [A1 B1] [A2 B2]. split; congruence. Qed.

Lemma readOnly_mret {A} (a : A) : readOnly (mret a : M A).
Proof. intros w o w' [= _ <-]. apply sameTables_refl. Qed.

Lemma readOnly_pending {A} : readOnly (pending : M A).
Proof. intros w o w' [= _ <-]. apply sameTables_refl. Qed.

Lemma readOnly_bind {A B} (m : M A) (f : A → M B) :
  readOnly m → (∀ a, readOnly (f a)) → readOnly (m ≫= f).
Proof.
  intros Hm Hf w o w'. rewrite bind_unfold. destruct (m w) as [[a | e |] w1] eqn:E.
  - intros Ef. eapply sameTables_trans; [eapply Hm, E | eapply Hf, Ef].
  - intros [= _ <-]. eapply Hm, E.
  - intros [= _ <-]. eapply Hm, E.
Qed.

Lemma readOnly_getBlock (client : Client) (b : Z) : readOnly (getBlock client b).
Proof. intros w o w'. rewrite getBlock_unfold. intros [= _ <-]. split; reflexivity. Qed.

Lemma readOnly_getBlockNumber (client : Client) : readOnly (getBlockNumber client).
Proof. intros w o w'. rewrite getBlockNumber_unfold. intros [= _ <-]. split; reflexivity. Qed.

Lemma readOnly_walkBackwards (client : Client) (T : Z) (fuel : nat) :
  ∀ bn ts, readOnly (walkBackwards client T fuel bn ts).
Proof.
  induction fuel as [| fuel IH]; intros bn ts; cbn [walkBackwards];
    destruct ((ts >? T) && (bn >? 0));
    try apply readOnly_mret; try apply readOnly_pending.
  apply readOnly_bind; [apply readOnly_getBlock | intros; apply IH].
Qed.

Lemma readOnly_linearSearch (client : Client) (T direction : Z) (steps : nat) :
  ∀ s, readOnly (linearSearch client T direction steps s).
Proof.
  induction steps as [| steps IH]; intros s; cbn [linearSearch]; [apply readOnly_mret |].
  apply readOnly_bind; [apply readOnly_getBlock |]. intros ts.
  destruct (ts <=? T); cbn;
    destruct (Z.abs (ts - T) <? Z.abs (closestDiff s));
    try destruct (Z.abs (ts - T) <=? oneHour);
    try apply readOnly_mret; apply IH.
Qed.

(** The resolution of a timestamp never writes to the tables. *)
Lemma readOnly_findBlockNumberForTimestamp (client : Client) (T networkId : Z) :
  readOnly (findBlockNumberForTimestamp client T networkId).
Proof.
  unfold findBlockNumberForTimestamp.
  apply readOnly_bind; [apply readOnly_getBlockNumber |]. intros cur.
  apply readOnly_bind; [apply readOnly_getBlock |]. intros curTs.
  destruct (T >? curTs); [apply readOnly_mret |].
  apply readOnly_bind; [apply readOnly_getBlock |]. intros estTs.
  destruct (estTs >? T); [apply readOnly_walkBackwards |].
  destruct (Z.abs (estTs - T) <=? oneHour); [apply readOnly_mret |].
  apply readOnly_bind; [apply readOnly_linearSearch |]. intros s.
  apply readOnly_bind; [apply readOnly_getBlock |]. intros ft.
  destruct (ft >? T); apply readOnly_mret.
Qed.

(** X3. When the resolution of an uncached date fails with an error, the
    tracker falls back to one more read of the latest block number, whose
    outcome is the outcome of the call, and stores nothing: both tables are
    as before, so the date stays unresolved in the cache. *)
Theorem getBlockNumberForDate_fallback (tracker : WalletTracker.Tracker) (client : Client)
    (date networkId : Z) (error : Thrown) (w w1 : World) :
  WalletTracker.clients tracker !! networkId = Some client →
  WalletTracker.truthyBlock (fst <$> block_mapping w !! (networkId, toISODateString date))
    = false →
  findBlockNumberForTimestamp client (setUTCHours date 23 59 59 999 / 1000) networkId w
    = (Threw error, w1) →
  WalletTracker.getBlockNumberForDate tracker date networkId w
    = (client_getBlockNumber client, record (RpcBlockNumber (client_chain client)) w1)
  ∧ block_mapping w1 = block_mapping w
  ∧ balances w1 = balances w.
Proof.
  intros Hclient Hmiss Hfind. split.
  - unfold WalletTracker.getBlockNumberForDate. rewrite bind_unfold.
    unfold BalanceDatabase.getBlockNumberForDate at 1. rewrite Hmiss.
    unfold tryCatch, WalletTracker.withClient. rewrite Hclient, bind_unfold, Hfind.
    apply getBlockNumber_unfold.
  - destruct (readOnly_findBlockNumberForTimestamp _ _ _ _ _ _ Hfind) as [Hb Hm]. auto.
Qed.

Lemma getBlockNumberForDate_fallback_witness :
  let w1 := snd (findBlockNumberForTimestamp shortClient
                   (setUTCHours 0 23 59 59 999 / 1000) 1 emptyWorld) in
  WalletTracker.getBlockNumberForDate shortTracker 0 1 emptyWorld
    = (Returned 1000, record (RpcBlockNumber 1) w1)
  ∧ block_mapping w1 = ∅
  ∧ balances w1 = [].
Proof.
  intros w1.
  apply (getBlockNumberForDate_fallback shortTracker shortClient 0 1
           (ErrorObj "block not found") emptyWorld w1).
  - reflexivity.
  - reflexivity.
  - vm_compute. reflexivity.
Defined.

(** X4. As long as the latest block number of the network can be read,
    [getBlockNumberForDate] never fails: whatever goes wrong during the
    resolution, the caller gets a block number (or is still waiting). *)
Theorem getBlockNumberForDate_never_throws (tracker : WalletTracker.Tracker) (client : Client)
    (date networkId currentBlock : Z) (w w' : World) (o : Outcome Z) :
  WalletTracker.clients tracker !! networkId = Some client →
  client_getBlockNumber client = Returned currentBlock →
  WalletTracker.getBlockNumberForDate tracker date networkId w = (o, w') →
  ∀ error, o ≠ Threw error.
Proof.
  intros Hclient Hcur. unfold WalletTracker.getBlockNumberForDate. rewrite bind_unfold.
  unfold BalanceDatabase.getBlockNumberForDate at 1.
  destruct (WalletTracker.truthyBlock _); [intros [= <- _]; discriminate |].
  unfold tryCatch, WalletTracker.withClient. rewrite Hclient, bind_unfold.
  destruct (findBlockNumberForTimestamp client _ networkId w) as [[r | e |] w1].
  - intros [= <- _]. discriminate.
  - rewrite getBlockNumber_unfold, Hcur. intros [= <- _]. discriminate.
  - intros [= <- _]. discriminate.
Qed.

Lemma getBlockNumberForDate_never_throws_witness :
  client_getBlockNumber shortClient = Returned 1000
  ∧ ∀ error, fst (WalletTracker.getBlockNumberForDate shortTracker 0 1 emptyWorld) ≠ Threw error.
Proof.
  split; [reflexivity |].
  apply (getBlockNumberForDate_never_throws shortTracker shortClient 0 1 1000 emptyWorld
           (snd (WalletTracker.getBlockNumberForDate shortTracker 0 1 emptyWorld))).
  - reflexivity.
  - reflexivity.
  - apply surjective_pairing.
Defined.

(** ** The block-mapping table *)

(** X5. Saving a block mapping and reading it back: the saved key reads
    the saved block number, also when it replaces an older mapping, every
    other key reads what it read before, the balances are untouched and one
    change notification is emitted. *)
Theorem saveBlockMapping_lookup (networkId : Z) (date : string) (blockNumber timestamp : Z)
    (w : World) :
  ∃ w',
    BalanceDatabase.saveBlockMapping networkId date blockNumber timestamp w = (Returned tt, w')
    ∧ BalanceDatabase.getBlockNumberForDate networkId date w' = (Returned (Some blockNumber), w')
    ∧ (∀ networkId' date', (networkId', date') ≠ (networkId, date) →
         fst (BalanceDatabase.getBlockNumberForDate networkId' date' w')
         = fst (BalanceDatabase.getBlockNumberForDate networkId' date' w))
    ∧ balances w' = balances w
    ∧ events w' = Emitted "blockMappingChanged" :: events w.
Proof.
  eexists. split; [reflexivity |]. split; [| split; [| split; reflexivity]].
  - unfold BalanceDatabase.getBlockNumberForDate. cbn [block_mapping record].
    rewrite lookup_insert_eq. reflexivity.
  - intros networkId' date' Hne. unfold BalanceDatabase.getBlockNumberForDate.
    cbn [block_mapping record fst]. rewrite lookup_insert_ne by congruence. reflexivity.
Qed.

(** ** The limiters of the manager *)

Lemma create_lookup_into (networkIds : list Z) (networkId : Z) :
  ∀ m : gmap Z RateLimiterManager.RateLimiter,
    foldl (λ limiters id,
             <[id := RateLimiterManager.mkRateLimiter
                       (default DEFAULT_RATE_LIMIT (NETWORK_RATE_LIMITS id)) "second" true]>
               limiters) m networkIds !! networkId
    = if bool_decide (networkId ∈ networkIds)
      then Some (RateLimiterManager.mkRateLimiter
                   (default DEFAULT_RATE_LIMIT (NETWORK_RATE_LIMITS networkId)) "second" true)
      else m !! networkId.
Proof.
  induction networkIds as [| id ids IH]; intros m; cbn [foldl].
  - rewrite bool_decide_eq_false_2 by apply not_elem_of_nil. reflexivity.
  - rewrite IH. destruct (decide (networkId ∈ ids)) as [Hin | Hnotin].
    + rewrite !bool_decide_eq_true_2; [reflexivity | right; exact Hin | exact Hin].
    + rewrite (bool_decide_eq_false_2 _ Hnotin). destruct (decide (networkId = id)) as [-> | Hne].
      * rewrite lookup_insert_eq, bool_decide_eq_true_2 by left. reflexivity.
      * rewrite lookup_insert_ne by congruence.
        rewrite bool_decide_eq_false_2; [reflexivity |].
        rewrite elem_of_cons. tauto.
Qed.

(** X6. The constructor gives exactly the networks it is passed a limiter,
    one per id however often the id is listed, firing immediately, per
    second, with the rate [getRateLimit] reports for the id: the rate of the
    table for the five known networks (20 for Polygon) and 10 otherwise. *)
Theorem create_limiters (networkIds : list Z) (networkId : Z) :
  RateLimiterManager.create networkIds !! networkId
  = (if bool_decide (networkId ∈ networkIds)
     then Some (RateLimiterManager.mkRateLimiter (RateLimiterManager.getRateLimit networkId)
                                                 "second" true)
     else None)
  ∧ RateLimiterManager.getRateLimit 137 = 20
  ∧ (NETWORK_RATE_LIMITS networkId = None → RateLimiterManager.getRateLimit networkId = 10).
Proof.
  split; [| split; [reflexivity |]].
  - unfold RateLimiterManager.create, RateLimiterManager.getRateLimit.
    rewrite create_lookup_into, lookup_empty. reflexivity.
  - unfold RateLimiterManager.getRateLimit. intros ->. reflexivity.
Qed.

(** ** Acquisitions that do not yield a token *)

(** X7. An acquisition that settles without a token is not retried and the
    operation is not invoked: when the limiter resolves with a falsy value
    the caller gets the error "Failed to acquire rate limit token", and when
    the limiter rejects with an error other than the timeout the caller gets
    that error; the world holds the timers of the earlier timeouts only. *)
Theorem execute_acquisition_failure {A} (limiters : gmap Z RateLimiterManager.RateLimiter)
    (networkId : Z) (limiter : RateLimiterManager.RateLimiter) (request : M A)
    (operationName : string) (n : nat) (rest : list RateLimiterManager.Acquisition)
    (w : World) (error : Thrown) :
  limiters !! networkId = Some limiter →
  RateLimiterManager.isRateLimitTimeout error = false →
  RateLimiterManager.execute limiters networkId request operationName
    (repeat RateLimiterManager.TimedOut n ++ RateLimiterManager.TokenRemoved false :: rest) w
  = (Threw (ErrorObj "Failed to acquire rate limit token"), afterTimeouts n w, rest)
  ∧ RateLimiterManager.execute limiters networkId request operationName
      (repeat RateLimiterManager.TimedOut n ++ RateLimiterManager.AcquisitionFailed error :: rest) w
    = (Threw error, afterTimeouts n w, rest).
Proof.
  intros Hl Herr. rewrite !(execute_timeouts _ _ _ _ _ _ Hl).
  cbn [RateLimiterManager.execute RateLimiterManager.attempt]. rewrite Hl.
  unfold throw. rewrite Herr. split; reflexivity.
Qed.

Lemma execute_acquisition_failure_witness :
  RateLimiterManager.execute (RateLimiterManager.create [1]) 1 (mret 5 : M Z) "request"
    (repeat RateLimiterManager.TimedOut 1 ++ RateLimiterManager.TokenRemoved false :: []) emptyWorld
  = (Threw (ErrorObj "Failed to acquire rate limit token"), afterTimeouts 1 emptyWorld, [])
  ∧ RateLimiterManager.execute (RateLimiterManager.create [1]) 1 (mret 5 : M Z) "request"
      (repeat RateLimiterManager.TimedOut 1
         ++ RateLimiterManager.AcquisitionFailed (ErrorObj "limiter stopped") :: []) emptyWorld
    = (Threw (ErrorObj "limiter stopped"), afterTimeouts 1 emptyWorld, []).
Proof.
  apply (execute_acquisition_failure (RateLimiterManager.create [1]) 1
           (RateLimiterManager.mkRateLimiter 10 "second" true)).
  - reflexivity.
  - reflexivity.
Defined.

Lemma invocations_afterTimeouts (n : nat) : ∀ w, invocations (afterTimeouts n w) = invocations w.
Proof. induction n as [| n IH]; intros w; [reflexivity |]. cbn [afterTimeouts]. rewrite IH. reflexivity. Qed.

(** X8. Without a token the operation never runs: while every acquisition
    times out, [execute] stays pending, each timeout is followed by the
    backoff, and the number of invocations in the trace does not change. *)
Theorem execute_only_timeouts {A} (limiters : gmap Z RateLimiterManager.RateLimiter)
    (networkId : Z) (limiter : RateLimiterManager.RateLimiter) (request : M A)
    (operationName : string) (n : nat) (w : World) :
  limiters !! networkId = Some limiter →
  RateLimiterManager.execute limiters networkId request operationName
    (repeat RateLimiterManager.TimedOut n) w
  = (Pending, afterTimeouts n w, [])
  ∧ invocations (afterTimeouts n w) = invocations w.
Proof.
  intros Hl. split; [| apply invocations_afterTimeouts].
  rewrite <- (app_nil_r (repeat _ n)), (execute_timeouts _ _ _ _ _ _ Hl).
  cbn [RateLimiterManager.execute]. rewrite Hl. reflexivity.
Qed.

Lemma execute_only_timeouts_witness :
  RateLimiterManager.execute (RateLimiterManager.create [1]) 1 failingRequest "request"
    (repeat RateLimiterManager.TimedOut 3) emptyWorld
  = (Pending, afterTimeouts 3 emptyWorld, [])
  ∧ invocations (afterTimeouts 3 emptyWorld) = invocations emptyWorld.
Proof.
  apply (execute_only_timeouts (RateLimiterManager.create [1]) 1
           (RateLimiterManager.mkRateLimiter 10 "second" true)).
  reflexivity.
Defined.

(** ** Addresses *)

(** X9. The address [standardizeAddress] returns is canonical: it is the
    lower-case form of the input, has the same length, is left unchanged by
    another lower-casing, and, where the address check accepts it,
    standardizes to itself.  The world is never touched, and an address that
    fails the check raises the error that names it. *)
Theorem standardizeAddress_canonical `{Viem} (address : string) (w w' : World)
    (o : Outcome string) :
  standardizeAddress address w = (o, w') →
  w' = w
  ∧ (isAddress address = false →
     o = Threw (ErrorObj ("Invalid Ethereum address: " +:+ address)))
  ∧ ∀ standard, o = Returned standard →
      isAddress address = true
      ∧ standard = toLowerCase address
      ∧ toLowerCase standard = standard
      ∧ String.length standard = String.length address
      ∧ (isAddress standard = true → standardizeAddress standard w = (Returned standard, w)).
Proof.
  unfold standardizeAddress. destruct (isAddress address) eqn:Hvalid; intros [= <- <-].
  - split; [reflexivity |]. split; [discriminate |].
    intros standard [= <-]. split; [reflexivity |]. split; [reflexivity |].
    split; [apply toLowerCase_idempotent |]. split; [apply toLowerCase_length |].
    intros ->. rewrite toLowerCase_idempotent. reflexivity.
  - split; [reflexivity |]. split; [reflexivity | discriminate].
Qed.

Lemma standardizeAddress_canonical_witness :
  snd (@standardizeAddress strictViem "0xA0b86991c6218b36c1d19D4a2e9Eb0cE3606eB48" emptyWorld)
    = emptyWorld
  ∧ (@isAddress strictViem "0xA0b86991c6218b36c1d19D4a2e9Eb0cE3606eB48" = false →
     fst (@standardizeAddress strictViem "0xA0b86991c6218b36c1d19D4a2e9Eb0cE3606eB48" emptyWorld)
     = Threw (ErrorObj ("Invalid Ethereum address: "
                        +:+ "0xA0b86991c6218b36c1d19D4a2e9Eb0cE3606eB48")))
  ∧ ∀ standard,
      fst (@standardizeAddress strictViem "0xA0b86991c6218b36c1d19D4a2e9Eb0cE3606eB48" emptyWorld)
        = Returned standard →
      @isAddress strictViem "0xA0b86991c6218b36c1d19D4a2e9Eb0cE3606eB48" = true
      ∧ standard = toLowerCase "0xA0b86991c6218b36c1d19D4a2e9Eb0cE3606eB48"
      ∧ toLowerCase standard = standard
      ∧ String.length standard = String.length "0xA0b86991c6218b36c1d19D4a2e9Eb0cE3606eB48"
      ∧ (@isAddress strictViem standard = true →
         @standardizeAddress strictViem standard emptyWorld = (Returned standard, emptyWorld)).
Proof.
  apply (@standardizeAddress_canonical strictViem "0xA0b86991c6218b36c1d19D4a2e9Eb0cE3606eB48"
           emptyWorld).
  reflexivity.
Defined.

Lemma mapM_first_failure {A B} (f : A → M B) (g : A → B) (pre post : list A) (bad : A)
    (e : Thrown) (w : World) :
  (∀ x, x ∈ pre → f x w = (Returned (g x), w)) →
  f bad w = (Threw e, w) →
  mapM f (pre ++ bad :: post) w = (Threw e, w).
Proof.
  intros Hpre Hbad. induction pre as [| x pre IH]; cbn [app mapM].
  - rewrite bind_unfold, Hbad. reflexivity.
  - rewrite (bind_step _ _ _ _ _ (Hpre x ltac:(left))).
    rewrite bind_unfold, IH; [reflexivity |]. intros y Hy. apply Hpre. right. exact Hy.
Qed.

(** X10. A batch fails fast on a malformed address: the first wallet whose
    address fails the check makes [getWalletsBalances] raise the error that
    names this address before anything is sent to the chain; the world, its
    trace included, is unchanged. *)
Theorem getWalletsBalances_invalid_address `{Viem} (client : Client)
    (before after : list Wallet) (bad : Wallet) (network : Network) (blockNumber : Z)
    (w : World) :
  Forall validWallet before →
  isAddress (wallet_address bad) = false →
  getWalletsBalances client (before ++ bad :: after) network blockNumber w
  = (Threw (ErrorObj ("Invalid Ethereum address: " +:+ wallet_address bad)), w).
Proof.
  intros Hbefore Hbad. unfold getWalletsBalances. rewrite bind_unfold.
  rewrite (mapM_first_failure standardizeWallet standardized before after bad
             (ErrorObj ("Invalid Ethereum address: " +:+ wallet_address bad)) w).
  - reflexivity.
  - intros x Hx. rewrite Forall_forall in Hbefore. specialize (Hbefore x Hx).
    unfold standardizeWallet, standardizeAddress, validWallet in *. rewrite Hbefore. reflexivity.
  - unfold standardizeWallet, standardizeAddress. rewrite Hbad. reflexivity.
Qed.

Lemma getWalletsBalances_invalid_address_witness :
  @getWalletsBalances strictViem batchClient
    ([walletA] ++ mkWallet "0x1234" None :: [walletB]) ethereum 1000 emptyWorld
  = (Threw (ErrorObj ("Invalid Ethereum address: " +:+ "0x1234")), emptyWorld).
Proof.
  apply (@getWalletsBalances_invalid_address strictViem batchClient [walletA] [walletB]
           (mkWallet "0x1234" None) ethereum 1000 emptyWorld).
  - repeat constructor.
  - reflexivity.
Defined.

(** ** Failed and unrelated writes *)

Lemma first_rejected {A} (p : A → bool) (l : list A) :
  Forall (λ x, p x = true) l
  ∨ ∃ pre bad post, l = (pre ++ bad :: post)%list ∧ Forall (λ x, p x = true) pre ∧ p bad = false.
Proof.
  induction l as [| x l IH]; [left; constructor |].
  destruct (p x) eqn:Hx.
  - destruct IH as [Hall | (pre & bad & post & -> & Hpre & Hbad)].
    + left. constructor; assumption.
    + right. exists (x :: pre), bad, post. repeat split; [constructor |]; assumption.
  - right. exists [], x, l. repeat split; [constructor | exact Hx].
Qed.

Lemma applyRows_rowsFor_other (key : string * Z * string * string)
    (table rows : list BalanceRow) :
  key ∉ keysOf rows → rowsFor key (applyRows table rows) = rowsFor key table.
Proof.
  induction rows as [| x rows IH] using rev_ind; intros Hnot; [reflexivity |].
  unfold keysOf in Hnot. rewrite fmap_app, not_elem_of_app in Hnot. destruct Hnot as [Hrows Hx].
  rewrite applyRows_snoc, upsert_rowsFor_other; [apply IH, Hrows |].
  intros E. apply Hx. rewrite <- E. left.
Qed.

Lemma upsert_canonical (new : BalanceRow) (table : list BalanceRow) :
  canonicalRow new → Forall canonicalRow table →
  Forall canonicalRow (BalanceDatabase.upsert new table).
Proof.
  intros Hnew. induction 1 as [| r rest Hr Hrest IH]; cbn [BalanceDatabase.upsert].
  - repeat constructor; apply Hnew.
  - case_bool_decide; constructor; assumption.
Qed.

Lemma applyRows_canonical (table rows : list BalanceRow) :
  Forall canonicalRow rows → Forall canonicalRow table →
  Forall canonicalRow (applyRows table rows).
Proof.
  intros Hrows. revert table. induction Hrows as [| x rows Hx _ IH]; intros table Htable.
  - exact Htable.
  - apply IH, upsert_canonical; assumption.
Qed.

Lemma writtenRows_canonical (network : Network) (walletBalance : WalletBalance)
    (blockNumber : Z) (dateStr : string) (timestamp : Z) :
  Forall canonicalRow (writtenRows network walletBalance blockNumber dateStr timestamp).
Proof.
  unfold writtenRows. constructor.
  - split; [apply toLowerCase_idempotent | reflexivity].
  - apply Forall_fmap, Forall_forall. intros token _.
    split; apply toLowerCase_idempotent.
Qed.

Section FailedWrites.
Context `{Viem}.

Lemma saveTokens_failure (address : string) (networkId blockNumber timestamp : Z)
    (dateStr : string) (pre post : list TokenBalance) (bad : TokenBalance) :
  Forall (λ token, isAddress (tb_address token) = true) pre →
  isAddress (tb_address bad) = false →
  ∀ w, ∃ table,
    mapM (λ token,
            tokenAddress ← standardizeAddress (tb_address token);
            BalanceDatabase.run
              (mkBalanceRow address networkId tokenAddress (tb_symbol token) (tb_balance token)
                            blockNumber timestamp dateStr))
         (pre ++ bad :: post) w
    = (Threw (ErrorObj ("Invalid Ethereum address: " +:+ tb_address bad)),
       mkWorld table (block_mapping w) (events w)).
Proof.
  intros Hpre Hbad. induction Hpre as [| token pre Hvalid _ IH]; intros w; cbn [app mapM].
  - exists (balances w). rewrite bind_unfold, bind_unfold. unfold standardizeAddress.
    rewrite Hbad. destruct w; reflexivity.
  - rewrite bind_unfold, bind_unfold. unfold standardizeAddress at 1. rewrite Hvalid.
    cbn [mret M_ret BalanceDatabase.run].
    destruct (IH (mkWorld (BalanceDatabase.upsert
                             (mkBalanceRow address networkId (toLowerCase (tb_address token))
                                (tb_symbol token) (tb_balance token) blockNumber timestamp
                                dateStr) (balances w))
                          (block_mapping w) (events w))) as [table Htable].
    rewrite bind_unfold, Htable. exists table. reflexivity.
Qed.

(** X11. A failed write is not partially applied.  When a token of the
    wallet balance has a malformed address, the native row and the rows of
    the tokens before it have already been run, yet the transaction is rolled
    back: the error that names the address reaches the caller, both tables
    are exactly as before, the two error events are emitted and the change
    notification is not. *)
Theorem saveBalances_rolls_back (config : Config) (network : Network)
    (walletBalance : WalletBalance) (pre post : list TokenBalance) (bad : TokenBalance)
    (blockNumber : Z) (dateStr : string) (timestamp : Z) (w : World) :
  findNetwork config (wb_network walletBalance) = Some network →
  isAddress (wb_address walletBalance) = true →
  wb_tokens walletBalance = (pre ++ bad :: post)%list →
  Forall (λ token, isAddress (tb_address token) = true) pre →
  isAddress (tb_address bad) = false →
  BalanceDatabase.saveBalances config walletBalance blockNumber dateStr timestamp w
  = (Threw (ErrorObj ("Invalid Ethereum address: " +:+ tb_address bad)),
     mkWorld (balances w) (block_mapping w)
             (Emitted "DB saveBalances TX error" :: TransactionRolledBack
                :: Emitted "DB saveBalances error" :: events w)).
Proof.
  intros Hfind Haddr Htokens Hpre Hbad. unfold BalanceDatabase.saveBalances.
  unfold findNetwork in Hfind. rewrite Hfind, Htokens.
  rewrite bind_unfold. unfold standardizeAddress at 1. rewrite Haddr. cbn [mret M_ret].
  unfold tryCatch at 1. rewrite bind_unfold. unfold BalanceDatabase.transaction.
  unfold tryCatch at 1. rewrite bind_unfold. cbn [BalanceDatabase.run].
  rewrite bind_unfold.
  destruct (saveTokens_failure (toLowerCase (wb_address walletBalance)) (network_id_of network)
              blockNumber timestamp dateStr pre post bad Hpre Hbad
              (mkWorld (BalanceDatabase.upsert
                          (mkBalanceRow (toLowerCase (wb_address walletBalance))
                             (network_id_of network) NATIVE_TOKEN_ADDRESS
                             (native_symbol (native_token network))
                             (wb_native_balance walletBalance) blockNumber timestamp dateStr)
                          (balances w))
                       (block_mapping w) (events w))) as [table Htable].
  rewrite Htable. reflexivity.
Qed.

(** The three ways a write to a configured network can go. *)
Lemma saveBalances_cases (config : Config) (network : Network) (walletBalance : WalletBalance)
    (blockNumber : Z) (dateStr : string) (timestamp : Z) (w w' : World) (o : Outcome unit) :
  findNetwork config (wb_network walletBalance) = Some network →
  BalanceDatabase.saveBalances config walletBalance blockNumber dateStr timestamp w = (o, w') →
  balances w' = balances w
  ∨ (o = Returned tt
     ∧ balances w'
       = applyRows (balances w) (writtenRows network walletBalance blockNumber dateStr timestamp)).
Proof.
  intros Hfind Hrun. destruct (isAddress (wb_address walletBalance)) eqn:Haddr.
  - destruct (first_rejected (λ token, isAddress (tb_address token)) (wb_tokens walletBalance))
      as [Hall | (pre & bad & post & Htokens & Hpre & Hbad)].
    + rewrite (saveBalances_run _ _ _ _ _ _ w Hfind (conj Haddr Hall)) in Hrun.
      injection Hrun as <- <-. right. split; reflexivity.
    + rewrite (saveBalances_rolls_back _ _ _ _ _ _ _ _ _ w Hfind Haddr Htokens Hpre Hbad) in Hrun.
      injection Hrun as _ <-. left. reflexivity.
  - unfold BalanceDatabase.saveBalances in Hrun. unfold findNetwork in Hfind.
    rewrite Hfind, bind_unfold in Hrun. unfold standardizeAddress in Hrun.
    rewrite Haddr in Hrun. injection Hrun as _ <-. left. reflexivity.
Qed.

Lemma saveBalances_unconfigured (config : Config) (walletBalance : WalletBalance)
    (blockNumber : Z) (dateStr : string) (timestamp : Z) (w : World) :
  findNetwork config (wb_network walletBalance) = None →
  BalanceDatabase.saveBalances config walletBalance blockNumber dateStr timestamp w
  = (Returned tt, w).
Proof.
  intros Hfind. unfold BalanceDatabase.saveBalances. unfold findNetwork in Hfind.
  rewrite Hfind. reflexivity.
Qed.

(** X12. Addresses are stored in one canonical form.  If every row of the
    table has lower-case addresses, so has every row after [saveBalances],
    whatever the letter case of the addresses it is given and whatever its
    outcome. *)
Theorem saveBalances_keeps_canonical (config : Config) (walletBalance : WalletBalance)
    (blockNumber : Z) (dateStr : string) (timestamp : Z) (w w' : World) (o : Outcome unit) :
  Forall canonicalRow (balances w) →
  BalanceDatabase.saveBalances config walletBalance blockNumber dateStr timestamp w = (o, w') →
  Forall canonicalRow (balances w').
Proof.
  intros Hcanon Hrun.
  destruct (findNetwork config (wb_network walletBalance)) as [network |] eqn:Hfind.
  - destruct (saveBalances_cases _ _ _ _ _ _ _ _ _ Hfind Hrun) as [-> | [_ ->]];
      [exact Hcanon |].
    apply applyRows_canonical; [apply writtenRows_canonical | exact Hcanon].
  - rewrite (saveBalances_unconfigured _ _ _ _ _ _ Hfind) in Hrun.
    injection Hrun as _ <-. exact Hcanon.
Qed.

(** X13. A write only touches the rows of its own wallet, network and
    date.  Whatever the outcome of [saveBalances], the rows stored under a
    key of another date, another network id or another wallet address are
    the same before and after. *)
Theorem saveBalances_frame (config : Config) (network : Network) (walletBalance : WalletBalance)
    (blockNumber : Z) (dateStr : string) (timestamp : Z) (w w' : World) (o : Outcome unit)
    (address : string) (networkId : Z) (token date : string) :
  findNetwork config (wb_network walletBalance) = Some network →
  BalanceDatabase.saveBalances config walletBalance blockNumber dateStr timestamp w = (o, w') →
  date ≠ dateStr ∨ networkId ≠ network_id_of network
    ∨ address ≠ toLowerCase (wb_address walletBalance) →
  rowsFor (address, networkId, token, date) (balances w')
  = rowsFor (address, networkId, token, date) (balances w).
Proof.
  intros Hfind Hrun Hother.
  destruct (saveBalances_cases _ _ _ _ _ _ _ _ _ Hfind Hrun) as [-> | [_ ->]]; [reflexivity |].
  apply applyRows_rowsFor_other. unfold keysOf. rewrite list_elem_of_fmap.
  intros (row & Hkey & Hrow). apply writtenRows_stamp in Hrow as (_ & _ & Hd & Hn & Ha).
  unfold BalanceDatabase.indexKey in Hkey. injection Hkey as Ea En _ Ed.
  rewrite Ha, toLowerCase_idempotent in Ea. destruct Hother as [? | [? | ?]]; congruence.
Qed.

End FailedWrites.

Lemma saveBalances_rolls_back_witness :
  @BalanceDatabase.saveBalances strictViem demoConfig brokenWrite 200 "2024-01-01"
    1704153590000 emptyWorld
  = (Threw (ErrorObj ("Invalid Ethereum address: " +:+ "0xnot-an-address")),
     mkWorld [] ∅
             [Emitted "DB saveBalances TX error"; TransactionRolledBack;
              Emitted "DB saveBalances error"]).
Proof.
  apply (@saveBalances_rolls_back strictViem demoConfig ethereum brokenWrite
           [mkTokenBalance "0xa0b86991c6218b36c1d19d4a2e9eb0ce3606eb48" "USDC" "11" 6] []
           (mkTokenBalance "0xnot-an-address" "BAD" "1" 18)).
  - reflexivity.
  - reflexivity.
  - reflexivity.
  - repeat constructor.
  - reflexivity.
Defined.

Lemma saveBalances_keeps_canonical_witness :
  Forall canonicalRow
    (balances (snd (@BalanceDatabase.saveBalances strictViem demoConfig secondWrite 200
                      "2024-01-01" 1704153590000 emptyWorld))).
Proof.
  apply (@saveBalances_keeps_canonical strictViem demoConfig secondWrite 200 "2024-01-01"
           1704153590000 emptyWorld _ (Returned tt)).
  - constructor.
  - reflexivity.
Defined.

Lemma saveBalances_frame_witness :
  rowsFor ("0x00000000000000000000000000000000000000aa", 1,
           "0xeeeeeeeeeeeeeeeeeeeeeeeeeeeeeeeeeeeeeeee", "2024-01-01")
    (balances (snd (@BalanceDatabase.saveBalances strictViem demoConfig secondWrite 200
                      "2024-01-02" 1704239990000
                      (snd (@BalanceDatabase.saveBalances strictViem demoConfig firstWrite 100
                              "2024-01-01" 1704153540000 emptyWorld)))))
  = rowsFor ("0x00000000000000000000000000000000000000aa", 1,
             "0xeeeeeeeeeeeeeeeeeeeeeeeeeeeeeeeeeeeeeeee", "2024-01-01")
      (balances (snd (@BalanceDatabase.saveBalances strictViem demoConfig firstWrite 100
                        "2024-01-01" 1704153540000 emptyWorld))).
Proof.
  apply (@saveBalances_frame strictViem demoConfig ethereum secondWrite 200 "2024-01-02"
           1704239990000 _ _ (Returned tt)).
  - reflexivity.
  - reflexivity.
  - left. discriminate.
Defined.

(** ** Reading balances back *)

Lemma matchesKey_indexKey (walletAddress : string) (networkId : Z) (tokenAddress date : string)
    (r : BalanceRow) :
  BalanceDatabase.matchesKey (toLowerCase walletAddress) networkId (toLowerCase tokenAddress)
    date r
  = bool_decide (BalanceDatabase.indexKey r
                 = (toLowerCase walletAddress, networkId, toLowerCase tokenAddress, date)).
Proof.
  unfold BalanceDatabase.matchesKey, BalanceDatabase.indexKey.
  rewrite !toLowerCase_idempotent. apply Bool.eq_iff_eq_true.
  rewrite !andb_true_iff, !bool_decide_eq_true, Z.eqb_eq. split.
  - intros [[[-> ->] ->] ->]. reflexivity.
  - intros [= -> -> -> ->]. auto.
Qed.

Lemma selectFirst_rowsFor (walletAddress : string) (networkId : Z) (tokenAddress date : string)
    (w : World) :
  BalanceDatabase.selectFirst (toLowerCase walletAddress) networkId (toLowerCase tokenAddress)
    date w
  = (Returned (head (rowsFor (toLowerCase walletAddress, networkId, toLowerCase tokenAddress,
                              date) (balances w))), w).
Proof.
  unfold BalanceDatabase.selectFirst, rowsFor. do 3 f_equal.
  apply List.filter_ext. intros r. apply matchesKey_indexKey.
Qed.

Section Reads.
Context `{Viem}.

(** The three single-row reads in terms of the rows stored under the key of
    the query. *)
Lemma reads_rowsFor (walletAddress : string) (networkId : Z) (tokenAddress date : string)
    (w : World) :
  isAddress walletAddress = true →
  isAddress tokenAddress = true →
  let found := head (rowsFor (toLowerCase walletAddress, networkId, toLowerCase tokenAddress,
                              date) (balances w)) in
  BalanceDatabase.getBalanceForDate walletAddress networkId tokenAddress date w
    = (Returned (row_balance <$> found), w)
  ∧ BalanceDatabase.getBalanceTimestampForDate walletAddress networkId tokenAddress date w
    = (Returned (row_timestamp <$> found), w)
  ∧ BalanceDatabase.hasBalanceForDate walletAddress networkId tokenAddress date w
    = (Returned (match found with Some _ => true | None => false end), w).
Proof.
  intros Hwallet Htoken found.
  unfold BalanceDatabase.getBalanceForDate, BalanceDatabase.getBalanceTimestampForDate,
    BalanceDatabase.hasBalanceForDate, standardizeAddress.
  rewrite Hwallet, Htoken.
  repeat split; do 2 (rewrite bind_unfold; cbn [mret M_ret]);
    rewrite bind_unfold, selectFirst_rowsFor; reflexivity.
Qed.

(** X14. Write, then read.  After a committed [saveBalances] on a table
    with unique keys, the single-row reads of a key the write stored, asked
    with the addresses in any letter case the address check accepts, find the
    row: [getBalanceForDate] returns the balance of the last statement of
    the write for that key, [getBalanceTimestampForDate] the timestamp of
    the write and [hasBalanceForDate] true; none of them changes the
    world. *)
Theorem saveBalances_then_read (config : Config) (network : Network)
    (walletBalance : WalletBalance) (blockNumber : Z) (dateStr : string) (timestamp : Z)
    (w : World) (walletAddress : string) (networkId : Z) (tokenAddress date : string)
    (new : BalanceRow) :
  uniqueKeys (balances w) →
  findNetwork config (wb_network walletBalance) = Some network →
  validBalance walletBalance →
  isAddress walletAddress = true →
  isAddress tokenAddress = true →
  lastWithKey (toLowerCase walletAddress, networkId, toLowerCase tokenAddress, date)
              (writtenRows network walletBalance blockNumber dateStr timestamp) = Some new →
  ∃ w1,
    BalanceDatabase.saveBalances config walletBalance blockNumber dateStr timestamp w
      = (Returned tt, w1)
    ∧ BalanceDatabase.getBalanceForDate walletAddress networkId tokenAddress date w1
      = (Returned (Some (row_balance new)), w1)
    ∧ BalanceDatabase.getBalanceTimestampForDate walletAddress networkId tokenAddress date w1
      = (Returned (Some timestamp), w1)
    ∧ BalanceDatabase.hasBalanceForDate walletAddress networkId tokenAddress date w1
      = (Returned true, w1).
Proof.
  intros Hu Hfind Hvalid Hwallet Htoken Hlast.
  eexists. split; [apply (saveBalances_run _ _ _ _ _ _ _ Hfind Hvalid) |].
  set (w1 := mkWorld _ _ _).
  destruct (applyRows_rowsFor _ (balances w) _ new Hu Hlast) as (r & Hr & _ & Hb & _ & Ht).
  apply lastWithKey_elem_of, writtenRows_stamp in Hlast as (_ & Hts & _).
  destruct (reads_rowsFor walletAddress networkId tokenAddress date w1 Hwallet Htoken)
    as (R1 & R2 & R3).
  cbn [balances w1] in R1, R2, R3. rewrite Hr in R1, R2, R3. cbn in R1, R2, R3.
  rewrite Hb in R1. rewrite Ht, Hts in R2. auto.
Qed.

(** X15. Reading a key that is not stored: with addresses that pass the
    check and no row under the key of the query, [getBalanceForDate] and
    [getBalanceTimestampForDate] return nothing and [hasBalanceForDate]
    returns false, without an error and without a change to the world. *)
Theorem reads_of_missing_key (walletAddress : string) (networkId : Z)
    (tokenAddress date : string) (w : World) :
  isAddress walletAddress = true →
  isAddress tokenAddress = true →
  (toLowerCase walletAddress, networkId, toLowerCase tokenAddress, date)
    ∉ keysOf (balances w) →
  BalanceDatabase.getBalanceForDate walletAddress networkId tokenAddress date w
    = (Returned None, w)
  ∧ BalanceDatabase.getBalanceTimestampForDate walletAddress networkId tokenAddress date w
    = (Returned None, w)
  ∧ BalanceDatabase.hasBalanceForDate walletAddress networkId tokenAddress date w
    = (Returned false, w).
Proof.
  intros Hwallet Htoken Hmissing.
  destruct (reads_rowsFor walletAddress networkId tokenAddress date w Hwallet Htoken)
    as (R1 & R2 & R3).
  rewrite (rowsFor_absent _ _ Hmissing) in R1, R2, R3. auto.
Qed.

End Reads.

Lemma saveBalances_then_read_witness :
  ∃ w1,
    @BalanceDatabase.saveBalances strictViem demoConfig secondWrite 200 "2024-01-01"
      1704153590000 emptyWorld = (Returned tt, w1)
    ∧ @BalanceDatabase.getBalanceForDate strictViem
        "0x00000000000000000000000000000000000000aa" 1
        "0xA0b86991c6218b36c1d19D4a2e9Eb0cE3606eB48" "2024-01-01" w1
      = (Returned (Some "11"), w1)
    ∧ @BalanceDatabase.getBalanceTimestampForDate strictViem
        "0x00000000000000000000000000000000000000aa" 1
        "0xA0b86991c6218b36c1d19D4a2e9Eb0cE3606eB48" "2024-01-01" w1
      = (Returned (Some 1704153590000), w1)
    ∧ @BalanceDatabase.hasBalanceForDate strictViem
        "0x00000000000000000000000000000000000000aa" 1
        "0xA0b86991c6218b36c1d19D4a2e9Eb0cE3606eB48" "2024-01-01" w1
      = (Returned true, w1).
Proof.
  apply (@saveBalances_then_read strictViem demoConfig ethereum secondWrite 200 "2024-01-01"
           1704153590000 emptyWorld "0x00000000000000000000000000000000000000aa" 1
           "0xA0b86991c6218b36c1d19D4a2e9Eb0cE3606eB48" "2024-01-01"
           (mkBalanceRow "0x00000000000000000000000000000000000000aa" 1
              "0xa0b86991c6218b36c1d19d4a2e9eb0ce3606eb48" "USDC" "11" 200 1704153590000
              "2024-01-01")).
  - apply NoDup_nil_2.
  - reflexivity.
  - split; [reflexivity | repeat constructor].
  - reflexivity.
  - reflexivity.
  - reflexivity.
Defined.

Lemma reads_of_missing_key_witness :
  @BalanceDatabase.getBalanceForDate strictViem
    "0x00000000000000000000000000000000000000AA" 1
    "0xA0b86991c6218b36c1d19D4a2e9Eb0cE3606eB48" "2024-01-01" emptyWorld
    = (Returned None, emptyWorld)
  ∧ @BalanceDatabase.getBalanceTimestampForDate strictViem
      "0x00000000000000000000000000000000000000AA" 1
      "0xA0b86991c6218b36c1d19D4a2e9Eb0cE3606eB48" "2024-01-01" emptyWorld
    = (Returned None, emptyWorld)
  ∧ @BalanceDatabase.hasBalanceForDate strictViem
      "0x00000000000000000000000000000000000000AA" 1
      "0xA0b86991c6218b36c1d19D4a2e9Eb0cE3606eB48" "2024-01-01" emptyWorld
    = (Returned false, emptyWorld).
Proof.
  apply (@reads_of_missing_key strictViem "0x00000000000000000000000000000000000000AA" 1
           "0xA0b86991c6218b36c1d19D4a2e9Eb0cE3606eB48" "2024-01-01" emptyWorld).
  - reflexivity.
  - reflexivity.
  - apply not_elem_of_nil.
Defined.

(** ** Grouping of missing data *)

Lemma mapGet_cons {K V} `{EqDecision K} (key k : K) (v : V) (m : list (K * V)) :
  mapGet key ((k, v) :: m) = if bool_decide (k = key) then Some v else mapGet key m.
Proof. unfold mapGet. cbn [List.find fst]. case_bool_decide; reflexivity. Qed.

Lemma mapHas_mapGet {K V} `{EqDecision K} (key : K) (m : list (K * V)) :
  mapHas key m = match mapGet key m with Some _ => true | None => false end.
Proof.
  induction m as [| [k v] m IH]; [reflexivity |].
  rewrite mapGet_cons. cbn [mapHas existsb fst]. case_bool_decide; [reflexivity |].
  exact IH.
Qed.

Lemma mapGet_mapSet {K V} `{EqDecision K} (key k : K) (v : V) (m : list (K * V)) :
  mapGet k (mapSet key v m) = if bool_decide (key = k) then Some v else mapGet k m.
Proof.
  induction m as [| [k0 v0] m IH]; cbn [mapSet].
  - rewrite mapGet_cons. reflexivity.
  - destruct (decide (k0 = key)) as [-> | E0].
    + rewrite (bool_decide_eq_true_2 (key = key) eq_refl), !mapGet_cons.
      destruct (bool_decide (key = k)); reflexivity.
    + rewrite (bool_decide_eq_false_2 _ E0), !mapGet_cons, IH.
      destruct (decide (k0 = k)) as [-> | E1].
      * rewrite (bool_decide_eq_true_2 (k = k) eq_refl).
        rewrite bool_decide_eq_false_2 by congruence. reflexivity.
      * rewrite (bool_decide_eq_false_2 _ E1). reflexivity.
Qed.

Lemma mapSet_keys {K V} `{EqDecision K} (key : K) (v : V) (m : list (K * V)) :
  (mapSet key v m).*1 = if mapHas key m then m.*1 else (m.*1 ++ [key])%list.
Proof.
  induction m as [| [k0 v0] m IH]; [reflexivity |].
  cbn [mapSet mapHas existsb fst]. destruct (bool_decide (k0 = key)); cbn [orb].
  - reflexivity.
  - rewrite !fmap_cons, IH. cbn [fst]. fold (mapHas key m).
    destruct (mapHas key m); reflexivity.
Qed.

Lemma mapHas_elem_of {K V} `{EqDecision K} (key : K) (m : list (K * V)) :
  mapHas key m = true ↔ key ∈ m.*1.
Proof.
  induction m as [| [k0 v0] m IH]; cbn [mapHas existsb fst].
  - rewrite fmap_nil, elem_of_nil. split; [discriminate | tauto].
  - rewrite fmap_cons, elem_of_cons, orb_true_iff, bool_decide_eq_true. cbn [fst].
    unfold mapHas in IH. rewrite IH. split; intros [? | ?]; auto.
Qed.

Lemma mapSet_NoDup {K V} `{EqDecision K} (key : K) (v : V) (m : list (K * V)) :
  NoDup m.*1 → NoDup (mapSet key v m).*1.
Proof.
  intros Hm. rewrite mapSet_keys. destruct (mapHas key m) eqn:Hhas; [exact Hm |].
  apply NoDup_app. split; [exact Hm |]. split; [| apply NoDup_singleton].
  intros k Hk Hk'. apply list_elem_of_singleton in Hk'. subst k.
  apply mapHas_elem_of in Hk. congruence.
Qed.

Lemma mapGet_elem_of {K V} `{EqDecision K} (key : K) (v : V) (m : list (K * V)) :
  NoDup m.*1 → ((key, v) ∈ m ↔ mapGet key m = Some v).
Proof.
  induction m as [| [k0 v0] m IH]; intros Hm.
  - rewrite elem_of_nil. split; [tauto | discriminate].
  - rewrite fmap_cons in Hm. apply NoDup_cons in Hm as [Hk0 Hm]. cbn [fst] in Hk0.
    rewrite elem_of_cons, mapGet_cons, (IH Hm). case_bool_decide as E0.
    + subst k0. split.
      * intros [[= ->] | Hget]; [reflexivity |].
        apply (IH Hm) in Hget. exfalso. apply Hk0.
        apply list_elem_of_fmap. exists (key, v). split; [reflexivity | exact Hget].
      * intros [= ->]. left. reflexivity.
    + split; [intros [[= -> ->] | ?]; [congruence | assumption] | auto].
Qed.

Lemma groupStep_get (groupedData : list (string * list MissingData)) (item : MissingData)
    (key : string) :
  mapGet key (groupStep groupedData item)
  = if bool_decide (groupKey item = key)
    then Some (default [] (mapGet (groupKey item) groupedData) ++ [item])%list
    else mapGet key groupedData.
Proof.
  unfold groupStep. rewrite mapGet_mapSet. rewrite (mapHas_mapGet (groupKey item) groupedData).
  destruct (mapGet (groupKey item) groupedData) as [items |] eqn:Hget; cbn [negb].
  - rewrite Hget. reflexivity.
  - rewrite !mapGet_mapSet.
    rewrite (bool_decide_eq_true_2 (groupKey item = groupKey item) eq_refl). cbn [default].
    destruct (decide (groupKey item = key)) as [E | E].
    + rewrite (bool_decide_eq_true_2 _ E). reflexivity.
    + rewrite (bool_decide_eq_false_2 _ E). reflexivity.
Qed.

Lemma groupStep_NoDup (groupedData : list (string * list MissingData)) (item : MissingData) :
  NoDup groupedData.*1 → NoDup (groupStep groupedData item).*1.
Proof.
  intros Hm. unfold groupStep. apply mapSet_NoDup.
  destruct (negb _); [apply mapSet_NoDup |]; exact Hm.
Qed.

Lemma groupMissingData_get (missingData : list MissingData) (key : string) :
  NoDup (groupMissingData missingData).*1
  ∧ mapGet key (groupMissingData missingData)
    = match itemsOf key missingData with
      | [] => None
      | items => Some items
      end.
Proof.
  unfold groupMissingData. revert key.
  induction missingData as [| item missingData IH] using rev_ind; intros key.
  - split; [apply NoDup_nil_2 | reflexivity].
  - rewrite foldl_snoc. split; [apply groupStep_NoDup, (IH key) |].
    rewrite groupStep_get. unfold itemsOf. rewrite List.filter_app. cbn [List.filter].
    fold (itemsOf key missingData). case_bool_decide as E.
    + rewrite E, (proj2 (IH key)). destruct (itemsOf key missingData); reflexivity.
    + rewrite app_nil_r. apply (IH key).
Qed.

(** X16. [groupMissingData] partitions its input by the key
    [wallet address - network id].  The map has one entry per key, and an
    entry [(key, items)] is in it exactly when [items] is the non-empty list
    of all the input items with that key, in input order: no item is lost,
    duplicated or filed under another key, and an empty input gives an empty
    map. *)
Theorem groupMissingData_partition (missingData : list MissingData) :
  NoDup (groupMissingData missingData).*1
  ∧ (∀ key items,
       (key, items) ∈ groupMissingData missingData
       ↔ items = itemsOf key missingData ∧ items ≠ [])
  ∧ (∀ item, item ∈ missingData →
       ∃ items, (groupKey item, items) ∈ groupMissingData missingData ∧ item ∈ items)
  ∧ (missingData = [] → groupMissingData missingData = []).
Proof.
  split; [apply (groupMissingData_get missingData "") |].
  assert (Hentries : ∀ key items,
            (key, items) ∈ groupMissingData missingData
            ↔ items = itemsOf key missingData ∧ items ≠ []).
  { intros key items. destruct (groupMissingData_get missingData key) as [Hnd Hget].
    rewrite (mapGet_elem_of _ _ _ Hnd), Hget.
    destruct (itemsOf key missingData) as [| x xs].
    - split; [discriminate | intros [-> Hne]; contradiction].
    - split; [intros [= <-]; split; [reflexivity | discriminate] | intros [-> _]; reflexivity]. }
  split; [exact Hentries |]. split; [| intros ->; reflexivity].
  intros item Hin. exists (itemsOf (groupKey item) missingData).
  assert (Hmem : item ∈ itemsOf (groupKey item) missingData).
  { apply list_elem_of_In, List.filter_In. split; [apply list_elem_of_In, Hin |].
    apply bool_decide_eq_true_2. reflexivity. }
  split; [| exact Hmem]. apply Hentries. split; [reflexivity |].
  intros E. rewrite E in Hmem. apply elem_of_nil in Hmem. exact Hmem.
Qed.

(** ** Batches of any size *)

Section AnyBatches.
Context `{Viem}.
Variable tracker : WalletTracker.Tracker.
Variable network : Network.
Variables (blockNumber : Z) (dateStr : string) (blockTimestampDate : Z).
Variable limiter : RateLimiterManager.RateLimiter.
Variable client : Client.
Variable configured : Network.
Hypothesis lowerCaseAccepted : ∀ address, isAddress address = true → isAddress (toLowerCase address) = true.
Hypothesis limiterExists : WalletTracker.rateLimiter tracker !! network_id_of network = Some limiter.
Hypothesis clientExists : WalletTracker.clients tracker !! network_id_of network = Some client.
Hypothesis networkConfigured :
  findNetwork (WalletTracker.config tracker) (network_name network) = Some configured.
Hypothesis tokensValid : Forall (λ token, isAddress (token_address token) = true) (tokens network).
Hypothesis endpointAnswers :
  ∀ contracts b, ∃ results,
    client_multicall client contracts b = Returned results ∧ length results = length contracts.

Lemma batchLoop_counts (wallets : list Wallet) (k : nat) :
  Forall validWallet wallets →
  ∀ (fuel i : nat) (rest : list RateLimiterManager.Acquisition) (w : World),
    (k ≤ fuel)%nat →
    (length wallets - i ≤ 5 * k)%nat →
    (5 * k < length wallets - i + 5)%nat →
    ∃ w' sizes,
      WalletTracker.batchLoop tracker wallets network blockNumber dateStr blockTimestampDate
        fuel i (replicate k (RateLimiterManager.TokenRemoved true) ++ rest) w
      = (Returned tt, w', rest)
      ∧ fetchBatches w' = (fetchBatches w ++ sizes)%list
      ∧ length sizes = k
      ∧ Forall (λ size, (1 ≤ size ≤ 5)%nat) sizes
      ∧ sum_list sizes = (length wallets - i)%nat
      ∧ transactions w' = (transactions w + (length wallets - i))%nat.
Proof.
  intros Hvalid. induction k as [| k IH]; intros fuel i rest w Hfuel Hupper Hlower.
  - exists w, []. rewrite (batchLoop_done tracker network) by lia.
    cbn [replicate app length sum_list]. rewrite app_nil_r.
    repeat split; [constructor | lia | lia].
  - destruct fuel as [| fuel]; [lia |]. cbn [replicate app].
    destruct (batchLoop_step tracker network blockNumber dateStr blockTimestampDate limiter
                client configured lowerCaseAccepted limiterExists clientExists
                networkConfigured tokensValid endpointAnswers wallets fuel i
                (replicate k (RateLimiterManager.TokenRemoved true) ++ rest) w Hvalid
                ltac:(lia)) as (w1 & -> & Htx & Hb).
    rewrite length_take, length_drop in Htx, Hb. unfold WALLET_BALANCE_BATCH_SIZE in *.
    destruct (IH fuel (i + 5)%nat rest w1 ltac:(lia) ltac:(lia) ltac:(lia))
      as (w' & sizes & -> & Hb' & Hlen & Hsizes & Hsum & Htx').
    exists w', (5 `min` (length wallets - i) :: sizes)%nat.
    split; [reflexivity |]. split; [rewrite Hb', Hb, <- app_assoc; reflexivity |].
    split; [cbn [length]; lia |]. split; [constructor; [lia | exact Hsizes] |].
    split; [change (sum_list (?x :: sizes)) with (x + sum_list sizes)%nat; lia | lia].
Qed.

(** X17. Batching for any number of wallets.  With valid addresses, a
    configured network and enough successful acquisitions, fetching [n]
    wallets returns after [ceil(n / 5)] acquisitions and as many multicalls,
    each for 1 to 5 wallets and [n] wallets in all, and after exactly [n]
    transactions, one per wallet; acquisitions beyond these are left
    unused.  In particular a single wallet, the only case the callers use,
    costs one acquisition, one multicall and one transaction, and no wallet
    costs nothing. *)
Theorem fetchAndSaveWalletBatches_counts (wallets : list Wallet)
    (rest : list RateLimiterManager.Acquisition) (w : World) :
  Forall validWallet wallets →
  ∃ w' sizes,
    WalletTracker.fetchAndSaveWalletBatches tracker wallets network blockNumber dateStr
      blockTimestampDate
      (replicate ((length wallets + 4) / 5)%nat (RateLimiterManager.TokenRemoved true) ++ rest) w
    = (Returned tt, w', rest)
    ∧ fetchBatches w' = (fetchBatches w ++ sizes)%list
    ∧ length sizes = ((length wallets + 4) / 5)%nat
    ∧ Forall (λ size, (1 ≤ size ≤ 5)%nat) sizes
    ∧ sum_list sizes = length wallets
    ∧ transactions w' = (transactions w + length wallets)%nat.
Proof.
  intros Hvalid. unfold WalletTracker.fetchAndSaveWalletBatches.
  pose proof (Nat.div_mod_eq (length wallets + 4) 5) as Hdiv.
  pose proof (Nat.mod_upper_bound (length wallets + 4) 5 ltac:(lia)) as Hmod.
  destruct (batchLoop_counts wallets ((length wallets + 4) / 5)%nat Hvalid (length wallets) 0
              rest w ltac:(lia) ltac:(lia) ltac:(lia))
    as (w' & sizes & Hrun & Hb & Hlen & Hsizes & Hsum & Htx).
  rewrite Nat.sub_0_r in Hsum, Htx. exists w', sizes. auto 10.
Qed.

End AnyBatches.

Lemma fetchAndSaveWalletBatches_counts_witness :
  ∃ w' sizes,
    @WalletTracker.fetchAndSaveWalletBatches strictViem demoTracker sevenWallets ethereum
      1000 "2024-01-01" 13000000
      (replicate ((length sevenWallets + 4) / 5)%nat (RateLimiterManager.TokenRemoved true) ++ [])
      emptyWorld
    = (Returned tt, w', [])
    ∧ fetchBatches w' = (fetchBatches emptyWorld ++ sizes)%list
    ∧ length sizes = ((length sevenWallets + 4) / 5)%nat
    ∧ Forall (λ size, (1 ≤ size ≤ 5)%nat) sizes
    ∧ sum_list sizes = length sevenWallets
    ∧ transactions w' = (transactions emptyWorld + length sevenWallets)%nat.
Proof.
  apply (@fetchAndSaveWalletBatches_counts strictViem demoTracker ethereum 1000 "2024-01-01"
           13000000 (RateLimiterManager.mkRateLimiter 10 "second" true) answeringClient
           ethereum).
  - exact viemIsAddress_toLowerCase.
  - reflexivity.
  - reflexivity.
  - reflexivity.
  - repeat constructor.
  - intros contracts b. eexists. split; [reflexivity | apply length_fmap].
  - repeat constructor.
Defined.

(** The seven wallets, evaluated: two acquisitions, batches of 5 and 2, seven
    transactions. *)
Example fetchAndSaveWalletBatches_seven :
  let '(outcome, w', rest) :=
    @WalletTracker.fetchAndSaveWalletBatches strictViem demoTracker sevenWallets ethereum
      1000 "2024-01-01" 13000000
      (replicate 2 (RateLimiterManager.TokenRemoved true)) emptyWorld in
  outcome = Returned tt ∧ rest = [] ∧ fetchBatches w' = [5; 2]%nat ∧ transactions w' = 7%nat.
Proof. vm_compute. repeat split. Qed.

(** ** End of day, resolution and freshness together *)

Lemma div_bounds (a b : Z) : 0 < b → b * (a / b) ≤ a < b * (a / b) + b.
Proof.
  intros Hb. pose proof (Z.div_mod a b ltac:(lia)). pose proof (Z.mod_pos_bound a b Hb). lia.
Qed.

Lemma getEndOfDay_unfold (date : Z) : getEndOfDay date = 86400000 * (date / 86400000) + 86399999.
Proof. unfold getEndOfDay, setUTCHours, MS_PER_DAY. lia. Qed.

(** X18. [getEndOfDay] for every time value, before 1970 included: the
    result lies in the same UTC day, so it has the same date string, is
    never before the date and less than a day after it, is the instant
    23:59:59.999 of the day, depends only on the day, and is a fixed point
    of the function. *)
Theorem getEndOfDay_same_day (date : Z) :
  date ≤ getEndOfDay date < date + 86400000
  ∧ getEndOfDay date / 86400000 = date / 86400000
  ∧ getEndOfDay date mod 86400000 = 86399999
  ∧ toISODateString (getEndOfDay date) = toISODateString date
  ∧ getEndOfDay (getEndOfDay date) = getEndOfDay date
  ∧ ∀ other, other / 86400000 = date / 86400000 → getEndOfDay other = getEndOfDay date.
Proof.
  pose proof (div_bounds date 86400000 ltac:(lia)) as Hdate.
  assert (Hday : getEndOfDay date / 86400000 = date / 86400000).
  { rewrite getEndOfDay_unfold. symmetry. apply (Z.div_unique _ _ _ 86399999); lia. }
  split; [rewrite getEndOfDay_unfold; lia |].
  split; [exact Hday |].
  split; [rewrite getEndOfDay_unfold; symmetry; apply (Z.mod_unique _ _ (date / 86400000)); lia |].
  split; [unfold toISODateString, MS_PER_DAY; rewrite Hday; reflexivity |].
  split.
  - rewrite (getEndOfDay_unfold (getEndOfDay date)), Hday, <- getEndOfDay_unfold. reflexivity.
  - intros other Hother. rewrite !getEndOfDay_unfold, Hother. reflexivity.
Qed.

(** X19. Resolution and freshness fit together as follows.  The tracker
    resolves a date to a block for the target second
    [floor(endOfDay / 1000)] and stores the snapshot with the block's
    timestamp in milliseconds.  Such a snapshot passes the historical
    freshness rule exactly when the block's timestamp is between 10799
    seconds before and 10800 seconds after the target: a block accepted
    within the one-hour tolerance always gives a fresh snapshot, and a block
    more than three hours before the target, like the current block stored
    for a date in the future, never does. *)
Theorem resolved_block_freshness (now date blockTimestamp : Z) :
  let target := setUTCHours date 23 59 59 999 / 1000 in
  (isBalanceTimestampValid now (Some (blockTimestamp * 1000)) date false = true
   ↔ target - 10799 ≤ blockTimestamp ≤ target + 10800)
  ∧ (Z.abs (blockTimestamp - target) ≤ oneHour →
     isBalanceTimestampValid now (Some (blockTimestamp * 1000)) date false = true)
  ∧ (blockTimestamp < target - 10799 →
     isBalanceTimestampValid now (Some (blockTimestamp * 1000)) date false = false).
Proof.
  intros target.
  assert (Htarget : getEndOfDay date = 1000 * target + 999).
  { unfold target. fold (getEndOfDay date). rewrite getEndOfDay_unfold.
    rewrite <- (Z.div_unique (86400000 * (date / 86400000) + 86399999) 1000
                  (86400 * (date / 86400000) + 86399) 999); lia. }
  assert (Hiff : isBalanceTimestampValid now (Some (blockTimestamp * 1000)) date false = true
                 ↔ target - 10799 ≤ blockTimestamp ≤ target + 10800).
  { unfold isBalanceTimestampValid, isWithinDuration, ONE_HOUR_MS.
    rewrite Z.leb_le, Htarget. lia. }
  split; [exact Hiff |]. split.
  - intros Hclose. apply Hiff. unfold oneHour in Hclose. lia.
  - intros Hfar. apply not_true_is_false. rewrite Hiff. lia.
Qed.

(** ** The text of a balance *)

(** X20. The text recorded for a multicall result.  It is never empty; a
    present result is recorded as its decimal text, so different values give
    different texts and the ["0"] fallback never replaces a value; and the
    text is "0" exactly for an absent result and for the value 0, which are
    therefore indistinguishable afterwards. *)
Theorem balanceText_faithful (result : option Z) :
  balanceText result ≠ ""
  ∧ (∀ value, result = Some value → balanceText result = pretty value)
  ∧ (∀ a b, balanceText (Some a) = balanceText (Some b) → a = b)
  ∧ (balanceText result = "0" ↔ result = None ∨ result = Some 0).
Proof.
  assert (Hsome : ∀ value, balanceText (Some value) = pretty value).
  { intros value. unfold balanceText. cbn [fmap option_fmap option_map].
    rewrite bool_decide_eq_false_2 by apply pretty_Z_nonempty. reflexivity. }
  split; [| split; [| split]].
  - destruct result as [value |]; [rewrite Hsome; apply pretty_Z_nonempty | discriminate].
  - intros value ->. apply Hsome.
  - intros a b. rewrite !Hsome. apply pretty_Z_inj.
  - destruct result as [value |].
    + rewrite Hsome. split.
      * intros E. right. f_equal. apply pretty_Z_inj. exact E.
      * intros [? | [= ->]]; [discriminate | reflexivity].
    + split; [auto | reflexivity].
Qed.

(** ** Calendar dates *)

(** The year of the era and the day of that year, for a day of the
    400-year era. *)
Lemma yearOfEra_bounds (doe : Z) :
  0 ≤ doe ≤ 146096 →
  let yoe := (doe - doe / 1460 + doe / 36524 - doe / 146096) / 365 in
  let doy := doe - (365 * yoe + yoe / 4 - yoe / 100) in
  0 ≤ yoe ≤ 399 ∧ 0 ≤ doy ≤ 365.
Proof.
  intros Hdoe yoe doy. subst doy yoe.
  pose proof (div_bounds doe 1460 eq_refl) as H1.
  pose proof (div_bounds doe 36524 eq_refl) as H2.
  pose proof (div_bounds doe 146096 eq_refl) as H3.
  set (g := doe - doe / 1460 + doe / 36524 - doe / 146096) in *.
  pose proof (div_bounds g 365 eq_refl) as Hg.
  set (yoe := g / 365) in *.
  pose proof (div_bounds yoe 4 eq_refl) as H4.
  pose proof (div_bounds yoe 100 eq_refl) as H100.
  subst g. lia.
Qed.

Lemma daysFromCivil_civilFromDays (days : Z) :
  let '(y, m, d) := civilFromDays days in daysFromCivil y m d = days.
Proof.
  unfold civilFromDays. cbv zeta.
  pose proof (div_bounds (days + 719468) 146097 eq_refl) as Hera.
  set (era := (days + 719468) / 146097) in *.
  set (doe := days + 719468 - era * 146097).
  pose proof (yearOfEra_bounds doe ltac:(subst doe; lia)) as [Hyoe Hdoy]. cbv zeta in Hyoe, Hdoy.
  set (yoe := (doe - doe / 1460 + doe / 36524 - doe / 146096) / 365) in *.
  set (doy := doe - (365 * yoe + yoe / 4 - yoe / 100)) in *.
  pose proof (div_bounds (5 * doy + 2) 153 eq_refl) as Hmp.
  set (mp := (5 * doy + 2) / 153) in *.
  assert (Heradiv : ∀ a, 0 ≤ a ≤ 399 → (a + era * 400) / 400 = era).
  { intros a Ha. rewrite Z.div_add, Z.div_small by lia. reflexivity. }
  unfold daysFromCivil. cbv zeta.
  destruct (Z.ltb_spec mp 10) as [Hlt | Hge].
  - rewrite (proj2 (Z.leb_gt (mp + 3) 2)) by lia.
    rewrite (proj2 (Z.gtb_lt (mp + 3) 2)) by lia.
    rewrite (Heradiv yoe Hyoe).
    replace (yoe + era * 400 - era * 400) with yoe by ring.
    replace (mp + 3 - 3) with mp by ring. subst doy doe. ring.
  - rewrite (proj2 (Z.leb_le (mp - 9) 2)) by lia.
    replace (mp - 9 >? 2) with false by (symmetry; rewrite Z.gtb_ltb; apply Z.ltb_ge; lia).
    replace (yoe + era * 400 + 1 - 1) with (yoe + era * 400) by ring.
    rewrite (Heradiv yoe Hyoe).
    replace (yoe + era * 400 - era * 400) with yoe by ring.
    replace (mp - 9 + 9) with mp by ring. subst doy doe. ring.
Qed.

Lemma daysFromCivil_day (y m d : Z) : daysFromCivil y m d = daysFromCivil y m 1 + d - 1.
Proof. unfold daysFromCivil. cbv zeta. ring. Qed.

Lemma setUTCDate_getUTCDate (day i : Z) :
  setUTCDate (day * MS_PER_DAY) (getUTCDate (day * MS_PER_DAY) - i) = (day - i) * MS_PER_DAY.
Proof.
  unfold setUTCDate, getUTCDate.
  rewrite Z.div_mul, Z.mod_mul by (unfold MS_PER_DAY; lia).
  pose proof (daysFromCivil_civilFromDays day) as Hday.
  destruct (civilFromDays day) as [[y m] d]. rewrite daysFromCivil_day in Hday.
  rewrite Z.add_0_r. f_equal. lia.
Qed.

(** X21. [getLastNDays] returns the UTC midnights of [days] consecutive
    days, newest first, counted back from the earlier of the start date's
    day and today: stepping back with [setUTCDate] crosses month and year
    boundaries correctly.  No returned date is after the current instant,
    and a start date in the future gives the same list as today. *)
Theorem getLastNDays_consecutive (now days startDate : Z) :
  getLastNDays now days startDate
  = (λ i : nat, (Z.min (startDate / MS_PER_DAY) (now / MS_PER_DAY) - Z.of_nat i) * MS_PER_DAY)
      <$> seq 0 (Z.to_nat days)
  ∧ length (getLastNDays now days startDate) = Z.to_nat days
  ∧ Forall (λ date, date ≤ now) (getLastNDays now days startDate)
  ∧ (now ≤ startDate → getLastNDays now days startDate = getLastNDays now days now).
Proof.
  assert (Heq : ∀ start,
            getLastNDays now days start
            = (λ i : nat, (Z.min (start / MS_PER_DAY) (now / MS_PER_DAY) - Z.of_nat i) * MS_PER_DAY)
                <$> seq 0 (Z.to_nat days)).
  { intros start. unfold getLastNDays. cbv zeta. apply list_fmap_ext. intros _ i _.
    assert (Hday : ∀ t, setUTCHours t 0 0 0 0 = t / MS_PER_DAY * MS_PER_DAY).
    { intros t. unfold setUTCHours. ring. }
    rewrite !Hday.
    assert (Heff : (if start >? now / MS_PER_DAY * MS_PER_DAY
                    then now / MS_PER_DAY * MS_PER_DAY else start) / MS_PER_DAY
                   = Z.min (start / MS_PER_DAY) (now / MS_PER_DAY)).
    { pose proof (div_bounds start MS_PER_DAY eq_refl) as Hs.
      pose proof (div_bounds now MS_PER_DAY eq_refl) as Hn.
      unfold MS_PER_DAY in *.
      destruct (Z.gtb_spec start (now / 86400000 * 86400000)) as [Hgt | Hle].
      - rewrite Z.div_mul by lia. lia.
      - lia. }
    rewrite Heff. apply setUTCDate_getUTCDate. }
  split; [apply Heq |]. split; [| split].
  - rewrite Heq, length_fmap, length_seq. reflexivity.
  - rewrite Heq. apply Forall_fmap, Forall_forall. intros i _. cbn.
    pose proof (div_bounds now MS_PER_DAY eq_refl) as Hn. unfold MS_PER_DAY in *. lia.
  - intros Hfuture. rewrite !Heq. apply list_fmap_ext. intros _ i _.
    pose proof (Z.div_le_mono now startDate MS_PER_DAY eq_refl Hfuture). do 2 f_equal. lia.
Qed.

(** ** Date strings *)

Lemma string_app_cons (c : ascii) (s t : string) : String c s +:+ t = String c (s +:+ t).
Proof. reflexivity. Qed.

Lemma string_app_nil_l (s : string) : "" +:+ s = s.
Proof. reflexivity. Qed.

Lemma string_app_length (s t : string) :
  String.length (s +:+ t) = (String.length s + String.length t)%nat.
Proof.
  induction s as [| c s IH]; [reflexivity |].
  rewrite string_app_cons. cbn [String.length]. rewrite IH. reflexivity.
Qed.

Lemma string_app_assoc (s t u : string) : (s +:+ t) +:+ u = s +:+ (t +:+ u).
Proof.
  induction s as [| c s IH]; [reflexivity |]. rewrite !string_app_cons, IH. reflexivity.
Qed.

Lemma string_app_inj_length (s1 s2 t1 t2 : string) :
  String.length s1 = String.length s2 → s1 +:+ t1 = s2 +:+ t2 → s1 = s2 ∧ t1 = t2.
Proof.
  revert s2. induction s1 as [| c s1 IH]; intros [| c' s2] Hlen Heq; try discriminate.
  - split; [reflexivity | exact Heq].
  - rewrite !string_app_cons in Heq. injection Heq as -> Heq. injection Hlen as Hlen.
    destruct (IH s2 Hlen Heq) as [-> ->]. split; reflexivity.
Qed.

Lemma padDigits_app (width : nat) (n : Z) (acc : string) :
  padDigits width n acc = padDigits width n "" +:+ acc.
Proof.
  revert n acc. induction width as [| width IH]; intros n acc; [reflexivity |].
  cbn [padDigits]. rewrite IH, (IH _ (String _ "")), string_app_assoc. reflexivity.
Qed.

Lemma padDigits_length (width : nat) (n : Z) (acc : string) :
  String.length (padDigits width n acc) = (width + String.length acc)%nat.
Proof.
  revert n acc. induction width as [| width IH]; intros n acc; [reflexivity |].
  cbn [padDigits]. rewrite IH. cbn [String.length]. lia.
Qed.

Lemma digitChar_inj (a b : Z) : digitChar a = digitChar b → a mod 10 = b mod 10.
Proof.
  unfold digitChar. intros Heq. apply (f_equal nat_of_ascii) in Heq.
  pose proof (Z.mod_pos_bound a 10 eq_refl). pose proof (Z.mod_pos_bound b 10 eq_refl).
  rewrite !nat_ascii_embedding in Heq by lia. lia.
Qed.

Lemma padDigits_inj (width : nat) (a b : Z) :
  0 ≤ a < 10 ^ Z.of_nat width → 0 ≤ b < 10 ^ Z.of_nat width →
  padDigits width a "" = padDigits width b "" → a = b.
Proof.
  revert a b. induction width as [| width IH]; intros a b Ha Hb Heq.
  - cbn in Ha, Hb. lia.
  - rewrite Nat2Z.inj_succ, Z.pow_succ_r in Ha, Hb by lia.
    cbn [padDigits] in Heq. rewrite (padDigits_app _ (a / 10)), (padDigits_app _ (b / 10)) in Heq.
    apply string_app_inj_length in Heq as [Hhigh Hlow]; [| rewrite !padDigits_length; reflexivity].
    injection Hlow as Hlow. apply digitChar_inj in Hlow.
    pose proof (div_bounds a 10 eq_refl). pose proof (div_bounds b 10 eq_refl).
    pose proof (Z.div_mod a 10 ltac:(lia)). pose proof (Z.div_mod b 10 ltac:(lia)).
    assert (a / 10 = b / 10) by (apply IH; [lia | lia | exact Hhigh]).
    lia.
Qed.

Lemma isoDate_inj (y m d y' m' d' : Z) :
  -999999 ≤ y ≤ 999999 → -999999 ≤ y' ≤ 999999 →
  0 ≤ m < 100 → 0 ≤ m' < 100 → 0 ≤ d < 100 → 0 ≤ d' < 100 →
  isoYear y +:+ "-" +:+ padDigits 2 m "" +:+ "-" +:+ padDigits 2 d ""
  = isoYear y' +:+ "-" +:+ padDigits 2 m' "" +:+ "-" +:+ padDigits 2 d' "" →
  y = y' ∧ m = m' ∧ d = d'.
Proof.
  intros Hy Hy' Hm Hm' Hd Hd' Heq.
  assert (Hrest : "-" +:+ padDigits 2 m "" +:+ "-" +:+ padDigits 2 d ""
                  = "-" +:+ padDigits 2 m' "" +:+ "-" +:+ padDigits 2 d' "" →
                  m = m' ∧ d = d').
  { intros Hrest.
    pose proof (padDigits_length 2 m "") as Lm. pose proof (padDigits_length 2 m' "") as Lm'.
    remember (padDigits 2 m "") as mm eqn:Emm. remember (padDigits 2 m' "") as mm' eqn:Emm'.
    remember (padDigits 2 d "") as dd eqn:Edd. remember (padDigits 2 d' "") as dd' eqn:Edd'.
    rewrite !string_app_cons, !string_app_nil_l in Hrest. injection Hrest as Hrest.
    apply string_app_inj_length in Hrest as [Hmm Hdd]; [| congruence].
    injection Hdd as Hdd.
    subst mm mm' dd dd'.
    apply padDigits_inj in Hmm; [| cbn; lia | cbn; lia].
    apply padDigits_inj in Hdd; [| cbn; lia | cbn; lia]. auto. }
  pose proof (f_equal String.length Heq) as Hlen.
  rewrite !string_app_length, !padDigits_length in Hlen.
  unfold isoYear in Heq, Hlen.
  destruct ((0 <=? y) && (y <=? 9999)) eqn:Ey, ((0 <=? y') && (y' <=? 9999)) eqn:Ey'.
  - apply string_app_inj_length in Heq as [Hyear Hrest']; [| rewrite !padDigits_length; reflexivity].
    apply andb_true_iff in Ey as [?%Z.leb_le ?%Z.leb_le].
    apply andb_true_iff in Ey' as [?%Z.leb_le ?%Z.leb_le].
    split; [| exact (Hrest Hrest')]. apply (padDigits_inj 4); [cbn; lia | cbn; lia | exact Hyear].
  - rewrite string_app_length, !padDigits_length in Hlen.
    destruct (y' <? 0); cbn in Hlen; lia.
  - rewrite string_app_length, !padDigits_length in Hlen.
    destruct (y <? 0); cbn in Hlen; lia.
  - rewrite !string_app_assoc in Heq.
    assert (Hsign : ∀ z, String.length (if z <? 0 then "-" else "+") = 1%nat)
      by (intros z; destruct (z <? 0); reflexivity).
    apply string_app_inj_length in Heq as [Hsigns Heq]; [| rewrite !Hsign; reflexivity].
    apply string_app_inj_length in Heq as [Hyear Hrest']; [| rewrite !padDigits_length; reflexivity].
    split; [| exact (Hrest Hrest')].
    apply (padDigits_inj 6) in Hyear; [| cbn; lia | cbn; lia].
    destruct (Z.ltb_spec y 0), (Z.ltb_spec y' 0); try discriminate; lia.
Qed.

Lemma civilFromDays_range (days : Z) :
  let '(y, m, d) := civilFromDays days in
  1 ≤ m ≤ 12 ∧ 1 ≤ d ≤ 31
  ∧ 400 * ((days + 719468) / 146097) ≤ y ≤ 400 * ((days + 719468) / 146097) + 400.
Proof.
  unfold civilFromDays. cbv zeta.
  pose proof (div_bounds (days + 719468) 146097 eq_refl) as Hera.
  set (era := (days + 719468) / 146097) in *.
  set (doe := days + 719468 - era * 146097).
  pose proof (yearOfEra_bounds doe ltac:(subst doe; lia)) as [Hyoe Hdoy]. cbv zeta in Hyoe, Hdoy.
  set (yoe := (doe - doe / 1460 + doe / 36524 - doe / 146096) / 365) in *.
  set (doy := doe - (365 * yoe + yoe / 4 - yoe / 100)) in *.
  pose proof (div_bounds (5 * doy + 2) 153 eq_refl) as Hmp.
  set (mp := (5 * doy + 2) / 153) in *.
  pose proof (div_bounds (153 * mp + 2) 5 eq_refl) as Hq.
  destruct (mp <? 10) eqn:Emp; [apply Z.ltb_lt in Emp | apply Z.ltb_ge in Emp];
    destruct (_ <=? 2); lia.
Qed.

Lemma civilFromDays_inj (a b : Z) : civilFromDays a = civilFromDays b → a = b.
Proof.
  intros Heq. pose proof (daysFromCivil_civilFromDays a) as Ha.
  pose proof (daysFromCivil_civilFromDays b) as Hb. rewrite Heq in Ha.
  destruct (civilFromDays b) as [[y m] d]. congruence.
Qed.

(** X22. The date string identifies the UTC day.  For two instants in the
    range of a JavaScript [Date], [toISODateString] gives the same text
    exactly when they fall on the same UTC day, so [isToday] holds exactly
    for the instants of the current UTC day, and different days never share
    a [date] key. *)
Theorem toISODateString_same_day (a b : Z) :
  -8640000000000000 ≤ a ≤ 8640000000000000 →
  -8640000000000000 ≤ b ≤ 8640000000000000 →
  (toISODateString a = toISODateString b ↔ a / MS_PER_DAY = b / MS_PER_DAY)
  ∧ (isToday b a = true ↔ a / MS_PER_DAY = b / MS_PER_DAY).
Proof.
  intros Ha Hb.
  assert (Hiff : toISODateString a = toISODateString b ↔ a / MS_PER_DAY = b / MS_PER_DAY).
  { split; [| unfold toISODateString; intros ->; reflexivity].
    unfold toISODateString. intros Heq. apply civilFromDays_inj.
    pose proof (civilFromDays_range (a / MS_PER_DAY)) as Hra.
    pose proof (civilFromDays_range (b / MS_PER_DAY)) as Hrb.
    pose proof (div_bounds a MS_PER_DAY eq_refl) as Hda.
    pose proof (div_bounds b MS_PER_DAY eq_refl) as Hdb.
    pose proof (div_bounds (a / MS_PER_DAY + 719468) 146097 eq_refl) as Hea.
    pose proof (div_bounds (b / MS_PER_DAY + 719468) 146097 eq_refl) as Heb.
    unfold MS_PER_DAY in *.
    destruct (civilFromDays (a / 86400000)) as [[y m] d].
    destruct (civilFromDays (b / 86400000)) as [[y' m'] d'].
    apply isoDate_inj in Heq as (-> & -> & ->); [reflexivity | lia ..]. }
  split; [exact Hiff |]. unfold isToday. rewrite bool_decide_eq_true. exact Hiff.
Qed.

Lemma toISODateString_same_day_witness :
  (toISODateString 0 = toISODateString 86399999 ↔ 0 / MS_PER_DAY = 86399999 / MS_PER_DAY)
  ∧ (isToday 86399999 0 = true ↔ 0 / MS_PER_DAY = 86399999 / MS_PER_DAY).
Proof. apply (toISODateString_same_day 0 86399999); lia. Defined.

(** ** Columns of the terminal table *)

Lemma substring_length (s : string) (n m : nat) :
  (n + m ≤ String.length s)%nat → String.length (substring n m s) = m.
Proof.
  revert n m. induction s as [| c s IH]; intros n m Hlen; cbn [String.length] in Hlen.
  - destruct n, m; try lia. reflexivity.
  - destruct n as [| n].
    + destruct m as [| m]; [reflexivity |]. cbn [substring String.length].
      rewrite IH by lia. reflexivity.
    + cbn [substring]. apply IH. lia.
Qed.

Lemma slice_length (s : string) (start : Z) (end_ : option Z) :
  String.length (slice s start end_)
  = Z.to_nat (let len := Z.of_nat (String.length s) in
              let from := if start <? 0 then Z.max (len + start) 0 else Z.min start len in
              let to := match end_ with
                        | None => len
                        | Some e => if e <? 0 then Z.max (len + e) 0 else Z.min e len
                        end in
              Z.max (to - from) 0).
Proof.
  unfold slice. cbv zeta. apply substring_length.
  destruct end_ as [e |]; [destruct (Z.ltb_spec e 0) |]; destruct (Z.ltb_spec start 0); lia.
Qed.

Lemma spaces_length (n : nat) : String.length (spaces n) = n.
Proof. induction n as [| n IH]; [reflexivity |]. cbn [spaces String.length]. rewrite IH. reflexivity. Qed.

Lemma pad_fits (str : option string) (len : Z) :
  Z.of_nat (String.length (default "" str)) ≤ len →
  pad str len
  = default "" str +:+ spaces (Z.to_nat (len - Z.of_nat (String.length (default "" str)))).
Proof.
  intros Hfits. unfold pad. rewrite Z.gtb_ltb, (proj2 (Z.ltb_ge _ _) Hfits). reflexivity.
Qed.

(** X23. [pad] gives a column of exactly [len] code units when [len] is at
    least 3, also for [undefined]: a text that fits is kept in full and
    followed only by spaces, a longer one is cut to its first [len - 3] code
    units followed by three dots. *)
Theorem pad_width (str : option string) (len : Z) :
  3 ≤ len →
  Z.of_nat (String.length (pad str len)) = len
  ∧ (Z.of_nat (String.length (default "" str)) ≤ len →
     ∃ n, pad str len = default "" str +:+ spaces n)
  ∧ (len < Z.of_nat (String.length (default "" str)) →
     pad str len = substring 0 (Z.to_nat (len - 3)) (default "" str) +:+ "...").
Proof.
  intros Hlen. unfold pad.
  destruct (Z.gtb_spec (Z.of_nat (String.length (default "" str))) len) as [Hlong | Hfits].
  - split; [| split; [lia |]].
    + rewrite string_app_length, slice_length. cbv zeta.
      rewrite (proj2 (Z.ltb_ge 0 0)) by lia.
      destruct (Z.ltb_spec (len - 3) 0); cbn [String.length]; lia.
    + intros _. unfold slice. cbv zeta.
      rewrite (proj2 (Z.ltb_ge 0 0)), (proj2 (Z.ltb_ge (len - 3) 0)) by lia.
      do 2 f_equal; lia.
  - split; [| split; [intros _; eexists; reflexivity | lia]].
    unfold padEnd. rewrite string_app_length, spaces_length. lia.
Qed.

Lemma pad_width_witness :
  Z.of_nat (String.length (pad (Some "Arbitrum One Mainnet") 15)) = 15
  ∧ (Z.of_nat (String.length (default "" (Some "Arbitrum One Mainnet"))) ≤ 15 →
     ∃ n, pad (Some "Arbitrum One Mainnet") 15 = default "" (Some "Arbitrum One Mainnet") +:+ spaces n)
  ∧ (15 < Z.of_nat (String.length (default "" (Some "Arbitrum One Mainnet"))) →
     pad (Some "Arbitrum One Mainnet") 15
     = substring 0 (Z.to_nat (15 - 3)) (default "" (Some "Arbitrum One Mainnet")) +:+ "...").
Proof. apply (pad_width (Some "Arbitrum One Mainnet") 15). lia. Defined.

(** X24. [shortenAddress] returns 13 code units for every address longer
    than 10 and the address itself otherwise, so never more than 13: the
    address column of width 28 shows a shortened address in full, followed
    only by spaces. *)
Theorem shortenAddress_width (addr : string) :
  (String.length (shortenAddress addr)
   = if Z.of_nat (String.length addr) >? 10 then 13%nat else String.length addr)
  ∧ (String.length (shortenAddress addr) ≤ 13)%nat
  ∧ ∃ n, pad (Some (shortenAddress addr)) 28 = shortenAddress addr +:+ spaces n.
Proof.
  assert (Hwidth : String.length (shortenAddress addr)
                   = if Z.of_nat (String.length addr) >? 10 then 13%nat else String.length addr).
  { unfold shortenAddress. destruct (Z.gtb_spec (Z.of_nat (String.length addr)) 10) as [Hlong | Hshort];
      [| reflexivity].
    rewrite !string_app_length, !slice_length. cbv zeta.
    change (6 <? 0) with false. change (-4 <? 0) with true. change (0 <? 0) with false.
    cbn [String.length]. lia. }
  assert (Hbound : (String.length (shortenAddress addr) ≤ 13)%nat).
  { rewrite Hwidth. clear Hwidth.
    destruct (Z.gtb_spec (Z.of_nat (String.length addr)) 10) as [Hlong | Hshort]; [lia |].
    generalize dependent (String.length addr). intros n Hshort. lia. }
  split; [exact Hwidth |]. split; [exact Hbound |].
  eexists. apply pad_fits. cbn [from_option id]. lia.
Qed.

(** ** The history view *)

Lemma tokensOf_app (a b : list DisplayWalletBalance) :
  tokensOf (a ++ b) = (tokensOf a ++ tokensOf b)%list.
Proof. unfold tokensOf. rewrite fmap_app, concat_app. reflexivity. Qed.

Lemma filedUnder_snoc (config : Config) (rows : list (BalanceRow * Z)) (entry : BalanceRow * Z)
    (b : DisplayWalletBalance) :
  filedUnder config rows b → filedUnder config (rows ++ [entry]) b.
Proof.
  intros (Hne & Hlabel & Hname & Htokens). repeat split; try assumption.
  eapply Forall_impl; [exact Htokens |]. intros token (e & He & Hrest).
  exists e. split; [apply elem_of_app; left; exact He | exact Hrest].
Qed.

Lemma isWalletOf_true (row : BalanceRow) (b : DisplayWalletBalance) :
  BalanceDatabase.isWalletOf row b = true →
  row_wallet_address row = dwb_address b ∧ row_network_id row = dwb_network_id b.
Proof.
  unfold BalanceDatabase.isWalletOf. intros [Ha Hn]%andb_true_iff.
  apply bool_decide_eq_true in Ha. apply Z.eqb_eq in Hn. auto.
Qed.

Lemma pushToken_found (config : Config) (rows : list (BalanceRow * Z)) (entry : BalanceRow * Z)
    (group : list DisplayWalletBalance) :
  List.find (BalanceDatabase.isWalletOf entry.1) group ≠ None →
  tokensOf (BalanceDatabase.pushToken entry.1 (tokenOfRow entry) group)
  ≡ₚ (tokensOf group ++ [tokenOfRow entry])%list
  ∧ (Forall (filedUnder config rows) group →
     Forall (filedUnder config (rows ++ [entry]))
            (BalanceDatabase.pushToken entry.1 (tokenOfRow entry) group)).
Proof.
  induction group as [| b group IH]; [intros []; reflexivity |].
  cbn [List.find BalanceDatabase.pushToken]. destruct (BalanceDatabase.isWalletOf entry.1 b) eqn:Eb.
  - intros _. split.
    + unfold tokensOf. cbn [fmap list_fmap concat dwb_tokens].
      rewrite <- !app_assoc. apply Permutation_app_head, Permutation_app_comm.
    + intros Hgroup. apply Forall_cons in Hgroup as [Hb Hgroup].
      apply Forall_cons. split.
      * apply (filedUnder_snoc _ _ entry) in Hb. destruct Hb as (Hne & Hlabel & Hname & Htokens).
        apply isWalletOf_true in Eb as [Haddress Hnetwork].
        repeat split; cbn [dwb_tokens dwb_label dwb_network dwb_network_id dwb_address];
          try assumption.
        -- intros E. apply app_eq_nil in E as [_ [=]].
        -- apply Forall_app. split; [exact Htokens |]. apply Forall_singleton.
           exists entry. split; [apply elem_of_app; right; apply list_elem_of_singleton; reflexivity |].
           auto.
      * eapply Forall_impl; [exact Hgroup |]. intros b'. apply filedUnder_snoc.
  - intros Hfound. destruct (IH Hfound) as [Hperm Hfiled]. split.
    + unfold tokensOf in *. cbn [fmap list_fmap concat]. rewrite <- app_assoc.
      apply Permutation_app_head. exact Hperm.
    + intros Hgroup. apply Forall_cons in Hgroup as [Hb Hgroup].
      apply Forall_cons. split; [apply filedUnder_snoc, Hb | apply Hfiled, Hgroup].
Qed.

Lemma pushToken_fresh (row : BalanceRow) (token : TokenBalance)
    (group : list DisplayWalletBalance) (fresh : DisplayWalletBalance) :
  List.find (BalanceDatabase.isWalletOf row) group = None → BalanceDatabase.isWalletOf row fresh = true →
  BalanceDatabase.pushToken row token (group ++ [fresh])
  = (group ++ [mkDisplayWalletBalance (dwb_address fresh) (dwb_label fresh) (dwb_network fresh)
                 (dwb_network_id fresh) (dwb_tokens fresh ++ [token]) (dwb_date fresh)])%list.
Proof.
  intros Hnone Hfresh. induction group as [| b group IH]; cbn [List.find app BalanceDatabase.pushToken] in *.
  - rewrite Hfresh. reflexivity.
  - destruct (BalanceDatabase.isWalletOf row b); [discriminate |]. rewrite (IH Hnone). reflexivity.
Qed.

Lemma mapSet_values {K V T} `{EqDecision K} (g : V → list T) (key : K) (v : V)
    (m : list (K * V)) (extra : list T) :
  g v ≡ₚ (g (default v (mapGet key m)) ++ extra)%list →
  concat (g <$> (mapSet key v m).*2)
  ≡ₚ (concat (g <$> m.*2) ++ (if mapHas key m then extra else g v))%list.
Proof.
  intros Hv. induction m as [| [k0 v0] m IH].
  - cbn. rewrite app_nil_r. reflexivity.
  - rewrite mapGet_cons in Hv. cbn [mapSet mapHas existsb fst].
    destruct (bool_decide (k0 = key)); cbn [orb].
    + cbn [default from_option id] in Hv. rewrite !fmap_cons. cbn [snd concat].
      rewrite Hv, <- !app_assoc. apply Permutation_app_head, Permutation_app_comm.
    + rewrite !fmap_cons. cbn [snd concat]. fold (mapHas key m).
      rewrite <- app_assoc. apply Permutation_app_head. apply IH; assumption.
Qed.

Lemma mapSet_Forall {K V} `{EqDecision K} (P : V → Prop) (key : K) (v : V) (m : list (K * V)) :
  Forall P m.*2 → P v → Forall P (mapSet key v m).*2.
Proof.
  intros Hm Hv. induction m as [| [k0 v0] m IH]; cbn [mapSet].
  - apply Forall_cons. split; [exact Hv | constructor].
  - rewrite fmap_cons in Hm. apply Forall_cons in Hm as [Hv0 Hm].
    destruct (bool_decide (k0 = key)); rewrite fmap_cons; apply Forall_cons; cbn [snd]; auto.
Qed.

Lemma mapGet_Forall {K V} `{EqDecision K} (P : V → Prop) (key : K) (v : V) (m : list (K * V)) :
  Forall P m.*2 → mapGet key m = Some v → P v.
Proof.
  induction m as [| [k0 v0] m IH]; [discriminate |].
  rewrite fmap_cons, mapGet_cons. intros [Hv0 Hm]%Forall_cons.
  destruct (bool_decide (k0 = key)); [intros [= <-]; exact Hv0 | apply IH, Hm].
Qed.

Lemma historyStep_tokens (config : Config) (rows : list (BalanceRow * Z))
    (history : list (Z * list DisplayWalletBalance)) (entry : BalanceRow * Z) :
  Forall (Forall (filedUnder config rows)) history.*2 →
  tokensOf (concat (BalanceDatabase.historyStep config history entry).*2)
  ≡ₚ (tokensOf (concat history.*2) ++ [tokenOfRow entry])%list
  ∧ Forall (Forall (filedUnder config (rows ++ [entry]))) (BalanceDatabase.historyStep config history entry).*2.
Proof.
  intros Hfiled.
  assert (Hfiled' : Forall (Forall (filedUnder config (rows ++ [entry]))) history.*2).
  { eapply Forall_impl; [exact Hfiled |]. intros group Hgroup.
    eapply Forall_impl; [exact Hgroup |]. intros b. apply filedUnder_snoc. }
  destruct entry as [row decimals].
  pose proof (pushToken_found config rows (row, decimals)) as Hfound. cbn [fst] in Hfound.
  unfold BalanceDatabase.historyStep.
  change (mkTokenBalance (row_token_address row) (row_symbol row) (row_balance row) decimals)
    with (tokenOfRow (row, decimals)).
  set (token := tokenOfRow (row, decimals)) in *.
  set (ts := row_timestamp row).
  assert (Hflat : ∀ h : list (Z * list DisplayWalletBalance),
            tokensOf (concat h.*2) = concat (tokensOf <$> h.*2)).
  { intros h. unfold tokensOf. induction (h.*2) as [| g gs IHg]; [reflexivity |].
    cbn [concat fmap list_fmap]. rewrite fmap_app, concat_app. f_equal. exact IHg. }
  assert (Hensure : ∃ history1 group,
            (if negb (mapHas ts history) then mapSet ts [] history else history) = history1
            ∧ mapGet ts history1 = Some group
            ∧ tokensOf (concat history1.*2) ≡ₚ tokensOf (concat history.*2)
            ∧ Forall (Forall (filedUnder config rows)) history1.*2).
  { rewrite (mapHas_mapGet ts history). destruct (mapGet ts history) as [group |] eqn:Hget; cbn [negb].
    - exists history, group. auto.
    - exists (mapSet ts [] history), []. split; [reflexivity |]. split; [| split].
      + rewrite mapGet_mapSet, bool_decide_eq_true_2; reflexivity.
      + rewrite !Hflat.
        rewrite (mapSet_values tokensOf ts [] history []).
        * rewrite (mapHas_mapGet ts history), Hget. cbn. rewrite app_nil_r. reflexivity.
        * rewrite Hget. reflexivity.
      + apply mapSet_Forall; [exact Hfiled | constructor]. }
  destruct Hensure as (history1 & group & -> & Hget & Hperm1 & Hfiled1).
  rewrite Hget. cbn [default from_option id].
  pose proof (mapGet_Forall _ _ _ _ Hfiled1 Hget) as Hgroup.
  set (fresh := mkDisplayWalletBalance _ None _ _ [] _).
  assert (Hpush : ∃ group',
            BalanceDatabase.pushToken row token
              (match List.find (BalanceDatabase.isWalletOf row) group with
               | Some _ => group
               | None => (group ++ [fresh])%list
               end) = group'
            ∧ tokensOf group' ≡ₚ (tokensOf group ++ [token])%list
            ∧ Forall (filedUnder config (rows ++ [(row, decimals)])) group').
  { eexists. split; [reflexivity |].
    destruct (List.find (BalanceDatabase.isWalletOf row) group) as [b |] eqn:Hfind.
    - destruct (Hfound group ltac:(congruence)) as [Hp Hs]. auto.
    - assert (Hfresh : BalanceDatabase.isWalletOf row fresh = true).
      { unfold BalanceDatabase.isWalletOf, fresh. cbn [dwb_address dwb_network_id].
        rewrite bool_decide_eq_true_2, Z.eqb_refl; reflexivity. }
      rewrite (pushToken_fresh row token group fresh Hfind Hfresh). split.
      + rewrite tokensOf_app. unfold tokensOf at 2. cbn. reflexivity.
      + apply Forall_app. split.
        * eapply Forall_impl; [exact Hgroup |]. intros b. apply filedUnder_snoc.
        * apply Forall_singleton. repeat split; cbn; [discriminate |].
          apply Forall_singleton. exists (row, decimals).
          split; [apply elem_of_app; right; apply list_elem_of_singleton; reflexivity |].
          auto. }
  destruct Hpush as (group' & -> & Hperm' & Hfiled2).
  split.
  - rewrite Hflat, (mapSet_values tokensOf ts group' history1 [token]).
    + rewrite (mapHas_mapGet ts history1), Hget, <- Hflat, Hperm1. reflexivity.
    + rewrite Hget. exact Hperm'.
  - apply mapSet_Forall; [| exact Hfiled2].
    eapply Forall_impl; [exact Hfiled1 |]. intros g Hg.
    eapply Forall_impl; [exact Hg |]. intros b. apply filedUnder_snoc.
Qed.

(** X25. [processBalanceRows] loses and invents nothing: the tokens of the
    returned wallets are, up to order, exactly the tokens of the rows, one
    per row.  Every returned wallet holds at least one token and only tokens
    of rows with its own address and network id, has no label and carries
    the configured name of its network (or the [Chain ID] fallback); so there
    are at most as many wallets as rows. *)
Theorem processBalanceRows_tokens (config : Config) (now : Z) (rows : list (BalanceRow * Z)) :
  let balances := (BalanceDatabase.processBalanceRows config now rows).2 in
  tokensOf balances ≡ₚ tokenOfRow <$> rows
  ∧ Forall (filedUnder config rows) balances
  ∧ (length balances ≤ length rows)%nat.
Proof.
  cbv zeta. unfold BalanceDatabase.processBalanceRows. cbn [snd].
  assert (Hinv : tokensOf (concat (foldl (BalanceDatabase.historyStep config) [] rows).*2) ≡ₚ tokenOfRow <$> rows
                 ∧ Forall (Forall (filedUnder config rows))
                          (foldl (BalanceDatabase.historyStep config) [] rows).*2).
  { induction rows as [| entry rows IH] using rev_ind; [split; [reflexivity | constructor] |].
    rewrite foldl_snoc, fmap_app. destruct IH as [Hperm Hfiled].
    destruct (historyStep_tokens config rows _ entry Hfiled) as [Hstep Hfiled'].
    split; [| exact Hfiled']. rewrite Hstep, Hperm. reflexivity. }
  destruct Hinv as [Hperm Hfiled]. apply Forall_concat in Hfiled.
  split; [exact Hperm |]. split; [exact Hfiled |].
  apply Permutation_length in Hperm. rewrite length_fmap in Hperm. rewrite <- Hperm.
  clear Hperm. induction Hfiled as [| b balances [Hb _] _ IH]; [reflexivity |].
  unfold tokensOf in *. cbn [fmap list_fmap concat length]. rewrite length_app.
  destruct (dwb_tokens b); [contradiction |]. cbn [length]. lia.
Qed.
